(** * ns3penv: data containers and the gym interface protocol

    A shallow embedding of [src/model/container.{h,cc}] and
    [src/model/ns3penv-gym-interface.cc].

    - [Module Container]: the container classes
      ([OpenGymDiscreteContainer], [OpenGymBoxContainer<T>],
      [OpenGymTupleContainer], [OpenGymDictContainer]), their protobuf
      encoding [GetDataContainerPbMsg], the decoder
      [CreateFromDataContainerPbMsg] and [Print].
    - [Module Interface]: [OpenGymInterface] with [Init],
      [NotifyCurrentState], [WaitForStop], [NotifySimulationEnd] and
      [Notify], run against a transport whose replies are given by the
      remote side. *)

From Stdlib Require Import ZArith NArith List String Ascii Bool Lia.
From Stdlib Require Import Sorting.Sorted Structures.OrderedTypeEx.
From Stdlib Require Import Numbers.DecimalString Numbers.DecimalZ Numbers.DecimalN.
Import ListNotations.

Set Warnings "-register-all".

Local Open Scope string_scope.
Local Open Scope list_scope.

(** ** Outcomes of fallible code

    [NS_ABORT_MSG] ends the process with a message; [std::vector::at]
    throws [std::out_of_range]. *)

Inductive result (A : Type) : Type :=
| Ok (a : A)
| Abort (msg : string)
| Throw (what : string).

Arguments Ok {A} a.
Arguments Abort {A} msg.
Arguments Throw {A} what.

Definition bind {A B : Type} (r : result A) (k : A -> result B) : result B :=
  match r with
  | Ok a => k a
  | Abort msg => Abort msg
  | Throw what => Throw what
  end.

Declare Scope result_scope.
Delimit Scope result_scope with result.
Notation "x <- r ;; k" := (bind r (fun x => k))
  (at level 61, r at next level, right associativity) : result_scope.
Local Open Scope result_scope.

(** ** [std::map<std::string, V>]

    The map keeps its entries ordered by key ([std::less<std::string>],
    the lexicographic order on unsigned bytes, which is [String.compare]).
    It is modelled as the key-ordered list of its entries, which is what
    iteration from [begin()] to [end()] visits; [insert] and [find] walk
    it by key comparison. *)

Module StdMap.
Section Map.
Context {V : Type}.

Definition t := list (string * V).

Definition empty : t := [].

(** [m.insert(std::pair(k, v))]: an existing key keeps its value. *)
Fixpoint insert (k : string) (v : V) (m : t) : t :=
  match m with
  | [] => [(k, v)]
  | (k', v') :: rest =>
      match String.compare k k' with
      | Lt => (k, v) :: m
      | Eq => m
      | Gt => (k', v') :: insert k v rest
      end
  end.

(** [m.find(k)]; [None] stands for [m.end()]. *)
Fixpoint find (k : string) (m : t) : option V :=
  match m with
  | [] => None
  | (k', v') :: rest =>
      match String.compare k k' with
      | Lt => None
      | Eq => Some v'
      | Gt => find k rest
      end
  end.

Definition keys (m : t) : list string := List.map fst m.

Definition lt (a b : string) : Prop := String.compare a b = Lt.

(** The class invariant of [std::map]: strictly increasing keys. *)
Definition ordered (m : t) : Prop := StronglySorted lt (keys m).
End Map.
Arguments t V : clear implicits.
End StdMap.

(** ** [std::vector<T>] reads *)

(** [v.at(idx)] *)
Definition vector_at {A : Type} (v : list A) (idx : N) : result A :=
  match nth_error v (N.to_nat idx) with
  | Some a => Ok a
  | None => Throw "std::out_of_range"
  end.

Definition vector_size {A : Type} (v : list A) : N := N.of_nat (List.length v).

(** [v.push_back(a)] *)
Definition push_back {A : Type} (v : list A) (a : A) : list A := v ++ [a].

Module Container.

(** *** Element types

    The template argument [T] of [OpenGymBoxContainer<T>].  [TypeNameGet<T>()]
    (ns-3's [type-name.h]) gives the name [SetDtype] tests; a type other than
    the ten arithmetic ones is kept by the name it reports. *)

Inductive CType : Type :=
| int8_t | int16_t | int32_t | int64_t
| uint8_t | uint16_t | uint32_t | uint64_t
| float | double
| other_type (name : string).

Definition TypeNameGet (T : CType) : string :=
  match T with
  | int8_t => "int8_t" | int16_t => "int16_t"
  | int32_t => "int32_t" | int64_t => "int64_t"
  | uint8_t => "uint8_t" | uint16_t => "uint16_t"
  | uint32_t => "uint32_t" | uint64_t => "uint64_t"
  | float => "float" | double => "double"
  | other_type name => name
  end.

Definition CType_eq_dec (a b : CType) : {a = b} + {a <> b}.
Proof. decide equality; apply string_dec. Defined.

(** Modelled from the spec: the generated [messages.pb.h] is not part of the
    sources.  [ns3penv::Dtype] is the enum [{Int, UInt, Float, Double}] of
    the Box wire message; as a proto3 enum it can carry a number that
    names none of them, which is what the [default:] branches guard. *)
Inductive Dtype : Type :=
| INT | UINT | FLOAT | DOUBLE
| Dtype_unrecognized (number : Z).

Definition Dtype_eq_dec (a b : Dtype) : {a = b} + {a <> b}.
Proof. decide equality; apply Z.eq_dec. Defined.

(** A value of an element type is kept as an integer: the number itself for
    the integer types, the IEEE-754 bit pattern for [float] and [double]
    (containers only store, copy and print elements). *)
Definition value := Z.

(** *** Wire messages *)

(** Modelled from the spec: [ns3penv::BoxDataContainer] of [messages.pb.h],
    `Box{shape: []uint32, dtype, intData|uintData|floatData|doubleData}`. *)
Record BoxDataContainer : Type := {
  shape : list N;
  dtype : Dtype;
  intData : list value;
  uintData : list value;
  floatData : list value;
  doubleData : list value
}.

(** Modelled from the spec: [ns3penv::DataContainer] of [messages.pb.h], a
    [name] and the oneof [data] whose [data_case()] is [kDiscrete], [kBox],
    [kTuple], [kDict] or not set. *)
Inductive DataContainer : Type :=
| DATA_NOT_SET (name : string)
| kDiscrete (name : string) (data : N)
| kBox (name : string) (box : BoxDataContainer)
| kTuple (name : string) (element : list DataContainer)
| kDict (name : string) (element : list DataContainer).

Definition name (m : DataContainer) : string :=
  match m with
  | DATA_NOT_SET n | kDiscrete n _ | kBox n _ | kTuple n _ | kDict n _ => n
  end.

Definition set_name (n : string) (m : DataContainer) : DataContainer :=
  match m with
  | DATA_NOT_SET _ => DATA_NOT_SET n
  | kDiscrete _ d => kDiscrete n d
  | kBox _ b => kBox n b
  | kTuple _ e => kTuple n e
  | kDict _ e => kDict n e
  end.

(** *** The container classes *)

(** [OpenGymDiscreteContainer]; [m_n] is the maximum allowed value plus
    one. *)
Record OpenGymDiscrete : Type := {
  m_n : N;
  m_value : N
}.

(** [OpenGymBoxContainer<T>]: [box_T] is the template argument. *)
Record OpenGymBoxContainer : Type := {
  box_T : CType;
  m_shape : list N;
  m_dtype : Dtype;
  m_data : list value
}.

(** [Ptr<OpenGymDataContainer>] to an object of one of the four subclasses.
    The children of a tuple or dict are objects (a null child cannot be
    encoded or printed: both dereference it). *)
Inductive OpenGymDataContainer : Type :=
| OpenGymDiscreteContainer (d : OpenGymDiscrete)
| OpenGymBox (b : OpenGymBoxContainer)
| OpenGymTupleContainer (m_tuple : list OpenGymDataContainer)
| OpenGymDictContainer (m_dict : StdMap.t OpenGymDataContainer).

(** Induction principle that reaches the children of tuples and dicts. *)
Section ContainerInd.
Variable P : OpenGymDataContainer -> Prop.
Hypothesis HDiscrete : forall d, P (OpenGymDiscreteContainer d).
Hypothesis HBox : forall b, P (OpenGymBox b).
Hypothesis HTuple : forall l, Forall P l -> P (OpenGymTupleContainer l).
Hypothesis HDict :
  forall d, Forall (fun kv => P (snd kv)) d -> P (OpenGymDictContainer d).

Fixpoint container_ind' (c : OpenGymDataContainer) : P c :=
  match c with
  | OpenGymDiscreteContainer d => HDiscrete d
  | OpenGymBox b => HBox b
  | OpenGymTupleContainer l =>
      HTuple l
        ((fix all (l : list OpenGymDataContainer) : Forall P l :=
            match l with
            | [] => Forall_nil P
            | x :: r => Forall_cons x (container_ind' x) (all r)
            end) l)
  | OpenGymDictContainer d =>
      HDict d
        ((fix all (d : list (string * OpenGymDataContainer))
            : Forall (fun kv => P (snd kv)) d :=
            match d with
            | [] => Forall_nil _
            | kv :: r => Forall_cons kv (container_ind' (snd kv)) (all r)
            end) d)
  end.
End ContainerInd.

(** **** OpenGymDiscreteContainer *)

(** [OpenGymDiscreteContainer()]: sets [m_n = 0]; [m_value] is not
    initialised by either constructor and reads as 0 here until it is set. *)
Definition OpenGymDiscreteContainer_default : OpenGymDiscrete :=
  {| m_n := 0; m_value := 0 |}.

(** [OpenGymDiscreteContainer(uint32_t n)] *)
Definition OpenGymDiscreteContainer_n (n : N) : OpenGymDiscrete :=
  {| m_n := n; m_value := 0 |}.

Definition Discrete_SetValue (value : N) (d : OpenGymDiscrete)
  : OpenGymDiscrete * bool :=
  ({| m_n := m_n d; m_value := value |}, true).

Definition Discrete_GetValue (d : OpenGymDiscrete) : N := m_value d.

(** **** OpenGymBoxContainer<T> *)

(** [SetDtype()]: the value stored into [m_dtype], or the abort. *)
Definition SetDtype (T : CType) : result Dtype :=
  let name := TypeNameGet T in
  if (name =? "int8_t") || (name =? "int16_t")
     || (name =? "int32_t") || (name =? "int64_t") then Ok INT
  else if (name =? "uint8_t") || (name =? "uint16_t")
          || (name =? "uint32_t") || (name =? "uint64_t") then Ok UINT
  else if name =? "float" then Ok FLOAT
  else if name =? "double" then Ok DOUBLE
  else Abort ("Unsupported data type: " ++ name)%string.

(** [OpenGymBoxContainer<T>::OpenGymBoxContainer(std::vector<uint32_t> shape)] *)
Definition OpenGymBoxContainer_shape (T : CType) (shape : list N)
  : result OpenGymBoxContainer :=
  dt <- SetDtype T ;;
  Ok {| box_T := T; m_shape := shape; m_dtype := dt; m_data := [] |}.

(** [OpenGymBoxContainer<T>::OpenGymBoxContainer()] *)
Definition OpenGymBoxContainer_default (T : CType) : result OpenGymBoxContainer :=
  dt <- SetDtype T ;;
  Ok {| box_T := T; m_shape := []; m_dtype := dt; m_data := [] |}.

Definition Box_AddValue (v : value) (b : OpenGymBoxContainer)
  : OpenGymBoxContainer * bool :=
  ({| box_T := box_T b; m_shape := m_shape b; m_dtype := m_dtype b;
      m_data := push_back (m_data b) v |}, true).

Definition Box_SetData (data : list value) (b : OpenGymBoxContainer)
  : OpenGymBoxContainer * bool :=
  ({| box_T := box_T b; m_shape := m_shape b; m_dtype := m_dtype b;
      m_data := data |}, true).

Definition Box_GetShape (b : OpenGymBoxContainer) : list N := m_shape b.
Definition Box_GetData (b : OpenGymBoxContainer) : list value := m_data b.

(** [GetValue(idx)]: [T data = 0] unless [idx] is in range. *)
Definition Box_GetValue (idx : N) (b : OpenGymBoxContainer) : result value :=
  let data := 0%Z in
  if (idx <? vector_size (m_data b))%N then
    data <- vector_at (m_data b) idx ;; Ok data
  else Ok data.

(** **** OpenGymTupleContainer *)

Definition Tuple_Add (space : OpenGymDataContainer)
  (m_tuple : list OpenGymDataContainer) : list OpenGymDataContainer * bool :=
  (push_back m_tuple space, true).

(** [Get(idx)]; [Ok None] is the null [Ptr]. *)
Definition Tuple_Get (idx : N) (m_tuple : list OpenGymDataContainer)
  : result (option OpenGymDataContainer) :=
  let data := None in
  if (idx <? vector_size m_tuple)%N then
    data <- vector_at m_tuple idx ;; Ok (Some data)
  else Ok data.

(** **** OpenGymDictContainer *)

Definition Dict_Add (key : string) (data : OpenGymDataContainer)
  (m_dict : StdMap.t OpenGymDataContainer)
  : StdMap.t OpenGymDataContainer * bool :=
  (StdMap.insert key data m_dict, true).

(** [Get(key)]; [Ok None] is the null [Ptr]. *)
Definition Dict_Get (key : string) (m_dict : StdMap.t OpenGymDataContainer)
  : result (option OpenGymDataContainer) :=
  match StdMap.find key m_dict with
  | Some second => Ok (Some second)
  | None => Ok None
  end.

(** *** Encoding, decoding and printing *)

Section Codec.
(** The implicit conversion C++ applies when a range of [from] elements
    initialises a repeated field of [to] elements, for [from <> to]. *)
Variable numeric_cast : CType -> CType -> value -> value.

(** [std::to_string] on a [float], a [double] or an element of a type
    outside the integer ones. *)
Variable to_string_other : CType -> value -> string.

Definition convert (from to : CType) (v : value) : value :=
  if CType_eq_dec from to then v else numeric_cast from to v.

Definition Discrete_GetDataContainerPbMsg (d : OpenGymDiscrete)
  : DataContainer :=
  kDiscrete "" (Discrete_GetValue d).

(** [OpenGymBoxContainer<T>::GetDataContainerPbMsg()] *)
Definition Box_GetDataContainerPbMsg (b : OpenGymBoxContainer)
  : result DataContainer :=
  let shape := Box_GetShape b in
  let data := Box_GetData b in
  let boxMsg (i u f d : list value) :=
    {| shape := shape; dtype := m_dtype b;
       intData := i; uintData := u; floatData := f; doubleData := d |} in
  match m_dtype b with
  | INT => Ok (kBox "" (boxMsg (map (convert (box_T b) int32_t) data) [] [] []))
  | UINT => Ok (kBox "" (boxMsg [] (map (convert (box_T b) uint32_t) data) [] []))
  | FLOAT => Ok (kBox "" (boxMsg [] [] (map (convert (box_T b) float) data) []))
  | DOUBLE => Ok (kBox "" (boxMsg [] [] [] (map (convert (box_T b) double) data)))
  | Dtype_unrecognized _ => Abort "Unsupported data type."
  end.

(** The virtual [GetDataContainerPbMsg()]. *)
Fixpoint GetDataContainerPbMsg (c : OpenGymDataContainer)
  : result DataContainer :=
  match c with
  | OpenGymDiscreteContainer d => Ok (Discrete_GetDataContainerPbMsg d)
  | OpenGymBox b => Box_GetDataContainerPbMsg b
  | OpenGymTupleContainer m_tuple =>
      element <-
        (fix each (l : list OpenGymDataContainer) : result (list DataContainer) :=
           match l with
           | [] => Ok []
           | subSpace :: rest =>
               subDataContainer <- GetDataContainerPbMsg subSpace ;;
               more <- each rest ;;
               Ok (subDataContainer :: more)
           end) m_tuple ;;
      Ok (kTuple "" element)
  | OpenGymDictContainer m_dict =>
      element <-
        (fix each (l : list (string * OpenGymDataContainer))
           : result (list DataContainer) :=
           match l with
           | [] => Ok []
           | (name, subSpace) :: rest =>
               subDataContainer <- GetDataContainerPbMsg subSpace ;;
               more <- each rest ;;
               Ok (set_name name subDataContainer :: more)
           end) m_dict ;;
      Ok (kDict "" element)
  end.

(** [OpenGymDataContainer::CreateFromDataContainerPbMsg] *)
Fixpoint CreateFromDataContainerPbMsg (dataContainerPbMsg : DataContainer)
  : result OpenGymDataContainer :=
  match dataContainerPbMsg with
  | kDiscrete _ data =>
      let discrete := OpenGymDiscreteContainer_default in
      Ok (OpenGymDiscreteContainer (fst (Discrete_SetValue data discrete)))
  | kBox _ boxMsg =>
      match dtype boxMsg with
      | INT =>
          box <- OpenGymBoxContainer_default int32_t ;;
          Ok (OpenGymBox (fst (Box_SetData (intData boxMsg) box)))
      | UINT =>
          box <- OpenGymBoxContainer_default uint32_t ;;
          Ok (OpenGymBox (fst (Box_SetData (uintData boxMsg) box)))
      | FLOAT =>
          box <- OpenGymBoxContainer_default float ;;
          Ok (OpenGymBox (fst (Box_SetData (floatData boxMsg) box)))
      | DOUBLE =>
          box <- OpenGymBoxContainer_default double ;;
          Ok (OpenGymBox (fst (Box_SetData (doubleData boxMsg) box)))
      | Dtype_unrecognized _ => Abort "Unsupported data type"
      end
  | kTuple _ elements =>
      tupleData <-
        (fix each (l : list DataContainer) (tupleData : list OpenGymDataContainer)
           : result (list OpenGymDataContainer) :=
           match l with
           | [] => Ok tupleData
           | element :: rest =>
               subData <- CreateFromDataContainerPbMsg element ;;
               each rest (fst (Tuple_Add subData tupleData))
           end) elements [] ;;
      Ok (OpenGymTupleContainer tupleData)
  | kDict _ elements =>
      dictData <-
        (fix each (l : list DataContainer) (dictData : StdMap.t OpenGymDataContainer)
           : result (StdMap.t OpenGymDataContainer) :=
           match l with
           | [] => Ok dictData
           | element :: rest =>
               subSpace <- CreateFromDataContainerPbMsg element ;;
               each rest (fst (Dict_Add (name element) subSpace dictData))
           end) elements StdMap.empty ;;
      Ok (OpenGymDictContainer dictData)
  | DATA_NOT_SET _ => Abort "Unsupported data container type"
  end.

(** [std::to_string] on an unsigned and on a signed integer. *)
Definition to_string_unsigned (n : N) : string :=
  NilZero.string_of_uint (N.to_uint n).

Definition to_string_signed (z : Z) : string :=
  NilZero.string_of_int (Z.to_int z).

(** [std::to_string] applied to an element of type [T]. *)
Definition to_string (T : CType) (v : value) : string :=
  match T with
  | int8_t | int16_t | int32_t | int64_t => to_string_signed v
  | uint8_t | uint16_t | uint32_t | uint64_t => to_string_unsigned (Z.to_N v)
  | float | double | other_type _ => to_string_other T v
  end.

(** The loops of the three [Print]s write the items with [", "] between
    two of them. *)
Fixpoint join (items : list string) : string :=
  match items with
  | [] => ""
  | [x] => x
  | x :: rest => (x ++ ", " ++ join rest)%string
  end.

Definition Box_Print (b : OpenGymBoxContainer) : string :=
  ("[" ++ join (map (to_string (box_T b)) (m_data b)) ++ "]")%string.

(** The virtual [Print(where)]: the text written to the stream. *)
Fixpoint Print (c : OpenGymDataContainer) : string :=
  match c with
  | OpenGymDiscreteContainer d => to_string_unsigned (m_value d)
  | OpenGymBox b => Box_Print b
  | OpenGymTupleContainer m_tuple =>
      ("Tuple(" ++ join (map Print m_tuple) ++ ")")%string
  | OpenGymDictContainer m_dict =>
      ("Dict("
       ++ join (map (fun it => fst it ++ "=" ++ Print (snd it)) m_dict)
       ++ ")")%string
  end.
End Codec.

(** The loops of the encoder and of the decoder over the children, as
    functions of their own. *)
Definition Tuple_encode_each (numeric_cast : CType -> CType -> value -> value)
  : list OpenGymDataContainer -> result (list DataContainer) :=
  fix each l :=
    match l with
    | [] => Ok []
    | subSpace :: rest =>
        subDataContainer <- GetDataContainerPbMsg numeric_cast subSpace ;;
        more <- each rest ;;
        Ok (subDataContainer :: more)
    end.

Definition Dict_encode_each (numeric_cast : CType -> CType -> value -> value)
  : list (string * OpenGymDataContainer) -> result (list DataContainer) :=
  fix each l :=
    match l with
    | [] => Ok []
    | (name, subSpace) :: rest =>
        subDataContainer <- GetDataContainerPbMsg numeric_cast subSpace ;;
        more <- each rest ;;
        Ok (set_name name subDataContainer :: more)
    end.

Definition Tuple_decode_each
  : list DataContainer -> list OpenGymDataContainer
    -> result (list OpenGymDataContainer) :=
  fix each l tupleData :=
    match l with
    | [] => Ok tupleData
    | element :: rest =>
        subData <- CreateFromDataContainerPbMsg element ;;
        each rest (fst (Tuple_Add subData tupleData))
    end.

Definition Dict_decode_each
  : list DataContainer -> StdMap.t OpenGymDataContainer
    -> result (StdMap.t OpenGymDataContainer) :=
  fix each l dictData :=
    match l with
    | [] => Ok dictData
    | element :: rest =>
        subSpace <- CreateFromDataContainerPbMsg element ;;
        each rest (fst (Dict_Add (name element) subSpace dictData))
    end.

(** *** Containers the program builds *)

(** The element types the library instantiates the template for (the
    explicit instantiations that close [container.cc]). *)
Definition instantiated (T : CType) : bool :=
  match T with
  | int32_t | uint32_t | float | double => true
  | _ => false
  end.

(** A box as its constructors leave it: [m_dtype] is what [SetDtype] stored
    for [T], and no method changes it. *)
Definition Box_wf (b : OpenGymBoxContainer) : Prop :=
  instantiated (box_T b) = true /\ SetDtype (box_T b) = Ok (m_dtype b).

(** A container tree: boxes as constructed, dict entries in key order. *)
Inductive wf : OpenGymDataContainer -> Prop :=
| wf_Discrete d : wf (OpenGymDiscreteContainer d)
| wf_Box b : Box_wf b -> wf (OpenGymBox b)
| wf_Tuple m_tuple :
    Forall wf m_tuple -> wf (OpenGymTupleContainer m_tuple)
| wf_Dict m_dict :
    StdMap.ordered m_dict ->
    Forall (fun it => wf (snd it)) m_dict ->
    wf (OpenGymDictContainer m_dict).

(** The dict that a sequence of [Add] calls leaves in a new
    [OpenGymDictContainer]. *)
Definition Dict_of_adds (adds : list (string * OpenGymDataContainer))
  : StdMap.t OpenGymDataContainer :=
  fold_left (fun m_dict it => fst (Dict_Add (fst it) (snd it) m_dict))
            adds StdMap.empty.

(** *** Comparing containers *)

Definition list_eqb {A : Type} (eqb : A -> A -> bool) : list A -> list A -> bool :=
  fix go (l l' : list A) : bool :=
    match l, l' with
    | [], [] => true
    | x :: r, y :: r' => eqb x y && go r r'
    | _, _ => false
    end.

Definition Dtype_eqb (a b : Dtype) : bool :=
  if Dtype_eq_dec a b then true else false.

Definition CType_eqb (a b : CType) : bool :=
  if CType_eq_dec a b then true else false.

(** Structural equality of two boxes: same element type and dtype, same
    shape, same data. *)
Definition Box_structurally_equal (a b : OpenGymBoxContainer) : bool :=
  CType_eqb (box_T a) (box_T b)
  && Dtype_eqb (m_dtype a) (m_dtype b)
  && list_eqb N.eqb (m_shape a) (m_shape b)
  && list_eqb Z.eqb (m_data a) (m_data b).

(** Structural equality of two containers: same variant; the same value for
    Discrete; the same shape, dtype and data for Box; the same element
    sequence for Tuple; the same keys with the same values for Dict. *)
Fixpoint structurally_equal (a b : OpenGymDataContainer) {struct a} : bool :=
  match a, b with
  | OpenGymDiscreteContainer x, OpenGymDiscreteContainer y =>
      N.eqb (m_value x) (m_value y)
  | OpenGymBox x, OpenGymBox y => Box_structurally_equal x y
  | OpenGymTupleContainer l, OpenGymTupleContainer l' =>
      (fix go (l l' : list OpenGymDataContainer) : bool :=
         match l, l' with
         | [], [] => true
         | x :: r, y :: r' => structurally_equal x y && go r r'
         | _, _ => false
         end) l l'
  | OpenGymDictContainer d, OpenGymDictContainer d' =>
      (fix go (d d' : list (string * OpenGymDataContainer)) : bool :=
         match d, d' with
         | [], [] => true
         | (k, x) :: r, (k', y) :: r' =>
             String.eqb k k' && structurally_equal x y && go r r'
         | _, _ => false
         end) d d'
  | _, _ => false
  end.

(** What is left of a container after it went over the wire: the decoder
    builds every box with the default constructor and every discrete with
    [m_n = 0]. *)
Definition Box_received (b : OpenGymBoxContainer) : OpenGymBoxContainer :=
  {| box_T := box_T b; m_shape := []; m_dtype := m_dtype b; m_data := m_data b |}.

Fixpoint received (c : OpenGymDataContainer) : OpenGymDataContainer :=
  match c with
  | OpenGymDiscreteContainer d =>
      OpenGymDiscreteContainer {| m_n := 0; m_value := m_value d |}
  | OpenGymBox b => OpenGymBox (Box_received b)
  | OpenGymTupleContainer m_tuple => OpenGymTupleContainer (map received m_tuple)
  | OpenGymDictContainer m_dict =>
      OpenGymDictContainer (map (fun it => (fst it, received (snd it))) m_dict)
  end.

(** No box of the container has a shape. *)
Fixpoint shapeless (c : OpenGymDataContainer) : bool :=
  match c with
  | OpenGymDiscreteContainer _ => true
  | OpenGymBox b => match m_shape b with [] => true | _ => false end
  | OpenGymTupleContainer m_tuple => forallb shapeless m_tuple
  | OpenGymDictContainer m_dict =>
      forallb (fun it => shapeless (snd it)) m_dict
  end.

(** Encoding and then decoding, as one step. *)
Definition decode_encode (numeric_cast : CType -> CType -> value -> value)
  (c : OpenGymDataContainer) : result OpenGymDataContainer :=
  msg <- GetDataContainerPbMsg numeric_cast c ;;
  CreateFromDataContainerPbMsg msg.

(** The names [SetDtype] knows, by kind. *)
Definition signed_integer_names : list string :=
  ["int8_t"; "int16_t"; "int32_t"; "int64_t"].
Definition unsigned_integer_names : list string :=
  ["uint8_t"; "uint16_t"; "uint32_t"; "uint64_t"].
Definition supported_names : list string :=
  signed_integer_names ++ unsigned_integer_names ++ ["float"; "double"].

(** A conversion to run the encoder with where none is applied: the wire
    field a constructed box writes has the element type of the box. *)
Definition cast_unused : CType -> CType -> value -> value := fun _ _ v => v.

(** A rendering to run [Print] with: a [float] or [double], kept by its bit
    pattern, is written as that number in decimal digits. *)
Definition to_string_bits : CType -> value -> string :=
  fun _ v => NilZero.string_of_int (Z.to_int v).

(** *** Sample containers

    The value of the spec's example scenario, [{"pos": [1.5, -2.0], "n": 3}]:
    the two floats by their binary32 bit patterns, the box with and without
    its shape. *)
Definition pos_data : list value := [1069547520%Z; 3221225472%Z].

Definition pos_shaped : OpenGymBoxContainer :=
  {| box_T := float; m_shape := [2%N]; m_dtype := FLOAT; m_data := pos_data |}.

Definition pos_plain : OpenGymBoxContainer :=
  {| box_T := float; m_shape := []; m_dtype := FLOAT; m_data := pos_data |}.

Definition three : OpenGymDataContainer :=
  OpenGymDiscreteContainer {| m_n := 0; m_value := 3 |}.

Definition observation : OpenGymDataContainer :=
  OpenGymDictContainer
    [("n", three);
     ("pos", OpenGymTupleContainer [OpenGymBox pos_plain; three])].

(** A container that decodes from what it encodes to, up to the shapes. *)
Definition roundtrips (numeric_cast : CType -> CType -> value -> value)
  (c : OpenGymDataContainer) : Prop :=
  wf c -> decode_encode numeric_cast c = Ok (received c).

(** *** Reading wire messages and containers *)

(** Induction principle that reaches the elements of tuple and dict
    messages. *)
Section DataContainerInd.
Variable P : DataContainer -> Prop.
Hypothesis HNotSet : forall n, P (DATA_NOT_SET n).
Hypothesis HDiscrete : forall n d, P (kDiscrete n d).
Hypothesis HBox : forall n b, P (kBox n b).
Hypothesis HTuple : forall n l, Forall P l -> P (kTuple n l).
Hypothesis HDict : forall n l, Forall P l -> P (kDict n l).

Fixpoint DataContainer_ind' (m : DataContainer) : P m :=
  let all :=
    fix all (l : list DataContainer) : Forall P l :=
      match l with
      | [] => Forall_nil P
      | x :: r => Forall_cons x (DataContainer_ind' x) (all r)
      end in
  match m with
  | DATA_NOT_SET n => HNotSet n
  | kDiscrete n d => HDiscrete n d
  | kBox n b => HBox n b
  | kTuple n l => HTuple n l (all l)
  | kDict n l => HDict n l (all l)
  end.
End DataContainerInd.

(** A dtype that names one of the four cases of the switches. *)
Definition recognised (dt : Dtype) : bool :=
  match dt with
  | Dtype_unrecognized _ => false
  | _ => true
  end.

(** A message whose data case is set and whose boxes have a recognised
    dtype, all the way down. *)
Fixpoint supported (m : DataContainer) : bool :=
  match m with
  | DATA_NOT_SET _ => false
  | kDiscrete _ _ => true
  | kBox _ b => recognised (dtype b)
  | kTuple _ l => forallb supported l
  | kDict _ l => forallb supported l
  end.

(** The value of the first [Add] under [key] in a sequence of [Add]s. *)
Fixpoint first_added (key : string) (adds : list (string * OpenGymDataContainer))
  : option OpenGymDataContainer :=
  match adds with
  | [] => None
  | (k, c) :: rest => if String.eqb key k then Some c else first_added key rest
  end.

(** The typed array of a box message that its dtype names. *)
Definition payload (boxMsg : BoxDataContainer) : list value :=
  match dtype boxMsg with
  | INT => intData boxMsg
  | UINT => uintData boxMsg
  | FLOAT => floatData boxMsg
  | DOUBLE => doubleData boxMsg
  | Dtype_unrecognized _ => []
  end.

(** The elements of a tuple or dict message. *)
Definition elements (m : DataContainer) : list DataContainer :=
  match m with
  | kTuple _ l | kDict _ l => l
  | _ => []
  end.

Definition decode_abort (msg : string) : Prop :=
  msg = "Unsupported data type" \/ msg = "Unsupported data container type".

(** How a decoding ends, against [supported]. *)
Definition decodes_as {A : Type} (ok : bool) (r : result A) : Prop :=
  match r with
  | Ok _ => ok = true
  | Abort msg => ok = false /\ decode_abort msg
  | Throw _ => False
  end.

(** A container as the decoder leaves it: well formed, no box with a shape,
    no discrete with a bound. *)
Definition from_wire (c : OpenGymDataContainer) : Prop :=
  wf c /\ received c = c.

End Container.

(** * The gym interface *)

Module Interface.
Import Container.

(** ** Messages

    The generated [messages.pb.h] is not part of the sources; the four
    protocol messages are those of the spec's wire schema, with the
    accessors the interface calls. *)

(** Modelled from the spec: the enum [EnvStateMsg::Reason] of
    [messages.pb.h], `reason?: enum{GameOver, SimulationEnd}`. *)
Inductive Reason : Type := GameOver | SimulationEnd.

(** Modelled from the spec: [ns3penv::SimInitAck] of [messages.pb.h],
    `SimInitAck { done: bool, stopSimRequested: bool }`; [ack_stopsimreq] is
    its [stopsimreq()]. *)
Record SimInitAck : Type := {
  done : bool;
  ack_stopsimreq : bool
}.

(** Modelled from the spec: [ns3penv::EnvActMsg] of [messages.pb.h],
    `EnvAct { actData: DataContainer, stopSimRequested: bool }`. *)
Record EnvActMsg : Type := {
  actdata : DataContainer;
  stopsimreq : bool
}.

(** Modelled from the spec: the py2cpp buffer of [ns3penv-gym-msg.h], which
    is not part of the sources.  What the remote side wrote into it is given
    by what [ParseFromArray] makes of it as either reply message. *)
Record Py2CppStruct : Type := {
  as_SimInitAck : SimInitAck;
  as_EnvActMsg : EnvActMsg
}.

Section Protocol.
(** [spaces.h] and the simulation model are not part of the sources: the
    space objects, their descriptions and the state the callbacks work on
    are left open. *)
Variable OpenGymSpace : Type.
Variable SpaceDescription : Type.
Variable GetSpaceDescription : OpenGymSpace -> SpaceDescription.
Variable Env : Type.

(** Modelled from the spec: [ns3penv::SimInitMsg] of [messages.pb.h],
    `SimInit { obsSpace?: SpaceDescription, actSpace?: SpaceDescription }`. *)
Record SimInitMsg : Type := {
  obsspace : option SpaceDescription;
  actspace : option SpaceDescription
}.

(** Modelled from the spec: [ns3penv::EnvStateMsg] of [messages.pb.h],
    `EnvState { obsData?, reward: float32, isGameOver: bool, reason?, info }`;
    the reward is kept by its bit pattern. *)
Record EnvStateMsg : Type := {
  obsdata : option DataContainer;
  reward : value;
  isgameover : bool;
  reason : option Reason;
  info : string
}.

(** [ByteSizeLong()] of the two messages sent, and the capacity
    [MSG_BUFFER_SIZE] of the transport buffer. *)
Variable SimInitMsg_ByteSizeLong : SimInitMsg -> N.
Variable EnvStateMsg_ByteSizeLong : EnvStateMsg -> N.
Variable MSG_BUFFER_SIZE : N.

Variable numeric_cast : CType -> CType -> value -> value.

(** An ns-3 [Callback<R, Args...>]: [None] is the null callback; a bound
    one runs on the simulation model and may change it, and does not call
    back into the interface. *)
Definition Callback (R : Type) : Type := option (Env -> R * Env).
Definition Callback1 (R A : Type) : Type := option (A -> Env -> R * Env).

Record OpenGymInterface : Type := {
  m_simEnd : bool;
  m_stopEnvRequested : bool;
  m_initSimMsgSent : bool;
  m_envId : N;
  m_actionSpaceCb : Callback (option OpenGymSpace);
  m_observationSpaceCb : Callback (option OpenGymSpace);
  m_gameOverCb : Callback bool;
  m_obsCb : Callback (option OpenGymDataContainer);
  m_rewardCb : Callback value;
  m_extraInfoCb : Callback string;
  m_actionCb : Callback1 bool OpenGymDataContainer
}.

(** [OpenGymInterface(envId)] *)
Definition OpenGymInterface_new (envId : N) : OpenGymInterface :=
  {| m_simEnd := false; m_stopEnvRequested := false;
     m_initSimMsgSent := false; m_envId := envId;
     m_actionSpaceCb := None; m_observationSpaceCb := None;
     m_gameOverCb := None; m_obsCb := None; m_rewardCb := None;
     m_extraInfoCb := None; m_actionCb := None |}.

(** The process: the interface object, the simulation model, and the
    replies the remote side will write, in the order it writes them. *)
Record World : Type := {
  iface : OpenGymInterface;
  env : Env;
  py2cpp : list Py2CppStruct
}.

(** What a run does that can be seen from outside. *)
Inductive Event : Type :=
| SendSimInit (msg : SimInitMsg)
| SendEnvState (msg : EnvStateMsg)
| RecvSimInitAck (ack : SimInitAck)
| RecvEnvAct (act : EnvActMsg)
| ActionCb (action : OpenGymDataContainer)
| Simulator_Stop
| Simulator_Destroy.

(** How a call ends: it returns; the process ends in [std::exit]; it ends
    in an abort or a failed [assert]; or it waits in [CppRecvBegin] for a
    reply that never comes. *)
Inductive outcome (A : Type) : Type :=
| Returned (a : A) (w : World)
| Exited (code : Z) (w : World)
| Aborted (msg : string) (w : World)
| Blocked (w : World).
Arguments Returned {A} a w.
Arguments Exited {A} code w.
Arguments Aborted {A} msg w.
Arguments Blocked {A} w.

Definition world_of {A : Type} (o : outcome A) : World :=
  match o with
  | Returned _ w | Exited _ w | Aborted _ w | Blocked w => w
  end.

(** A piece of C++ code: from a world to the events it causes and how it
    ends. *)
Definition M (A : Type) : Type := World -> list Event * outcome A.

Definition ret {A : Type} (a : A) : M A := fun w => ([], Returned a w).

Definition mbind {A B : Type} (m : M A) (k : A -> M B) : M B :=
  fun w =>
    match m w with
    | (evs, Returned a w') => let (evs', o) := k a w' in (evs ++ evs', o)
    | (evs, Exited code w') => (evs, Exited code w')
    | (evs, Aborted msg w') => (evs, Aborted msg w')
    | (evs, Blocked w') => (evs, Blocked w')
    end.

Notation "x <~ m ;; k" := (mbind m (fun x => k))
  (at level 61, m at next level, right associativity).
Notation "m ;;; k" := (mbind m (fun _ => k))
  (at level 61, right associativity).

Definition emit (e : Event) : M unit := fun w => ([e], Returned tt w).
Definition this : M OpenGymInterface := fun w => ([], Returned (iface w) w).
Definition assign (f : OpenGymInterface -> OpenGymInterface) : M unit :=
  fun w => ([], Returned tt
                  {| iface := f (iface w); env := env w; py2cpp := py2cpp w |}).
Definition std_exit {A : Type} (code : Z) : M A := fun w => ([], Exited code w).
Definition abort {A : Type} (msg : string) : M A := fun w => ([], Aborted msg w).

Definition lift {A : Type} (r : result A) : M A :=
  match r with
  | Ok a => ret a
  | Abort msg => abort msg
  | Throw what => abort what
  end.

(** Running a bound callback on the model. *)
Definition invoke {R : Type} (cb : Env -> R * Env) : M R :=
  fun w =>
    let (r, e) := cb (env w) in
    ([], Returned r {| iface := iface w; env := e; py2cpp := py2cpp w |}).

(** [CppRecvBegin() ... CppRecvEnd()]: takes the remote side's next reply. *)
Definition CppRecv : M Py2CppStruct :=
  fun w =>
    match py2cpp w with
    | [] => ([], Blocked w)
    | buf :: rest =>
        ([], Returned buf {| iface := iface w; env := env w; py2cpp := rest |})
    end.

(** [CppSendBegin(); size = ByteSizeLong(); assert(size <= MSG_BUFFER_SIZE);
    SerializeToArray(...); CppSendEnd()], as a build that keeps assertions
    runs it: a failed assertion aborts the process.  (With [NDEBUG] the
    check is compiled out; no statement below depends on the size
    functions or on the size of the buffer.) *)
Definition CppSend (size : N) (e : Event) : M unit :=
  if (size <=? MSG_BUFFER_SIZE)%N then emit e
  else abort "assert(msgInterface->GetCpp2PyStruct()->size <= MSG_BUFFER_SIZE)".

Definition set_simEnd (b : bool) (i : OpenGymInterface) : OpenGymInterface :=
  {| m_simEnd := b; m_stopEnvRequested := m_stopEnvRequested i;
     m_initSimMsgSent := m_initSimMsgSent i; m_envId := m_envId i;
     m_actionSpaceCb := m_actionSpaceCb i;
     m_observationSpaceCb := m_observationSpaceCb i;
     m_gameOverCb := m_gameOverCb i; m_obsCb := m_obsCb i;
     m_rewardCb := m_rewardCb i; m_extraInfoCb := m_extraInfoCb i;
     m_actionCb := m_actionCb i |}.

Definition set_stopEnvRequested (b : bool) (i : OpenGymInterface)
  : OpenGymInterface :=
  {| m_simEnd := m_simEnd i; m_stopEnvRequested := b;
     m_initSimMsgSent := m_initSimMsgSent i; m_envId := m_envId i;
     m_actionSpaceCb := m_actionSpaceCb i;
     m_observationSpaceCb := m_observationSpaceCb i;
     m_gameOverCb := m_gameOverCb i; m_obsCb := m_obsCb i;
     m_rewardCb := m_rewardCb i; m_extraInfoCb := m_extraInfoCb i;
     m_actionCb := m_actionCb i |}.

Definition set_initSimMsgSent (b : bool) (i : OpenGymInterface)
  : OpenGymInterface :=
  {| m_simEnd := m_simEnd i; m_stopEnvRequested := m_stopEnvRequested i;
     m_initSimMsgSent := b; m_envId := m_envId i;
     m_actionSpaceCb := m_actionSpaceCb i;
     m_observationSpaceCb := m_observationSpaceCb i;
     m_gameOverCb := m_gameOverCb i; m_obsCb := m_obsCb i;
     m_rewardCb := m_rewardCb i; m_extraInfoCb := m_extraInfoCb i;
     m_actionCb := m_actionCb i |}.

(** *** The callback wrappers *)

Definition GetActionSpace : M (option OpenGymSpace) :=
  i <~ this ;;
  match m_actionSpaceCb i with
  | Some cb => invoke cb
  | None => ret None
  end.

Definition GetObservationSpace : M (option OpenGymSpace) :=
  i <~ this ;;
  match m_observationSpaceCb i with
  | Some cb => invoke cb
  | None => ret None
  end.

Definition GetObservation : M (option OpenGymDataContainer) :=
  i <~ this ;;
  match m_obsCb i with
  | Some cb => invoke cb
  | None => ret None
  end.

Definition GetReward : M value :=
  i <~ this ;;
  match m_rewardCb i with
  | Some cb => invoke cb
  | None => ret 0%Z
  end.

Definition IsGameOver : M bool :=
  i <~ this ;;
  gameOver <~ match m_gameOverCb i with
              | Some cb => invoke cb
              | None => ret false
              end ;;
  ret (gameOver || m_simEnd i).

Definition GetExtraInfo : M string :=
  i <~ this ;;
  match m_extraInfoCb i with
  | Some cb => invoke cb
  | None => ret ""
  end.

Definition ExecuteActions (action : OpenGymDataContainer) : M bool :=
  i <~ this ;;
  match m_actionCb i with
  | Some cb => emit (ActionCb action) ;;; invoke (cb action)
  | None => ret false
  end.

(** *** The protocol *)

Definition Init : M unit :=
  i <~ this ;;
  if m_initSimMsgSent i then ret tt
  else
    assign (set_initSimMsgSent true) ;;;
    obsSpace <~ GetObservationSpace ;;
    actionSpace <~ GetActionSpace ;;
    let simInitMsg :=
      {| obsspace := option_map GetSpaceDescription obsSpace;
         actspace := option_map GetSpaceDescription actionSpace |} in
    CppSend (SimInitMsg_ByteSizeLong simInitMsg) (SendSimInit simInitMsg) ;;;
    buf <~ CppRecv ;;
    let simInitAck := as_SimInitAck buf in
    emit (RecvSimInitAck simInitAck) ;;;
    let stopSim := ack_stopsimreq simInitAck in
    if stopSim then
      assign (set_stopEnvRequested true) ;;;
      emit Simulator_Stop ;;;
      emit Simulator_Destroy ;;;
      std_exit 0
    else ret tt.

Definition NotifyCurrentState : M unit :=
  i <~ this ;;
  (if negb (m_initSimMsgSent i) then Init else ret tt) ;;;
  i <~ this ;;
  if m_stopEnvRequested i then ret tt
  else
    obsDataContainer <~ GetObservation ;;
    reward <~ GetReward ;;
    isGameOver <~ IsGameOver ;;
    extraInfo <~ GetExtraInfo ;;
    obsdata <~ match obsDataContainer with
               | Some c =>
                   obsDataContainerPbMsg
                     <~ lift (GetDataContainerPbMsg numeric_cast c) ;;
                   ret (Some obsDataContainerPbMsg)
               | None => ret None
               end ;;
    let envStateMsg :=
      {| obsdata := obsdata; reward := reward; isgameover := isGameOver;
         reason := if isGameOver
                   then Some (if m_simEnd i then SimulationEnd else GameOver)
                   else None;
         info := extraInfo |} in
    CppSend (EnvStateMsg_ByteSizeLong envStateMsg) (SendEnvState envStateMsg) ;;;
    buf <~ CppRecv ;;
    let envActMsg := as_EnvActMsg buf in
    emit (RecvEnvAct envActMsg) ;;;
    if m_simEnd i then ret tt
    else
      let stopSim := stopsimreq envActMsg in
      if stopSim then
        assign (set_stopEnvRequested true) ;;;
        emit Simulator_Stop ;;;
        emit Simulator_Destroy ;;;
        std_exit 0
      else
        actDataContainer
          <~ lift (CreateFromDataContainerPbMsg (actdata envActMsg)) ;;
        _ <~ ExecuteActions actDataContainer ;;
        ret tt.

Definition WaitForStop : M unit := NotifyCurrentState.

Definition NotifySimulationEnd : M unit :=
  assign (set_simEnd true) ;;;
  i <~ this ;;
  if m_initSimMsgSent i then WaitForStop else ret tt.
(** *** The halves of [NotifyCurrentState]

    The function after its first statement (the handshake, if it is still
    due), for stating what the exchange does. *)
Definition NotifyCurrentState_exchange : M unit :=
  i <~ this ;;
  if m_stopEnvRequested i then ret tt
  else
    obsDataContainer <~ GetObservation ;;
    reward <~ GetReward ;;
    isGameOver <~ IsGameOver ;;
    extraInfo <~ GetExtraInfo ;;
    obsdata <~ match obsDataContainer with
               | Some c =>
                   obsDataContainerPbMsg
                     <~ lift (GetDataContainerPbMsg numeric_cast c) ;;
                   ret (Some obsDataContainerPbMsg)
               | None => ret None
               end ;;
    let envStateMsg :=
      {| obsdata := obsdata; reward := reward; isgameover := isGameOver;
         reason := if isGameOver
                   then Some (if m_simEnd i then SimulationEnd else GameOver)
                   else None;
         info := extraInfo |} in
    CppSend (EnvStateMsg_ByteSizeLong envStateMsg) (SendEnvState envStateMsg) ;;;
    buf <~ CppRecv ;;
    let envActMsg := as_EnvActMsg buf in
    emit (RecvEnvAct envActMsg) ;;;
    if m_simEnd i then ret tt
    else
      let stopSim := stopsimreq envActMsg in
      if stopSim then
        assign (set_stopEnvRequested true) ;;;
        emit Simulator_Stop ;;;
        emit Simulator_Destroy ;;;
        std_exit 0
      else
        actDataContainer
          <~ lift (CreateFromDataContainerPbMsg (actdata envActMsg)) ;;
        _ <~ ExecuteActions actDataContainer ;;
        ret tt.

(** The observation field of the state message: the encoding of the
    observation, if there is one. *)
Definition encode_observation (obsDataContainer : option OpenGymDataContainer)
  : result (option DataContainer) :=
  match obsDataContainer with
  | Some c =>
      match GetDataContainerPbMsg numeric_cast c with
      | Ok obsDataContainerPbMsg => Ok (Some obsDataContainerPbMsg)
      | Abort msg => Abort msg
      | Throw what => Throw what
      end
  | None => Ok None
  end.

Definition is_Aborted {A : Type} (o : outcome A) : bool :=
  match o with Aborted _ _ => true | _ => false end.

(** In a trace, every state message comes after the handshake that opens
    the trace: the init message and its acknowledgement. *)
Definition handshake_first (tr : list Event) : Prop :=
  forall pre msg post,
    tr = pre ++ SendEnvState msg :: post ->
    exists init ack pre',
      pre = SendSimInit init :: RecvSimInitAck ack :: pre'.

(** *** What a call can amount to

    The ways [Init] and the exchange end, with the events of each. *)

Definition with_env (e : Env) (w : World) : World :=
  {| iface := iface w; env := e; py2cpp := py2cpp w |}.

(** A callback wrapper: no event, no change but to the simulation model. *)
Definition quiet {A : Type} (m : M A) : Prop :=
  forall w, exists a e, m w = ([], Returned a (with_env e w)).

Definition assert_size : string :=
  "assert(msgInterface->GetCpp2PyStruct()->size <= MSG_BUFFER_SIZE)".

Inductive Init_result (w : World) : list Event -> outcome unit -> Prop :=
| Init_noop :
    m_initSimMsgSent (iface w) = true ->
    Init_result w [] (Returned tt w)
| Init_too_large e :
    m_initSimMsgSent (iface w) = false ->
    Init_result w []
      (Aborted assert_size
         {| iface := set_initSimMsgSent true (iface w);
            env := e; py2cpp := py2cpp w |})
| Init_blocked e msg :
    m_initSimMsgSent (iface w) = false ->
    py2cpp w = [] ->
    Init_result w [SendSimInit msg]
      (Blocked {| iface := set_initSimMsgSent true (iface w);
                  env := e; py2cpp := [] |})
| Init_stop e msg buf rest :
    m_initSimMsgSent (iface w) = false ->
    py2cpp w = buf :: rest ->
    ack_stopsimreq (as_SimInitAck buf) = true ->
    Init_result w
      [SendSimInit msg; RecvSimInitAck (as_SimInitAck buf);
       Simulator_Stop; Simulator_Destroy]
      (Exited 0
         {| iface := set_stopEnvRequested true
                       (set_initSimMsgSent true (iface w));
            env := e; py2cpp := rest |})
| Init_done e msg buf rest :
    m_initSimMsgSent (iface w) = false ->
    py2cpp w = buf :: rest ->
    ack_stopsimreq (as_SimInitAck buf) = false ->
    Init_result w
      [SendSimInit msg; RecvSimInitAck (as_SimInitAck buf)]
      (Returned tt
         {| iface := set_initSimMsgSent true (iface w);
            env := e; py2cpp := rest |}).

Inductive exchange_result (w : World) : list Event -> outcome unit -> Prop :=
| exchange_stopped :
    m_stopEnvRequested (iface w) = true ->
    exchange_result w [] (Returned tt w)
| exchange_abort e msg :
    m_stopEnvRequested (iface w) = false ->
    exchange_result w [] (Aborted msg (with_env e w))
| exchange_blocked e msg :
    m_stopEnvRequested (iface w) = false ->
    py2cpp w = [] ->
    exchange_result w [SendEnvState msg] (Blocked (with_env e w))
| exchange_simEnd e msg buf rest :
    m_stopEnvRequested (iface w) = false ->
    m_simEnd (iface w) = true ->
    py2cpp w = buf :: rest ->
    isgameover msg = true ->
    reason msg = Some SimulationEnd ->
    exchange_result w
      [SendEnvState msg; RecvEnvAct (as_EnvActMsg buf)]
      (Returned tt {| iface := iface w; env := e; py2cpp := rest |})
| exchange_stop e msg buf rest :
    m_stopEnvRequested (iface w) = false ->
    m_simEnd (iface w) = false ->
    py2cpp w = buf :: rest ->
    stopsimreq (as_EnvActMsg buf) = true ->
    exchange_result w
      [SendEnvState msg; RecvEnvAct (as_EnvActMsg buf);
       Simulator_Stop; Simulator_Destroy]
      (Exited 0 {| iface := set_stopEnvRequested true (iface w);
                   env := e; py2cpp := rest |})
| exchange_bad_action e msg buf rest what :
    m_stopEnvRequested (iface w) = false ->
    m_simEnd (iface w) = false ->
    py2cpp w = buf :: rest ->
    stopsimreq (as_EnvActMsg buf) = false ->
    exchange_result w
      [SendEnvState msg; RecvEnvAct (as_EnvActMsg buf)]
      (Aborted what {| iface := iface w; env := e; py2cpp := rest |})
| exchange_no_callback e msg buf rest :
    m_stopEnvRequested (iface w) = false ->
    m_simEnd (iface w) = false ->
    py2cpp w = buf :: rest ->
    stopsimreq (as_EnvActMsg buf) = false ->
    m_actionCb (iface w) = None ->
    exchange_result w
      [SendEnvState msg; RecvEnvAct (as_EnvActMsg buf)]
      (Returned tt {| iface := iface w; env := e; py2cpp := rest |})
| exchange_action e msg buf rest action :
    m_stopEnvRequested (iface w) = false ->
    m_simEnd (iface w) = false ->
    py2cpp w = buf :: rest ->
    stopsimreq (as_EnvActMsg buf) = false ->
    CreateFromDataContainerPbMsg (actdata (as_EnvActMsg buf)) = Ok action ->
    exchange_result w
      [SendEnvState msg; RecvEnvAct (as_EnvActMsg buf); ActionCb action]
      (Returned tt {| iface := iface w; env := e; py2cpp := rest |}).

(** [NotifyCurrentState]: the exchange, after [Init] if that is still due
    and returns. *)
Inductive NotifyCurrentState_result (w : World)
  : list Event -> outcome unit -> Prop :=
| Notify_exchange evs o :
    m_initSimMsgSent (iface w) = true ->
    exchange_result w evs o ->
    NotifyCurrentState_result w evs o
| Notify_Init_ends evs o :
    m_initSimMsgSent (iface w) = false ->
    Init_result w evs o ->
    (forall w1, o <> Returned tt w1) ->
    NotifyCurrentState_result w evs o
| Notify_Init_exchange evs1 w1 evs2 o :
    m_initSimMsgSent (iface w) = false ->
    Init_result w evs1 (Returned tt w1) ->
    exchange_result w1 evs2 o ->
    NotifyCurrentState_result w (evs1 ++ evs2) o.

(** Two worlds that differ at most in the bound callbacks and in the flag
    for the end of the simulation, which is not taken back. *)
Definition same_protocol_state (w w' : World) : Prop :=
  m_initSimMsgSent (iface w') = m_initSimMsgSent (iface w)
  /\ m_stopEnvRequested (iface w') = m_stopEnvRequested (iface w)
  /\ py2cpp w' = py2cpp w
  /\ (m_simEnd (iface w) = true -> m_simEnd (iface w') = true).

(** A trace that opens with the handshake, as far as it got. *)
Definition opens_with_handshake (tr : list Event) : Prop :=
  tr = []
  \/ (exists init, tr = [SendSimInit init])
  \/ (exists init ack rest,
         tr = SendSimInit init :: RecvSimInitAck ack :: rest).

(** *** Binding the callbacks *)

Definition with_callbacks
  (actionSpaceCb observationSpaceCb : Callback (option OpenGymSpace))
  (gameOverCb : Callback bool) (obsCb : Callback (option OpenGymDataContainer))
  (rewardCb : Callback value) (extraInfoCb : Callback string)
  (actionCb : Callback1 bool OpenGymDataContainer)
  (i : OpenGymInterface) : OpenGymInterface :=
  {| m_simEnd := m_simEnd i; m_stopEnvRequested := m_stopEnvRequested i;
     m_initSimMsgSent := m_initSimMsgSent i; m_envId := m_envId i;
     m_actionSpaceCb := actionSpaceCb;
     m_observationSpaceCb := observationSpaceCb;
     m_gameOverCb := gameOverCb; m_obsCb := obsCb;
     m_rewardCb := rewardCb; m_extraInfoCb := extraInfoCb;
     m_actionCb := actionCb |}.

Definition SetGetActionSpaceCb (cb : Callback (option OpenGymSpace)) : M unit :=
  assign (fun i => with_callbacks cb (m_observationSpaceCb i) (m_gameOverCb i)
                     (m_obsCb i) (m_rewardCb i) (m_extraInfoCb i) (m_actionCb i) i).

Definition SetGetObservationSpaceCb (cb : Callback (option OpenGymSpace))
  : M unit :=
  assign (fun i => with_callbacks (m_actionSpaceCb i) cb (m_gameOverCb i)
                     (m_obsCb i) (m_rewardCb i) (m_extraInfoCb i) (m_actionCb i) i).

Definition SetGetGameOverCb (cb : Callback bool) : M unit :=
  assign (fun i => with_callbacks (m_actionSpaceCb i) (m_observationSpaceCb i) cb
                     (m_obsCb i) (m_rewardCb i) (m_extraInfoCb i) (m_actionCb i) i).

Definition SetGetObservationCb (cb : Callback (option OpenGymDataContainer))
  : M unit :=
  assign (fun i => with_callbacks (m_actionSpaceCb i) (m_observationSpaceCb i)
                     (m_gameOverCb i) cb (m_rewardCb i) (m_extraInfoCb i)
                     (m_actionCb i) i).

Definition SetGetRewardCb (cb : Callback value) : M unit :=
  assign (fun i => with_callbacks (m_actionSpaceCb i) (m_observationSpaceCb i)
                     (m_gameOverCb i) (m_obsCb i) cb (m_extraInfoCb i)
                     (m_actionCb i) i).

Definition SetGetExtraInfoCb (cb : Callback string) : M unit :=
  assign (fun i => with_callbacks (m_actionSpaceCb i) (m_observationSpaceCb i)
                     (m_gameOverCb i) (m_obsCb i) (m_rewardCb i) cb
                     (m_actionCb i) i).

Definition SetExecuteActionsCb (cb : Callback1 bool OpenGymDataContainer)
  : M unit :=
  assign (fun i => with_callbacks (m_actionSpaceCb i) (m_observationSpaceCb i)
                     (m_gameOverCb i) (m_obsCb i) (m_rewardCb i)
                     (m_extraInfoCb i) cb i).

(** Modelled from the spec: [ns3penv-gym-env.h] is not part of the sources;
    an [OpenGymEnv] is the environment object whose five methods [Notify]
    binds. *)
Record OpenGymEnv : Type := {
  Env_GetGameOver : Env -> bool * Env;
  Env_GetObservation : Env -> option OpenGymDataContainer * Env;
  Env_GetReward : Env -> value * Env;
  Env_GetExtraInfo : Env -> string * Env;
  Env_ExecuteActions : OpenGymDataContainer -> Env -> bool * Env
}.

Definition Notify (entity : OpenGymEnv) : M unit :=
  SetGetGameOverCb (Some (Env_GetGameOver entity)) ;;;
  SetGetObservationCb (Some (Env_GetObservation entity)) ;;;
  SetGetRewardCb (Some (Env_GetReward entity)) ;;;
  SetGetExtraInfoCb (Some (Env_GetExtraInfo entity)) ;;;
  SetExecuteActionsCb (Some (Env_ExecuteActions entity)) ;;;
  NotifyCurrentState.

(** *** Executions

    What the rest of the program can do with the interface: its public
    methods, in any order. *)
Inductive Call : Type :=
| call_Init
| call_NotifyCurrentState
| call_WaitForStop
| call_NotifySimulationEnd
| call_Notify (entity : OpenGymEnv)
| call_SetGetActionSpaceCb (cb : Callback (option OpenGymSpace))
| call_SetGetObservationSpaceCb (cb : Callback (option OpenGymSpace))
| call_SetGetGameOverCb (cb : Callback bool)
| call_SetGetObservationCb (cb : Callback (option OpenGymDataContainer))
| call_SetGetRewardCb (cb : Callback value)
| call_SetGetExtraInfoCb (cb : Callback string)
| call_SetExecuteActionsCb (cb : Callback1 bool OpenGymDataContainer).

Definition perform (c : Call) : M unit :=
  match c with
  | call_Init => Init
  | call_NotifyCurrentState => NotifyCurrentState
  | call_WaitForStop => WaitForStop
  | call_NotifySimulationEnd => NotifySimulationEnd
  | call_Notify entity => Notify entity
  | call_SetGetActionSpaceCb cb => SetGetActionSpaceCb cb
  | call_SetGetObservationSpaceCb cb => SetGetObservationSpaceCb cb
  | call_SetGetGameOverCb cb => SetGetGameOverCb cb
  | call_SetGetObservationCb cb => SetGetObservationCb cb
  | call_SetGetRewardCb cb => SetGetRewardCb cb
  | call_SetGetExtraInfoCb cb => SetGetExtraInfoCb cb
  | call_SetExecuteActionsCb cb => SetExecuteActionsCb cb
  end.

(** The calls of a run, one after the other, for as long as the process
    lives. *)
Fixpoint run (calls : list Call) : M unit :=
  match calls with
  | [] => ret tt
  | c :: rest => perform c ;;; run rest
  end.

(** The process right after the interface is created. *)
Definition start (envId : N) (e : Env) (replies : list Py2CppStruct) : World :=
  {| iface := OpenGymInterface_new envId; env := e; py2cpp := replies |}.

(** *** Reading a trace *)

Definition is_SendSimInit (e : Event) : bool :=
  match e with SendSimInit _ => true | _ => false end.

Definition is_Recv (e : Event) : bool :=
  match e with RecvSimInitAck _ | RecvEnvAct _ => true | _ => false end.

Definition is_ActionCb (e : Event) : bool :=
  match e with ActionCb _ => true | _ => false end.

Definition count (p : Event -> bool) (tr : list Event) : nat :=
  List.length (List.filter p tr).

(** A reply that carries [stopSimRequested = true]. *)
Definition is_stop_reply (e : Event) : bool :=
  match e with
  | RecvSimInitAck ack => ack_stopsimreq ack
  | RecvEnvAct act => stopsimreq act
  | _ => false
  end.
(** *** The transport seen from a trace *)

(** Where the rendezvous stands: no message in flight, an init message or a
    state message waiting for its reply, or an event out of step. *)
Inductive Channel : Type := Idle | AwaitAck | AwaitAct | OutOfStep.

Definition channel_step (s : Channel) (e : Event) : Channel :=
  match s, e with
  | Idle, SendSimInit _ => AwaitAck
  | Idle, SendEnvState _ => AwaitAct
  | AwaitAck, RecvSimInitAck _ => Idle
  | AwaitAct, RecvEnvAct _ => Idle
  | Idle, (ActionCb _ | Simulator_Stop | Simulator_Destroy) => Idle
  | _, _ => OutOfStep
  end.

Definition channel_after (tr : list Event) : Channel :=
  fold_left channel_step tr Idle.

Definition is_Blocked {A : Type} (o : outcome A) : bool :=
  match o with Blocked _ => true | _ => false end.

(** A receive event that shows the given reply, as the one or the other
    message. *)
Definition shows_reply (e : Event) (buf : Py2CppStruct) : Prop :=
  e = RecvSimInitAck (as_SimInitAck buf) \/ e = RecvEnvAct (as_EnvActMsg buf).

Definition is_shutdown (e : Event) : bool :=
  match e with Simulator_Stop | Simulator_Destroy => true | _ => false end.

(** In a trace, every run of the action callback comes right after an action
    message that does not ask to stop, on the container that message
    decodes to. *)
Definition action_after_reply (tr : list Event) : Prop :=
  forall pre action post,
    tr = pre ++ ActionCb action :: post ->
    exists pre' act,
      pre = pre' ++ [RecvEnvAct act]
      /\ stopsimreq act = false
      /\ CreateFromDataContainerPbMsg (actdata act) = Ok action.

(** How the stop flag and the shutdown of the simulator go with the way a
    run ends. *)
Definition shutdown_only_on_exit (tr : list Event) (o : outcome unit) : Prop :=
  match o with
  | Exited code w' =>
      code = 0%Z
      /\ m_stopEnvRequested (iface w') = true
      /\ exists pre e,
          tr = pre ++ [e; Simulator_Stop; Simulator_Destroy]
          /\ is_stop_reply e = true
          /\ forallb (fun e => negb (is_shutdown e)) pre = true
  | Returned _ w' | Aborted _ w' | Blocked w' =>
      m_stopEnvRequested (iface w') = false
      /\ forallb (fun e => negb (is_shutdown e)) tr = true
  end.

(** The replies a run took from the transport. *)
Definition replies_in_order (w : World) (tr : list Event) (o : outcome unit)
  : Prop :=
  exists consumed,
    py2cpp w = consumed ++ py2cpp (world_of o)
    /\ Forall2 shows_reply (filter is_Recv tr) consumed
    /\ (is_Blocked o = true -> py2cpp (world_of o) = []).

Definition rendezvous_in_step (tr : list Event) (o : outcome unit) : Prop :=
  if is_Blocked o
  then channel_after tr = AwaitAck \/ channel_after tr = AwaitAct
  else channel_after tr = Idle.


(** *** The names of the transport

    The constructor gives the message interface the names of the shared
    segment, of the two buffers and of the lock, each with the environment
    id at its end, and three settings.  [ns3penv-msg-interface.h] is not
    part of the sources: what [SetNames] and the three setters are given
    is kept as a record. *)
Record MsgInterfaceSettings : Type := {
  segName : string;
  cpp2pyName : string;
  py2cppName : string;
  lockableName : string;
  isMemoryCreator : bool;
  useVector : bool;
  handleFinish : bool
}.

Definition OpenGymInterface_settings (envId : N) : MsgInterfaceSettings :=
  {| segName := "seg" ++ to_string_unsigned envId;
     cpp2pyName := "cpp2py" ++ to_string_unsigned envId;
     py2cppName := "py2cpp" ++ to_string_unsigned envId;
     lockableName := "lockable" ++ to_string_unsigned envId;
     isMemoryCreator := false;
     useVector := false;
     handleFinish := false |}.

Definition names (s : MsgInterfaceSettings) : list string :=
  [segName s; cpp2pyName s; py2cppName s; lockableName s].

End Protocol.

Arguments Returned {OpenGymSpace Env A} a w.
Arguments Exited {OpenGymSpace Env A} code w.
Arguments Aborted {OpenGymSpace Env A} msg w.
Arguments Blocked {OpenGymSpace Env A} w.
Arguments world_of {OpenGymSpace Env A} o.
Arguments iface {OpenGymSpace Env} w.
Arguments env {OpenGymSpace Env} w.
Arguments py2cpp {OpenGymSpace Env} w.
Arguments Build_World {OpenGymSpace Env} iface env py2cpp.
Arguments m_simEnd {OpenGymSpace Env} o.
Arguments m_stopEnvRequested {OpenGymSpace Env} o.
Arguments m_initSimMsgSent {OpenGymSpace Env} o.
Arguments m_actionCb {OpenGymSpace Env} o.
Arguments set_simEnd {OpenGymSpace Env} b i.
Arguments set_stopEnvRequested {OpenGymSpace Env} b i.
Arguments set_initSimMsgSent {OpenGymSpace Env} b i.
Arguments SendSimInit {SpaceDescription} msg.
Arguments SendEnvState {SpaceDescription} msg.
Arguments RecvSimInitAck {SpaceDescription} ack.
Arguments RecvEnvAct {SpaceDescription} act.
Arguments ActionCb {SpaceDescription} action.
Arguments Simulator_Stop {SpaceDescription}.
Arguments Simulator_Destroy {SpaceDescription}.
Arguments is_ActionCb {SpaceDescription} e.
Arguments is_SendSimInit {SpaceDescription} e.
Arguments is_Recv {SpaceDescription} e.
Arguments is_stop_reply {SpaceDescription} e.
Arguments count {SpaceDescription} p tr.
Arguments is_Aborted {OpenGymSpace Env A} o.
Arguments with_env {OpenGymSpace Env} e w.
Arguments opens_with_handshake {SpaceDescription} tr.
Arguments same_protocol_state {OpenGymSpace Env} w w'.
Arguments handshake_first {SpaceDescription} tr.
Arguments NotifyCurrentState_exchange {OpenGymSpace SpaceDescription Env}
  EnvStateMsg_ByteSizeLong MSG_BUFFER_SIZE numeric_cast _.
Arguments start {OpenGymSpace Env} envId e replies.
Arguments obsspace {SpaceDescription} s.
Arguments actspace {SpaceDescription} s.
Arguments GetObservation {OpenGymSpace SpaceDescription Env} _.
Arguments GetReward {OpenGymSpace SpaceDescription Env} _.
Arguments IsGameOver {OpenGymSpace SpaceDescription Env} _.
Arguments GetExtraInfo {OpenGymSpace SpaceDescription Env} _.
Arguments GetObservationSpace {OpenGymSpace SpaceDescription Env} _.
Arguments GetActionSpace {OpenGymSpace SpaceDescription Env} _.
Arguments ExecuteActions {OpenGymSpace SpaceDescription Env} action _.
Arguments Init {OpenGymSpace SpaceDescription} GetSpaceDescription {Env}
  SimInitMsg_ByteSizeLong MSG_BUFFER_SIZE _.
Arguments NotifyCurrentState {OpenGymSpace SpaceDescription} GetSpaceDescription
  {Env} SimInitMsg_ByteSizeLong EnvStateMsg_ByteSizeLong MSG_BUFFER_SIZE
  numeric_cast _.
Arguments WaitForStop {OpenGymSpace SpaceDescription} GetSpaceDescription
  {Env} SimInitMsg_ByteSizeLong EnvStateMsg_ByteSizeLong MSG_BUFFER_SIZE
  numeric_cast _.
Arguments NotifySimulationEnd {OpenGymSpace SpaceDescription} GetSpaceDescription
  {Env} SimInitMsg_ByteSizeLong EnvStateMsg_ByteSizeLong MSG_BUFFER_SIZE
  numeric_cast _.
Arguments Notify {OpenGymSpace SpaceDescription} GetSpaceDescription
  {Env} SimInitMsg_ByteSizeLong EnvStateMsg_ByteSizeLong MSG_BUFFER_SIZE
  numeric_cast entity _.
Arguments perform {OpenGymSpace SpaceDescription} GetSpaceDescription
  {Env} SimInitMsg_ByteSizeLong EnvStateMsg_ByteSizeLong MSG_BUFFER_SIZE
  numeric_cast c _.
Arguments run {OpenGymSpace SpaceDescription} GetSpaceDescription
  {Env} SimInitMsg_ByteSizeLong EnvStateMsg_ByteSizeLong MSG_BUFFER_SIZE
  numeric_cast calls _.
Arguments channel_after {SpaceDescription} tr.
Arguments is_Blocked {OpenGymSpace Env A} o.
Arguments shows_reply {SpaceDescription} e buf.
Arguments is_shutdown {SpaceDescription} e.
Arguments action_after_reply {SpaceDescription} tr.
Arguments shutdown_only_on_exit {OpenGymSpace SpaceDescription Env} tr o.
Arguments replies_in_order {OpenGymSpace SpaceDescription Env} w tr o.
Arguments rendezvous_in_step {OpenGymSpace SpaceDescription Env} tr o.
Arguments m_observationSpaceCb {OpenGymSpace Env} o.
Arguments m_actionSpaceCb {OpenGymSpace Env} o.
Arguments m_gameOverCb {OpenGymSpace Env} o.
Arguments m_obsCb {OpenGymSpace Env} o.
Arguments m_rewardCb {OpenGymSpace Env} o.
Arguments m_extraInfoCb {OpenGymSpace Env} o.
End Interface.

(** ** A sample environment

    A simulation model that counts the actions applied to it, with the
    example observation, a reward of [1.0] and no game over of its own; a
    transport that takes any message; and replies of the remote side with
    and without the stop request. *)

Module Sample.
Import Container Interface.

Definition Space : Type := unit.
Definition describe (s : Space) : Space := s.
Definition SimInit_size (msg : SimInitMsg Space) : N := 16.
Definition EnvState_size (msg : EnvStateMsg) : N := 64.
Definition BUFFER_SIZE : N := 1024.

Definition entity : OpenGymEnv nat :=
  {| Env_GetGameOver := fun e => (false, e);
     Env_GetObservation := fun e => (Some observation, e);
     Env_GetReward := fun e => (1065353216%Z, e);
     Env_GetExtraInfo := fun e => ("", e);
     Env_ExecuteActions := fun _ e => (true, S e) |}.

Definition observation_msg : DataContainer :=
  kDict ""
    [kDiscrete "n" 3;
     kTuple "pos"
       [kBox "" {| shape := []; dtype := FLOAT; intData := []; uintData := [];
                   floatData := pos_data; doubleData := [] |};
        kDiscrete "" 3]].

Definition reply (stop : bool) : Py2CppStruct :=
  {| as_SimInitAck := {| done := true; ack_stopsimreq := stop |};
     as_EnvActMsg := {| actdata := kDiscrete "" 1; stopsimreq := stop |} |}.

(** The interface with the callbacks of [entity] bound. *)
Definition bound (simEnd initSimMsgSent : bool) : OpenGymInterface Space nat :=
  {| m_simEnd := simEnd; m_stopEnvRequested := false;
     m_initSimMsgSent := initSimMsgSent; m_envId := 0;
     m_actionSpaceCb := None; m_observationSpaceCb := None;
     m_gameOverCb := Some (Env_GetGameOver nat entity);
     m_obsCb := Some (Env_GetObservation nat entity);
     m_rewardCb := Some (Env_GetReward nat entity);
     m_extraInfoCb := Some (Env_GetExtraInfo nat entity);
     m_actionCb := Some (Env_ExecuteActions nat entity) |}.

Definition world (simEnd initSimMsgSent : bool) (replies : list Py2CppStruct)
  : World Space nat :=
  {| iface := bound simEnd initSimMsgSent; env := 0%nat; py2cpp := replies |}.

Definition terminal_state : EnvStateMsg :=
  {| obsdata := Some observation_msg; reward := 1065353216%Z;
     isgameover := true; reason := Some SimulationEnd; info := "" |}.

Definition sample_Init := Init describe SimInit_size BUFFER_SIZE (Env := nat).
Definition sample_NotifyCurrentState :=
  NotifyCurrentState describe SimInit_size EnvState_size BUFFER_SIZE
    cast_unused (Env := nat).
Definition sample_perform :=
  perform describe SimInit_size EnvState_size BUFFER_SIZE cast_unused
    (Env := nat).
Definition sample_run :=
  run describe SimInit_size EnvState_size BUFFER_SIZE cast_unused (Env := nat).
End Sample.

(** * Properties *)

Lemma bind_Ok {A B : Type} (r : result A) (k : A -> result B) (b : B) :
  bind r k = Ok b -> exists a, r = Ok a /\ k a = Ok b.
Proof.
  destruct r as [a | msg | what]; simpl; intros H; try discriminate.
  exists a; split; [reflexivity | exact H].
Qed.

(** ** The key order of [std::map] *)

Module StdMapFacts.
Import StdMap.

Lemma compare_refl (k : string) : String.compare k k = Eq.
Proof. apply String_as_OT.cmp_eq. reflexivity. Qed.

Lemma compare_Eq (a b : string) : String.compare a b = Eq -> a = b.
Proof. apply String_as_OT.cmp_eq. Qed.

Lemma lt_Gt (a b : string) : lt a b -> String.compare b a = Gt.
Proof.
  unfold lt; intros H. rewrite String.compare_antisym, H. reflexivity.
Qed.

Lemma Gt_lt (a b : string) : String.compare a b = Gt -> lt b a.
Proof.
  unfold lt; intros H. rewrite String.compare_antisym, H. reflexivity.
Qed.

Lemma lt_trans (a b c : string) : lt a b -> lt b c -> lt a c.
Proof.
  unfold lt. intros H1 H2.
  apply String_as_OT.cmp_lt in H1. apply String_as_OT.cmp_lt in H2.
  apply String_as_OT.cmp_lt. eapply String_as_OT.lt_trans; eassumption.
Qed.

Lemma lt_irrefl (a : string) : ~ lt a a.
Proof. unfold lt. rewrite compare_refl. discriminate. Qed.

Section Facts.
Context {V : Type}.
Implicit Types (m : StdMap.t V) (k : string) (v : V).

Lemma ordered_cons_inv k v m :
  ordered ((k, v) :: m) -> ordered m /\ Forall (lt k) (keys m).
Proof. unfold ordered; simpl. apply StronglySorted_inv. Qed.

Lemma ordered_cons k v m :
  ordered m -> Forall (lt k) (keys m) -> ordered ((k, v) :: m).
Proof. unfold ordered; simpl. intros; constructor; assumption. Qed.

(** A key below every key of the map is not found. *)
Lemma find_below k m :
  Forall (fun k' => lt k k') (keys m) -> find k m = None.
Proof.
  destruct m as [| [k' v'] rest]; simpl; intros H; [reflexivity |].
  inversion H as [| ? ? Hk _]; subst. unfold lt in Hk. rewrite Hk. reflexivity.
Qed.

Lemma keys_insert k v m :
  forall k', In k' (keys (insert k v m)) <-> k' = k \/ In k' (keys m).
Proof.
  induction m as [| [k0 v0] rest IH]; simpl; intros k'.
  - intuition.
  - destruct (String.compare k k0) eqn:C; simpl.
    + apply compare_Eq in C; subst. intuition.
    + intuition.
    + rewrite IH. intuition.
Qed.

(** [insert] keeps the keys in order. *)
Lemma insert_ordered k v m : ordered m -> ordered (insert k v m).
Proof.
  induction m as [| [k0 v0] rest IH]; simpl; intros Hm.
  - apply ordered_cons; [exact Hm | constructor].
  - destruct (ordered_cons_inv _ _ _ Hm) as [Hrest Hall].
    destruct (String.compare k k0) eqn:C.
    + exact Hm.
    + apply ordered_cons; [exact Hm |].
      simpl; constructor; [exact C |].
      eapply Forall_impl; [| exact Hall].
      intros k' Hk'. eapply lt_trans; [exact C | exact Hk'].
    + apply ordered_cons; [apply IH; exact Hrest |].
      apply Forall_forall. intros k' Hin.
      apply keys_insert in Hin. destruct Hin as [-> | Hin].
      * apply Gt_lt; exact C.
      * rewrite Forall_forall in Hall. apply Hall; exact Hin.
Qed.

(** A key that is found keeps its value through [insert]. *)
Lemma insert_found k v old m : find k m = Some old -> insert k v m = m.
Proof.
  induction m as [| [k0 v0] rest IH]; simpl; [discriminate |].
  destruct (String.compare k k0); intros H.
  - reflexivity.
  - discriminate.
  - rewrite (IH H). reflexivity.
Qed.

(** A key that is not among the keys is not found. *)
Lemma find_absent k m : ~ In k (keys m) -> find k m = None.
Proof.
  induction m as [| [k0 v0] rest IH]; simpl; intros H; [reflexivity |].
  destruct (String.compare k k0) eqn:C.
  - apply compare_Eq in C. subst. exfalso. apply H. left; reflexivity.
  - reflexivity.
  - apply IH. intros Hin. apply H. right; exact Hin.
Qed.

(** In an ordered map an entry is found under its key. *)
Lemma find_entry k v m : ordered m -> In (k, v) m -> find k m = Some v.
Proof.
  induction m as [| [k0 v0] rest IH]; simpl; intros Hm Hin; [contradiction |].
  destruct (ordered_cons_inv _ _ _ Hm) as [Hrest Hall].
  destruct Hin as [E | Hin].
  - inversion E; subst. rewrite compare_refl. reflexivity.
  - assert (Hlt : lt k0 k).
    { rewrite Forall_forall in Hall. apply Hall.
      unfold keys. apply in_map_iff. exists (k, v). split; [reflexivity | exact Hin]. }
    rewrite (lt_Gt _ _ Hlt). apply IH; assumption.
Qed.

(** Two ordered maps that bind the same keys to the same values hold the
    same entries in the same order. *)
Lemma ordered_ext m1 :
  forall m2, ordered m1 -> ordered m2 ->
             (forall k, find k m1 = find k m2) -> m1 = m2.
Proof.
  induction m1 as [| [k1 v1] r1 IH]; intros [| [k2 v2] r2] H1 H2 E.
  - reflexivity.
  - specialize (E k2). simpl in E. rewrite compare_refl in E. discriminate.
  - specialize (E k1). simpl in E. rewrite compare_refl in E. discriminate.
  - destruct (ordered_cons_inv _ _ _ H1) as [Hr1 Ha1].
    destruct (ordered_cons_inv _ _ _ H2) as [Hr2 Ha2].
    destruct (String.compare k1 k2) eqn:C.
    + apply compare_Eq in C. subst k2.
      assert (v1 = v2).
      { specialize (E k1). simpl in E. rewrite compare_refl in E. congruence. }
      subst v2. f_equal. apply IH; try assumption.
      intros k. specialize (E k). simpl in E.
      destruct (String.compare k k1) eqn:Ck.
      * apply compare_Eq in Ck. subst k.
        rewrite !find_below; [reflexivity | assumption | assumption].
      * rewrite !find_below; [reflexivity | |];
          (eapply Forall_impl; [| eassumption]);
          intros k' Hk'; (eapply lt_trans; [exact Ck | exact Hk']).
      * exact E.
    + specialize (E k1). simpl in E. rewrite compare_refl, C in E. discriminate.
    + specialize (E k2). simpl in E.
      pose proof (Gt_lt _ _ C) as C'. unfold lt in C'.
      rewrite compare_refl, C' in E. discriminate.
Qed.

(** A key above every key of the map is inserted at the end. *)
Lemma insert_last k v m :
  Forall (fun k' => lt k' k) (keys m) -> insert k v m = m ++ [(k, v)].
Proof.
  induction m as [| [k0 v0] rest IH]; simpl; intros H; [reflexivity |].
  inversion H as [| ? ? Hk Hrest]; subst.
  rewrite (lt_Gt _ _ Hk). rewrite (IH Hrest). reflexivity.
Qed.
End Facts.
End StdMapFacts.

(** ** Containers *)

Section ContainerProperties.
Import Container.

(** *** Construction of a box *)

Lemma SetDtype_signed T :
  In (TypeNameGet T) signed_integer_names -> SetDtype T = Ok INT.
Proof.
  unfold SetDtype. simpl.
  intros [E | [E | [E | [E | []]]]]; rewrite <- E; reflexivity.
Qed.

Lemma SetDtype_unsigned T :
  In (TypeNameGet T) unsigned_integer_names -> SetDtype T = Ok UINT.
Proof.
  unfold SetDtype. simpl.
  intros [E | [E | [E | [E | []]]]]; rewrite <- E; reflexivity.
Qed.

Lemma SetDtype_unsupported T :
  ~ In (TypeNameGet T) supported_names ->
  SetDtype T = Abort ("Unsupported data type: " ++ TypeNameGet T).
Proof.
  unfold SetDtype, supported_names. simpl. intros H.
  repeat match goal with
         | |- context [(?a =? ?b)%string] =>
             destruct (String.eqb_spec a b) as [E | _];
             [exfalso; apply H; rewrite E; tauto |]
         end.
  reflexivity.
Qed.

(** C3. Both constructors of [OpenGymBoxContainer<T>] store the dtype of
    [T]'s kind: INT for the signed integer types, UINT for the unsigned
    ones, FLOAT for [float], DOUBLE for [double]; for a type of any other
    name the constructor aborts. *)
Theorem Box_constructor_dtype (T : CType) (shape : list N) :
  let made dt sh :=
    Ok {| box_T := T; m_shape := sh; m_dtype := dt; m_data := [] |} in
  let fatal :=
    Abort ("Unsupported data type: " ++ TypeNameGet T) in
  (In (TypeNameGet T) signed_integer_names ->
   OpenGymBoxContainer_shape T shape = made INT shape
   /\ OpenGymBoxContainer_default T = made INT [])
  /\ (In (TypeNameGet T) unsigned_integer_names ->
      OpenGymBoxContainer_shape T shape = made UINT shape
      /\ OpenGymBoxContainer_default T = made UINT [])
  /\ (TypeNameGet T = "float" ->
      OpenGymBoxContainer_shape T shape = made FLOAT shape
      /\ OpenGymBoxContainer_default T = made FLOAT [])
  /\ (TypeNameGet T = "double" ->
      OpenGymBoxContainer_shape T shape = made DOUBLE shape
      /\ OpenGymBoxContainer_default T = made DOUBLE [])
  /\ (~ In (TypeNameGet T) supported_names ->
      OpenGymBoxContainer_shape T shape = fatal
      /\ OpenGymBoxContainer_default T = fatal).
Proof.
  cbv zeta. unfold OpenGymBoxContainer_shape, OpenGymBoxContainer_default.
  split; [| split; [| split; [| split]]]; intros H.
  - rewrite (SetDtype_signed T H). split; reflexivity.
  - rewrite (SetDtype_unsigned T H). split; reflexivity.
  - unfold SetDtype; rewrite H. split; reflexivity.
  - unfold SetDtype; rewrite H. split; reflexivity.
  - rewrite (SetDtype_unsupported T H). split; reflexivity.
Qed.

(** The constructors reach each of the five cases: [int32_t], [uint8_t],
    [float], [double], and a type named ["bool"]. *)
Lemma Box_constructor_dtype_witness :
  (OpenGymBoxContainer_shape int32_t [2%N]
   = Ok {| box_T := int32_t; m_shape := [2%N]; m_dtype := INT; m_data := [] |})
  /\ (OpenGymBoxContainer_default uint8_t
      = Ok {| box_T := uint8_t; m_shape := []; m_dtype := UINT; m_data := [] |})
  /\ (OpenGymBoxContainer_default float
      = Ok {| box_T := float; m_shape := []; m_dtype := FLOAT; m_data := [] |})
  /\ (OpenGymBoxContainer_shape double [3%N]
      = Ok {| box_T := double; m_shape := [3%N]; m_dtype := DOUBLE; m_data := [] |})
  /\ (OpenGymBoxContainer_default (other_type "bool")
      = Abort "Unsupported data type: bool").
Proof.
  split; [| split; [| split; [| split]]].
  - apply (Box_constructor_dtype int32_t [2%N]). simpl. tauto.
  - apply (Box_constructor_dtype uint8_t []). simpl. tauto.
  - apply (Box_constructor_dtype float []). reflexivity.
  - apply (Box_constructor_dtype double [3%N]). reflexivity.
  - apply (Box_constructor_dtype (other_type "bool") []). simpl.
    intuition discriminate.
Defined.

(** *** Reads past the end and reads of a missing key *)

Lemma vector_at_in_range {A : Type} (v : list A) (idx : N) :
  (idx < vector_size v)%N -> exists a, vector_at v idx = Ok a.
Proof.
  unfold vector_size, vector_at. intros H.
  destruct (nth_error v (N.to_nat idx)) as [a |] eqn:E.
  - exists a; reflexivity.
  - apply nth_error_None in E. lia.
Qed.

(** C2. A box read at an index at or past the length of its data gives 0,
    the zero of its element type; a tuple read at an index at or past its
    length gives the null container; a dict read at a key that is not among
    its keys gives the null container.  No read, at any index or key, throws
    or aborts. *)
Theorem absent_reads_return_sentinel :
  (forall (b : OpenGymBoxContainer) (idx : N),
      (exists v, Box_GetValue idx b = Ok v)
      /\ ((vector_size (m_data b) <= idx)%N -> Box_GetValue idx b = Ok 0%Z))
  /\ (forall (m_tuple : list OpenGymDataContainer) (idx : N),
         (exists p, Tuple_Get idx m_tuple = Ok p)
         /\ ((vector_size m_tuple <= idx)%N -> Tuple_Get idx m_tuple = Ok None))
  /\ (forall (m_dict : StdMap.t OpenGymDataContainer) (key : string),
         (exists p, Dict_Get key m_dict = Ok p)
         /\ (~ In key (StdMap.keys m_dict) -> Dict_Get key m_dict = Ok None)).
Proof.
  split; [| split].
  - intros b idx. unfold Box_GetValue.
    destruct (idx <? vector_size (m_data b))%N eqn:C.
    + apply N.ltb_lt in C. split.
      * destruct (vector_at_in_range _ _ C) as [a Ha].
        exists a. rewrite Ha. reflexivity.
      * lia.
    + split; [exists 0%Z; reflexivity | reflexivity].
  - intros t idx. unfold Tuple_Get.
    destruct (idx <? vector_size t)%N eqn:C.
    + apply N.ltb_lt in C. split.
      * destruct (vector_at_in_range _ _ C) as [a Ha].
        exists (Some a). rewrite Ha. reflexivity.
      * lia.
    + split; [exists None; reflexivity | reflexivity].
  - intros d key. unfold Dict_Get. split.
    + destruct (StdMap.find key d) as [c |]; eexists; reflexivity.
    + intros H. rewrite (StdMapFacts.find_absent _ _ H). reflexivity.
Qed.

(** The three reads on a box of two elements, a tuple of one and a dict with
    the key ["a"]. *)
Lemma absent_reads_return_sentinel_witness :
  Box_GetValue 2
    {| box_T := int32_t; m_shape := [2%N]; m_dtype := INT; m_data := [7%Z; 8%Z] |}
  = Ok 0%Z
  /\ Tuple_Get 1 [OpenGymDiscreteContainer {| m_n := 4; m_value := 3 |}] = Ok None
  /\ Dict_Get "b" [("a", OpenGymDiscreteContainer {| m_n := 4; m_value := 3 |})]
     = Ok None.
Proof.
  destruct absent_reads_return_sentinel as [HB [HT HD]].
  split; [| split].
  - apply HB. vm_compute. discriminate.
  - apply HT. vm_compute. discriminate.
  - apply HD. simpl. intuition discriminate.
Defined.

(** *** Adding under a key that is present *)

(** C8. [Add] under a key the dict already holds returns true and leaves
    the dict as it was: the key keeps the value it had and the new value is
    not stored. *)
Theorem Dict_Add_existing_key
  (m_dict : StdMap.t OpenGymDataContainer) (key : string)
  (old new : OpenGymDataContainer) :
  StdMap.ordered m_dict ->
  In (key, old) m_dict ->
  Dict_Add key new m_dict = (m_dict, true)
  /\ Dict_Get key (fst (Dict_Add key new m_dict)) = Ok (Some old).
Proof.
  intros Hord Hin.
  pose proof (StdMapFacts.find_entry _ _ _ Hord Hin) as Hfind.
  unfold Dict_Add, Dict_Get. simpl.
  rewrite (StdMapFacts.insert_found _ new _ _ Hfind), Hfind.
  split; reflexivity.
Qed.

Lemma Dict_Add_existing_key_witness :
  let three := OpenGymDiscreteContainer {| m_n := 0; m_value := 3 |} in
  let nine := OpenGymDiscreteContainer {| m_n := 0; m_value := 9 |} in
  Dict_Add "n" nine [("n", three); ("pos", three)]
  = ([("n", three); ("pos", three)], true)
  /\ Dict_Get "n" (fst (Dict_Add "n" nine [("n", three); ("pos", three)]))
     = Ok (Some three).
Proof.
  intros three nine.
  apply (Dict_Add_existing_key [("n", three); ("pos", three)] "n" three nine).
  - unfold StdMap.ordered. simpl.
    repeat constructor.
  - simpl. left; reflexivity.
Defined.

(** *** Printing a dict *)

Variable numeric_cast : CType -> CType -> value -> value.
Variable to_string_other : CType -> value -> string.

Lemma Dict_Get_find (key : string) (m_dict : StdMap.t OpenGymDataContainer) :
  Dict_Get key m_dict = Ok (StdMap.find key m_dict).
Proof. unfold Dict_Get. destruct (StdMap.find key m_dict); reflexivity. Qed.

Lemma fold_Add_ordered (adds : list (string * OpenGymDataContainer)) :
  forall m_dict,
    StdMap.ordered m_dict ->
    StdMap.ordered
      (fold_left (fun m it => fst (Dict_Add (fst it) (snd it) m)) adds m_dict).
Proof.
  induction adds as [| [k c] rest IH]; simpl; intros d Hd; [exact Hd |].
  apply IH. apply StdMapFacts.insert_ordered. exact Hd.
Qed.

Lemma Dict_of_adds_ordered (adds : list (string * OpenGymDataContainer)) :
  StdMap.ordered (Dict_of_adds adds).
Proof. apply fold_Add_ordered. constructor. Qed.

Lemma fold_Add_keys (adds : list (string * OpenGymDataContainer)) :
  forall m_dict key,
    In key (StdMap.keys
              (fold_left (fun m it => fst (Dict_Add (fst it) (snd it) m))
                         adds m_dict))
    <-> In key (StdMap.keys m_dict) \/ In key (map fst adds).
Proof.
  induction adds as [| [k c] rest IH]; simpl; intros d key.
  - tauto.
  - rewrite IH, StdMapFacts.keys_insert. intuition congruence.
Qed.

(** The text of a list of items: the items with [", "] between two of
    them, as [String.concat] writes them. *)
Lemma join_concat (items : list string) :
  join items = String.concat ", " items.
Proof.
  induction items as [| x rest IH]; [reflexivity |].
  destruct rest as [| y rest]; [reflexivity |].
  change (join (x :: y :: rest)) with (x ++ ", " ++ join (y :: rest))%string.
  rewrite IH. reflexivity.
Qed.

Lemma string_append_assoc (a b c : string) :
  ((a ++ b) ++ c = a ++ (b ++ c))%string.
Proof. induction a as [| ch a IH]; simpl; [| rewrite IH]; reflexivity. Qed.

(** An item of the list is in the text, after the items before it. *)
Lemma join_item (l1 : list string) (x : string) (l2 : list string) :
  exists pre, join (l1 ++ x :: l2) = (pre ++ join (x :: l2))%string.
Proof.
  induction l1 as [| a l1 [pre IH]].
  - exists ""%string. reflexivity.
  - exists (a ++ ", " ++ pre)%string.
    change ((a :: l1) ++ x :: l2) with (a :: (l1 ++ x :: l2)).
    destruct (l1 ++ x :: l2) as [| y r] eqn:E.
    + destruct l1; discriminate E.
    + change (join (a :: y :: r)) with (a ++ ", " ++ join (y :: r))%string.
      rewrite IH, !string_append_assoc. reflexivity.
Qed.

Lemma join_head (x : string) (l : list string) :
  exists post, join (x :: l) = (x ++ post)%string.
Proof.
  destruct l as [| y r].
  - exists ""%string. simpl. induction x; simpl; congruence.
  - exists (", " ++ join (y :: r))%string. reflexivity.
Qed.

Lemma join_two_items (l1 : list string) (x : string) (l2 : list string)
  (y : string) (l3 : list string) :
  exists pre mid post,
    join (l1 ++ x :: l2 ++ y :: l3) = (pre ++ x ++ mid ++ y ++ post)%string.
Proof.
  destruct (join_item l1 x (l2 ++ y :: l3)) as [pre E1].
  destruct (join_item l2 y l3) as [pre2 E2].
  destruct (join_head y l3) as [post E3].
  exists pre, (", " ++ pre2)%string, post.
  rewrite E1.
  destruct (l2 ++ y :: l3) as [| z r] eqn:E.
  - destruct l2; discriminate E.
  - change (join (x :: z :: r)) with (x ++ ", " ++ join (z :: r))%string.
    rewrite E2, E3, !string_append_assoc. reflexivity.
Qed.

Lemma ordered_find_In (m : StdMap.t OpenGymDataContainer) (k : string)
  (v : OpenGymDataContainer) :
  StdMap.find k m = Some v -> In (k, v) m.
Proof.
  induction m as [| [k' v'] rest IH]; simpl; [discriminate |].
  destruct (String.compare k k') eqn:C; intros F.
  - apply StdMapFacts.compare_Eq in C. injection F as ->. subst. left; reflexivity.
  - discriminate F.
  - right. exact (IH F).
Qed.

(** In a map, the entry of the smaller key stands before the entry of the
    larger one. *)
Lemma ordered_entries_split (m : StdMap.t OpenGymDataContainer)
  (k1 k2 : string) (v1 v2 : OpenGymDataContainer) :
  StdMap.ordered m ->
  StdMap.find k1 m = Some v1 -> StdMap.find k2 m = Some v2 ->
  StdMap.lt k1 k2 ->
  exists l1 l2 l3, m = l1 ++ (k1, v1) :: l2 ++ (k2, v2) :: l3.
Proof.
  induction m as [| [k v] rest IH]; intros Hm F1 F2 L; [discriminate F1 |].
  destruct (StdMapFacts.ordered_cons_inv _ _ _ Hm) as [Hrest Hall].
  simpl in F1, F2.
  destruct (String.compare k1 k) eqn:C1; [| discriminate F1 |].
  - apply StdMapFacts.compare_Eq in C1. subst k. injection F1 as ->.
    unfold StdMap.lt in L. rewrite (StdMapFacts.lt_Gt _ _ L) in F2.
    destruct (in_split _ _ (ordered_find_In _ _ _ F2)) as [l2 [l3 E]].
    exists [], l2, l3. rewrite E. reflexivity.
  - destruct (String.compare k2 k) eqn:C2.
    + exfalso. apply StdMapFacts.compare_Eq in C2. subst k.
      apply StdMapFacts.Gt_lt in C1.
      exact (StdMapFacts.lt_irrefl _ (StdMapFacts.lt_trans _ _ _ L C1)).
    + discriminate F2.
    + destruct (IH Hrest F1 F2 L) as [l1 [l2 [l3 E]]].
      exists ((k, v) :: l1), l2, l3. simpl. rewrite E. reflexivity.
Qed.

(** C7. Whatever the order of the [Add] calls that filled a dict, the text
    that [Print] writes is ["Dict("], then one [key=value] for each key
    added, in strictly increasing key order and with [", "] between two of
    them, then [")"], where the value is the one [Get] returns under the
    key; so the entry of a smaller key stands in the text before the entry
    of a larger one, and two dicts that bind the same keys to the same
    values print the same text. *)
Theorem Dict_Print_sorted_by_key
  (adds1 adds2 : list (string * OpenGymDataContainer)) :
  let d1 := Dict_of_adds adds1 in
  let d2 := Dict_of_adds adds2 in
  (exists entries : list (string * OpenGymDataContainer),
      StronglySorted (fun a b => String.compare a b = Lt) (map fst entries)
      /\ (forall key, In key (map fst entries) <-> In key (map fst adds1))
      /\ (forall key v, In (key, v) entries <-> Dict_Get key d1 = Ok (Some v))
      /\ Print to_string_other (OpenGymDictContainer d1)
         = ("Dict("
            ++ String.concat ", "
                 (map (fun it => fst it ++ "=" ++ Print to_string_other (snd it))
                      entries)
            ++ ")")%string)
  /\ (forall k1 v1 k2 v2,
         Dict_Get k1 d1 = Ok (Some v1) ->
         Dict_Get k2 d1 = Ok (Some v2) ->
         String.compare k1 k2 = Lt ->
         exists pre mid post,
           Print to_string_other (OpenGymDictContainer d1)
           = ("Dict(" ++ pre
              ++ (k1 ++ "=" ++ Print to_string_other v1)
              ++ mid
              ++ (k2 ++ "=" ++ Print to_string_other v2)
              ++ post ++ ")")%string)
  /\ ((forall key, Dict_Get key d1 = Dict_Get key d2) ->
      Print to_string_other (OpenGymDictContainer d1)
      = Print to_string_other (OpenGymDictContainer d2)).
Proof.
  intros d1 d2.
  pose proof (Dict_of_adds_ordered adds1) as O1. fold d1 in O1.
  split; [| split].
  - exists d1. split; [exact O1 | split; [| split]].
    + intros key. unfold d1, Dict_of_adds.
      pose proof (fold_Add_keys adds1 StdMap.empty key) as H.
      unfold StdMap.keys in H. rewrite H. simpl. tauto.
    + intros key v. rewrite Dict_Get_find. split.
      * intros Hin. rewrite (StdMapFacts.find_entry _ _ _ O1 Hin). reflexivity.
      * intros F. injection F as F. exact (ordered_find_In _ _ _ F).
    + cbn [Print]. rewrite join_concat. reflexivity.
  - intros k1 v1 k2 v2 G1 G2 L. rewrite Dict_Get_find in G1, G2.
    injection G1 as G1. injection G2 as G2.
    destruct (ordered_entries_split d1 k1 k2 v1 v2 O1 G1 G2 L)
      as [l1 [l2 [l3 E]]].
    cbn [Print]. rewrite E, map_app. cbn [map]. rewrite map_app.
    cbn [map fst snd].
    set (entry := fun it : string * OpenGymDataContainer =>
                    (fst it ++ "=" ++ Print to_string_other (snd it))%string).
    destruct (join_two_items (map entry l1)
                (k1 ++ "=" ++ Print to_string_other v1)%string
                (map entry l2)
                (k2 ++ "=" ++ Print to_string_other v2)%string
                (map entry l3))
      as [pre [mid [post J]]].
    exists pre, mid, post. rewrite J, !string_append_assoc. reflexivity.
  - intros Hsame.
    assert (E : d1 = d2).
    { apply StdMapFacts.ordered_ext.
      - exact O1.
      - exact (Dict_of_adds_ordered adds2).
      - intros k. specialize (Hsame k). rewrite !Dict_Get_find in Hsame.
        congruence. }
    rewrite E. reflexivity.
Qed.

(** *** Encoding and decoding *)

Lemma convert_same (T : CType) (data : list value) :
  map (convert numeric_cast T T) data = data.
Proof.
  unfold convert. destruct (CType_eq_dec T T) as [_ | N]; [| contradiction].
  apply map_id.
Qed.

Lemma decode_set_name (n : string) (msg : DataContainer) :
  CreateFromDataContainerPbMsg (set_name n msg)
  = CreateFromDataContainerPbMsg msg.
Proof. destruct msg; reflexivity. Qed.

Lemma name_set_name (n : string) (msg : DataContainer) :
  name (set_name n msg) = n.
Proof. destruct msg; reflexivity. Qed.

(** A constructed box is encoded into the field of its dtype and decoded
    into a box of the same element type and data, without its shape. *)
Lemma Box_roundtrip (b : OpenGymBoxContainer) :
  Box_wf b ->
  exists msg,
    Box_GetDataContainerPbMsg numeric_cast b = Ok msg
    /\ CreateFromDataContainerPbMsg msg = Ok (OpenGymBox (Box_received b)).
Proof.
  destruct b as [T sh dt data]. unfold Box_wf; simpl. intros [HT HD].
  destruct T; try discriminate HT; simpl in HD;
    injection HD as <-;
    unfold Box_GetDataContainerPbMsg, Box_GetData, Box_GetShape; simpl;
    rewrite convert_same; eexists; (split; [reflexivity |]); reflexivity.
Qed.

Local Abbreviation roundtrips := (Container.roundtrips numeric_cast).

Lemma roundtrips_inv (c : OpenGymDataContainer) :
  roundtrips c -> wf c ->
  exists msg,
    GetDataContainerPbMsg numeric_cast c = Ok msg
    /\ CreateFromDataContainerPbMsg msg = Ok (received c).
Proof.
  intros H Hwf. specialize (H Hwf). unfold decode_encode in H.
  apply bind_Ok in H. exact H.
Qed.

Lemma Tuple_roundtrip (m_tuple : list OpenGymDataContainer) :
  Forall roundtrips m_tuple -> Forall wf m_tuple ->
  exists element,
    Tuple_encode_each numeric_cast m_tuple = Ok element
    /\ forall tupleData,
        Tuple_decode_each element tupleData
        = Ok (tupleData ++ map received m_tuple).
Proof.
  induction m_tuple as [| c rest IH]; intros HR HW.
  - exists []. split; [reflexivity |]. intros acc. simpl. rewrite app_nil_r.
    reflexivity.
  - inversion HR as [| ? ? HRc HRrest]; subst.
    inversion HW as [| ? ? HWc HWrest]; subst.
    destruct (roundtrips_inv c HRc HWc) as [msg [Henc Hdec]].
    destruct (IH HRrest HWrest) as [more [Hencs Hdecs]].
    exists (msg :: more). split.
    + simpl. rewrite Henc. simpl. fold (Tuple_encode_each numeric_cast).
      rewrite Hencs. reflexivity.
    + intros acc. simpl. rewrite Hdec. simpl. fold Tuple_decode_each.
      rewrite Hdecs. unfold push_back. rewrite <- app_assoc. reflexivity.
Qed.

Lemma Dict_roundtrip (m_dict : StdMap.t OpenGymDataContainer) :
  Forall (fun it => roundtrips (snd it)) m_dict ->
  Forall (fun it => wf (snd it)) m_dict ->
  StdMap.ordered m_dict ->
  exists element,
    Dict_encode_each numeric_cast m_dict = Ok element
    /\ forall dictData,
        (forall ka kd, In ka (StdMap.keys dictData) ->
                       In kd (StdMap.keys m_dict) -> StdMap.lt ka kd) ->
        Dict_decode_each element dictData
        = Ok (dictData ++ map (fun it => (fst it, received (snd it))) m_dict).
Proof.
  induction m_dict as [| [k c] rest IH]; intros HR HW HO.
  - exists []. split; [reflexivity |]. intros acc _. simpl. rewrite app_nil_r.
    reflexivity.
  - inversion HR as [| ? ? HRc HRrest]; subst.
    inversion HW as [| ? ? HWc HWrest]; subst.
    destruct (StdMapFacts.ordered_cons_inv _ _ _ HO) as [HOrest Hk].
    simpl in HRc, HWc.
    destruct (roundtrips_inv c HRc HWc) as [msg [Henc Hdec]].
    destruct (IH HRrest HWrest HOrest) as [more [Hencs Hdecs]].
    exists (set_name k msg :: more). split.
    + simpl. rewrite Henc. simpl. fold (Dict_encode_each numeric_cast).
      rewrite Hencs. reflexivity.
    + intros acc Hacc. simpl. rewrite decode_set_name, Hdec. simpl.
      fold Dict_decode_each. rewrite name_set_name.
      rewrite StdMapFacts.insert_last.
      * rewrite Hdecs.
        -- rewrite <- app_assoc. reflexivity.
        -- intros ka kd Hka Hkd. unfold StdMap.keys in Hka.
           rewrite map_app in Hka. apply in_app_or in Hka.
           destruct Hka as [Hka | [<- | []]].
           ++ apply Hacc; [exact Hka | right; exact Hkd].
           ++ rewrite Forall_forall in Hk. apply Hk. exact Hkd.
      * apply Forall_forall. intros ka Hka. apply Hacc; [exact Hka |].
        left; reflexivity.
Qed.

(** Every container tree survives the wire but for the shapes of its boxes
    and the bound of its discretes. *)
Lemma decode_encode_received (c : OpenGymDataContainer) : roundtrips c.
Proof.
  induction c as [d | b | l IH | m IH] using container_ind';
    unfold roundtrips; intros Hwf.
  - reflexivity.
  - inversion Hwf as [| ? Hb | |]; subst.
    destruct (Box_roundtrip b Hb) as [msg [Henc Hdec]].
    unfold decode_encode. simpl. rewrite Henc. exact Hdec.
  - inversion Hwf as [| | ? Hl |]; subst.
    destruct (Tuple_roundtrip l IH Hl) as [element [Henc Hdec]].
    unfold decode_encode. simpl. fold (Tuple_encode_each numeric_cast).
    rewrite Henc. simpl. fold Tuple_decode_each.
    rewrite Hdec. reflexivity.
  - inversion Hwf as [| | | ? Ho Hm]; subst.
    destruct (Dict_roundtrip m IH Hm Ho) as [element [Henc Hdec]].
    unfold decode_encode. simpl. fold (Dict_encode_each numeric_cast).
    rewrite Henc. simpl. fold Dict_decode_each.
    rewrite Hdec; [reflexivity |]. intros ka kd [].
Qed.

Lemma list_eqb_refl {A : Type} (eqb : A -> A -> bool) (l : list A) :
  (forall a, eqb a a = true) -> list_eqb eqb l l = true.
Proof.
  intros H. induction l as [| a r IH]; simpl; [reflexivity |].
  rewrite H, IH. reflexivity.
Qed.

(** A container without box shapes is structurally equal to what is left of
    it after the wire. *)
Lemma shapeless_received (c : OpenGymDataContainer) :
  shapeless c = true -> structurally_equal c (received c) = true.
Proof.
  induction c as [d | b | l IH | m IH] using container_ind'; simpl; intros H.
  - apply N.eqb_refl.
  - unfold Box_structurally_equal, Box_received, CType_eqb, Dtype_eqb. simpl.
    destruct (m_shape b); [| discriminate].
    destruct (CType_eq_dec (box_T b) (box_T b)); [| contradiction].
    destruct (Dtype_eq_dec (m_dtype b) (m_dtype b)); [| contradiction].
    simpl. apply list_eqb_refl. apply Z.eqb_refl.
  - induction l as [| x r IHr]; simpl; [reflexivity |].
    simpl in H. apply andb_prop in H. destruct H as [Hx Hr].
    inversion IH as [| ? ? IHx IHrest]; subst.
    rewrite (IHx Hx). simpl. apply IHr; assumption.
  - induction m as [| [k x] r IHr]; simpl; [reflexivity |].
    simpl in H. apply andb_prop in H. destruct H as [Hx Hr].
    inversion IH as [| ? ? IHx IHrest]; subst.
    rewrite String.eqb_refl. simpl in IHx. rewrite (IHx Hx). simpl.
    apply IHr; assumption.
Qed.

(** C1, up to the shapes. Encoding a container tree never aborts, and
    decoding the message gives the tree back with every box shape emptied
    and the bound of every discrete reset to 0: same variants, element
    types, dtypes and data, same tuple elements in the same order, same dict
    keys with the same values.  For a tree in which no box carries a shape
    the result is structurally equal to the tree. *)
Theorem roundtrip_up_to_shape (c : OpenGymDataContainer) :
  wf c ->
  (exists msg,
      GetDataContainerPbMsg numeric_cast c = Ok msg
      /\ CreateFromDataContainerPbMsg msg = Ok (received c))
  /\ (shapeless c = true -> structurally_equal c (received c) = true).
Proof.
  intros Hwf. split.
  - apply roundtrips_inv; [apply decode_encode_received | exact Hwf].
  - apply shapeless_received.
Qed.

End ContainerProperties.

(** *** Concrete containers *)

Module ContainerExamples.
Import Container.

Example pos_shaped_built :
  (b <- OpenGymBoxContainer_shape float [2%N] ;; Ok (fst (Box_SetData pos_data b)))
  = Ok pos_shaped.
Proof. reflexivity. Qed.

Example Print_example :
  Print to_string_bits
    (OpenGymDictContainer
       (Dict_of_adds [("pos", OpenGymBox pos_shaped); ("n", three)]))
  = "Dict(n=3, pos=[1069547520, 3221225472])".
Proof. reflexivity. Qed.

(** C1, as stated, fails on a box that carries a shape: the box built by
    [OpenGymBoxContainer<float>({2})] with data [[1.5, -2.0]] comes back from
    the wire with an empty shape. *)
Lemma roundtrip_drops_box_shape :
  wf (OpenGymBox pos_shaped)
  /\ decode_encode cast_unused (OpenGymBox pos_shaped) = Ok (OpenGymBox pos_plain)
  /\ structurally_equal (OpenGymBox pos_shaped) (OpenGymBox pos_plain) = false
  /\ m_shape pos_shaped <> m_shape pos_plain.
Proof.
  split; [| split; [| split]].
  - apply wf_Box. split; reflexivity.
  - reflexivity.
  - reflexivity.
  - discriminate.
Qed.

Lemma roundtrip_up_to_shape_witness :
  wf observation
  /\ (exists msg,
      GetDataContainerPbMsg cast_unused observation = Ok msg
      /\ CreateFromDataContainerPbMsg msg = Ok (received observation))
  /\ structurally_equal observation (received observation) = true.
Proof.
  assert (Hwf : wf observation).
  { apply wf_Dict.
    - unfold StdMap.ordered, StdMap.lt. simpl. repeat constructor.
    - repeat constructor. }
  destruct (roundtrip_up_to_shape cast_unused observation Hwf) as [H1 H2].
  split; [exact Hwf | split; [exact H1 | apply H2; reflexivity]].
Defined.

Lemma Dict_Print_sorted_by_key_witness :
  (exists pre mid post,
      Print to_string_bits
        (OpenGymDictContainer
           (Dict_of_adds [("pos", OpenGymBox pos_shaped); ("n", three)]))
      = ("Dict(" ++ pre ++ ("n" ++ "=" ++ "3") ++ mid
         ++ ("pos" ++ "=" ++ "[1069547520, 3221225472]") ++ post ++ ")")%string)
  /\ Print to_string_bits
       (OpenGymDictContainer
          (Dict_of_adds [("pos", OpenGymBox pos_shaped); ("n", three)]))
     = Print to_string_bits
         (OpenGymDictContainer
            (Dict_of_adds [("n", three); ("pos", OpenGymBox pos_shaped);
                           ("n", OpenGymBox pos_plain)])).
Proof.
  split.
  - exact (proj1 (proj2 (Dict_Print_sorted_by_key to_string_bits
                           [("pos", OpenGymBox pos_shaped); ("n", three)] []))
             "n" three "pos" (OpenGymBox pos_shaped) eq_refl eq_refl eq_refl).
  - apply (proj2 (proj2 (Dict_Print_sorted_by_key to_string_bits
                           [("pos", OpenGymBox pos_shaped); ("n", three)]
                           [("n", three); ("pos", OpenGymBox pos_shaped);
                            ("n", OpenGymBox pos_plain)]))).
    intros key. reflexivity.
Defined.
End ContainerExamples.

(** ** The gym interface *)

Section InterfaceProperties.
Import Container Interface.

Variable OpenGymSpace : Type.
Variable SpaceDescription : Type.
Variable GetSpaceDescription : OpenGymSpace -> SpaceDescription.
Variable Env : Type.
Variable SimInitMsg_ByteSizeLong : SimInitMsg SpaceDescription -> N.
Variable EnvStateMsg_ByteSizeLong : EnvStateMsg -> N.
Variable MSG_BUFFER_SIZE : N.
Variable numeric_cast : CType -> CType -> value -> value.

Local Abbreviation World := (Interface.World OpenGymSpace Env).
Local Abbreviation Event := (Interface.Event SpaceDescription).
Local Abbreviation M := (Interface.M OpenGymSpace SpaceDescription Env).
Local Abbreviation GetObservationSpace :=
  (@Interface.GetObservationSpace OpenGymSpace SpaceDescription Env).
Local Abbreviation GetActionSpace :=
  (@Interface.GetActionSpace OpenGymSpace SpaceDescription Env).
Local Abbreviation GetObservation :=
  (@Interface.GetObservation OpenGymSpace SpaceDescription Env).
Local Abbreviation GetReward :=
  (@Interface.GetReward OpenGymSpace SpaceDescription Env).
Local Abbreviation IsGameOver :=
  (@Interface.IsGameOver OpenGymSpace SpaceDescription Env).
Local Abbreviation GetExtraInfo :=
  (@Interface.GetExtraInfo OpenGymSpace SpaceDescription Env).
Local Abbreviation ExecuteActions :=
  (@Interface.ExecuteActions OpenGymSpace SpaceDescription Env).
Local Abbreviation Init :=
  (Interface.Init GetSpaceDescription SimInitMsg_ByteSizeLong MSG_BUFFER_SIZE).
Local Abbreviation NotifyCurrentState :=
  (Interface.NotifyCurrentState GetSpaceDescription SimInitMsg_ByteSizeLong
     EnvStateMsg_ByteSizeLong MSG_BUFFER_SIZE numeric_cast).
Local Abbreviation WaitForStop :=
  (Interface.WaitForStop GetSpaceDescription SimInitMsg_ByteSizeLong
     EnvStateMsg_ByteSizeLong MSG_BUFFER_SIZE numeric_cast).
Local Abbreviation NotifySimulationEnd :=
  (Interface.NotifySimulationEnd GetSpaceDescription SimInitMsg_ByteSizeLong
     EnvStateMsg_ByteSizeLong MSG_BUFFER_SIZE numeric_cast).
Local Abbreviation Notify :=
  (Interface.Notify GetSpaceDescription SimInitMsg_ByteSizeLong
     EnvStateMsg_ByteSizeLong MSG_BUFFER_SIZE numeric_cast).
Local Abbreviation exchange :=
  (@Interface.NotifyCurrentState_exchange OpenGymSpace SpaceDescription Env
     EnvStateMsg_ByteSizeLong MSG_BUFFER_SIZE numeric_cast).
Local Abbreviation perform :=
  (Interface.perform GetSpaceDescription SimInitMsg_ByteSizeLong
     EnvStateMsg_ByteSizeLong MSG_BUFFER_SIZE numeric_cast).
Local Abbreviation run :=
  (Interface.run GetSpaceDescription SimInitMsg_ByteSizeLong
     EnvStateMsg_ByteSizeLong MSG_BUFFER_SIZE numeric_cast).

(** Destructs what the goal branches on, innermost first. *)
Ltac branch :=
  match goal with
  | |- context [match ?x with _ => _ end] =>
      lazymatch x with
      | context [match _ with _ => _ end] => fail
      | _ => destruct x eqn:?
      end
  end.

Ltac exec :=
  cbv [Interface.Init Interface.NotifyCurrentState Interface.WaitForStop
       Interface.NotifySimulationEnd Interface.Notify
       Interface.GetObservation Interface.GetReward Interface.IsGameOver
       Interface.GetExtraInfo Interface.GetObservationSpace
       Interface.GetActionSpace Interface.ExecuteActions
       Interface.SetGetActionSpaceCb Interface.SetGetObservationSpaceCb
       Interface.SetGetGameOverCb Interface.SetGetObservationCb
       Interface.SetGetRewardCb Interface.SetGetExtraInfoCb
       Interface.SetExecuteActionsCb Interface.with_callbacks
       Interface.CppSend Interface.CppRecv Interface.lift
       mbind this assign emit ret invoke std_exit abort];
  simpl.

Local Abbreviation with_env := (@Interface.with_env OpenGymSpace Env).
Local Abbreviation quiet := (@Interface.quiet OpenGymSpace SpaceDescription Env).
Local Abbreviation Init_result :=
  (@Interface.Init_result OpenGymSpace SpaceDescription Env).
Local Abbreviation exchange_result :=
  (@Interface.exchange_result OpenGymSpace SpaceDescription Env).
Local Abbreviation NotifyCurrentState_result :=
  (@Interface.NotifyCurrentState_result OpenGymSpace SpaceDescription Env).

Ltac quiet_wrapper :=
  intros [i e q]; unfold Interface.with_env; exec;
  repeat (branch; simpl in * ); eexists; eexists; reflexivity.

Lemma GetObservationSpace_quiet : quiet GetObservationSpace.
Proof. quiet_wrapper. Qed.

Lemma GetActionSpace_quiet : quiet GetActionSpace.
Proof. quiet_wrapper. Qed.

Lemma GetObservation_quiet : quiet GetObservation.
Proof. quiet_wrapper. Qed.

Lemma GetReward_quiet : quiet GetReward.
Proof. quiet_wrapper. Qed.

Lemma GetExtraInfo_quiet : quiet GetExtraInfo.
Proof. quiet_wrapper. Qed.

(** [IsGameOver] is true once the end of the simulation is flagged. *)
Lemma IsGameOver_quiet (w : World) :
  exists g e,
    IsGameOver w = ([], Returned g (with_env e w))
    /\ (m_simEnd (iface w) = true -> g = true).
Proof.
  destruct w as [i e q]. unfold Interface.with_env. exec.
  repeat (branch; simpl in * ); eexists; eexists; (split; [reflexivity |]);
    intros ->; auto using orb_true_r.
Qed.

(** [ExecuteActions] runs the action callback, if one is bound. *)
Lemma ExecuteActions_cases (action : OpenGymDataContainer) (w : World) :
  ExecuteActions action w
  = match m_actionCb (iface w) with
    | Some cb =>
        let (reply, e) := cb action (env w) in
        ([ActionCb action], Returned reply (with_env e w))
    | None => ([], Returned false w)
    end.
Proof.
  destruct w as [i e q]. unfold Interface.with_env. exec.
  repeat (branch; simpl in * ); reflexivity.
Qed.

(** *** [Init] *)

Lemma Init_again (w : World) :
  m_initSimMsgSent (iface w) = true -> Init w = ([], Returned tt w).
Proof. intros H. exec. rewrite H. reflexivity. Qed.

(** The first [Init]: the message is sent unless it is too large, and the
    call then waits for the acknowledgement, which may ask to stop. *)
Lemma Init_first (w : World) :
  m_initSimMsgSent (iface w) = false ->
  exists e msg,
    let i1 := set_initSimMsgSent true (iface w) in
    Init w =
    if (SimInitMsg_ByteSizeLong msg <=? MSG_BUFFER_SIZE)%N then
      match py2cpp w with
      | [] => ([SendSimInit msg],
               Blocked {| iface := i1; env := e; py2cpp := [] |})
      | buf :: rest =>
          let ack := as_SimInitAck buf in
          if ack_stopsimreq ack then
            ([SendSimInit msg; RecvSimInitAck ack;
              Simulator_Stop; Simulator_Destroy],
             Exited 0 {| iface := set_stopEnvRequested true i1;
                         env := e; py2cpp := rest |})
          else
            ([SendSimInit msg; RecvSimInitAck ack],
             Returned tt {| iface := i1; env := e; py2cpp := rest |})
      end
    else
      ([], Aborted
             "assert(msgInterface->GetCpp2PyStruct()->size <= MSG_BUFFER_SIZE)"
             {| iface := i1; env := e; py2cpp := py2cpp w |}).
Proof.
  destruct w as [i e q]. simpl. intros H. exec. rewrite H. simpl.
  repeat (branch; simpl in * ).
  all: match goal with
       | H : (SimInitMsg_ByteSizeLong ?m <=? _)%N = _ |- _ =>
           eexists; exists m; rewrite H; reflexivity
       end.
Qed.

(** *** [NotifyCurrentState] *)

Lemma mbind_this {A : Type} (k : _ -> M A) (w : World) :
  mbind _ _ _ (this _ _ _) k w = k (iface w) w.
Proof. unfold mbind, this. destruct (k (iface w) w). reflexivity. Qed.

Lemma mbind_ret {A B : Type} (a : A) (k : A -> M B) (w : World) :
  mbind _ _ _ (ret _ _ _ a) k w = k a w.
Proof. unfold mbind, ret. destruct (k a w). reflexivity. Qed.

Lemma NotifyCurrentState_halves (w : World) :
  NotifyCurrentState w
  = mbind _ _ _
      (if negb (m_initSimMsgSent (iface w)) then Init else ret _ _ _ tt)
      (fun _ => exchange) w.
Proof.
  unfold Interface.NotifyCurrentState. rewrite mbind_this. reflexivity.
Qed.

Lemma NotifyCurrentState_init (w : World) :
  m_initSimMsgSent (iface w) = true -> NotifyCurrentState w = exchange w.
Proof.
  intros H. rewrite NotifyCurrentState_halves, H. cbn [negb].
  exact (mbind_ret tt (fun _ => exchange) w).
Qed.

(** Before the handshake, [NotifyCurrentState] is [Init] followed by
    [NotifyCurrentState]. *)
Lemma NotifyCurrentState_uninit (w : World) :
  m_initSimMsgSent (iface w) = false ->
  NotifyCurrentState w
  = match Init w with
    | (evs, Returned _ w1) =>
        let (evs', o) := NotifyCurrentState w1 in (evs ++ evs', o)
    | (evs, Exited code w1) => (evs, Exited code w1)
    | (evs, Aborted msg w1) => (evs, Aborted msg w1)
    | (evs, Blocked w1) => (evs, Blocked w1)
    end.
Proof.
  intros H. rewrite NotifyCurrentState_halves, H. simpl negb. cbv iota.
  destruct (Init_first w H) as [e1 [msg HI]]. cbv zeta in HI.
  unfold mbind. rewrite HI.
  destruct (SimInitMsg_ByteSizeLong msg <=? MSG_BUFFER_SIZE)%N;
    [| reflexivity].
  destruct (py2cpp w) as [| buf rest]; [reflexivity |].
  cbv zeta.
  destruct (ack_stopsimreq (as_SimInitAck buf)); [reflexivity |].
  rewrite NotifyCurrentState_init by reflexivity. reflexivity.
Qed.

Lemma exchange_when_stopped (w : World) :
  m_stopEnvRequested (iface w) = true -> exchange w = ([], Returned tt w).
Proof.
  intros H. unfold NotifyCurrentState_exchange. rewrite mbind_this, H.
  reflexivity.
Qed.

(** The exchange, given what the callbacks return. *)
Lemma exchange_cases (w w1 w2 w3 w4 : World)
  (obs : option OpenGymDataContainer) (r : value) (g : bool) (extra : string) :
  m_stopEnvRequested (iface w) = false ->
  GetObservation w = ([], Returned obs w1) ->
  GetReward w1 = ([], Returned r w2) ->
  IsGameOver w2 = ([], Returned g w3) ->
  GetExtraInfo w3 = ([], Returned extra w4) ->
  exchange w
  = match encode_observation numeric_cast obs with
    | Abort msg | Throw msg => ([], Aborted msg w4)
    | Ok od =>
        let msg :=
          {| obsdata := od; reward := r; isgameover := g;
             reason := if g
                       then Some (if m_simEnd (iface w)
                                  then SimulationEnd else GameOver)
                       else None;
             info := extra |} in
        if (EnvStateMsg_ByteSizeLong msg <=? MSG_BUFFER_SIZE)%N then
          match py2cpp w4 with
          | [] => ([SendEnvState msg], Blocked w4)
          | buf :: rest =>
              let act := as_EnvActMsg buf in
              let w5 := {| iface := iface w4; env := env w4; py2cpp := rest |} in
              if m_simEnd (iface w) then
                ([SendEnvState msg; RecvEnvAct act], Returned tt w5)
              else if stopsimreq act then
                ([SendEnvState msg; RecvEnvAct act;
                  Simulator_Stop; Simulator_Destroy],
                 Exited 0 {| iface := set_stopEnvRequested true (iface w4);
                             env := env w4; py2cpp := rest |})
              else
                match CreateFromDataContainerPbMsg (actdata act) with
                | Abort m | Throw m =>
                    ([SendEnvState msg; RecvEnvAct act], Aborted m w5)
                | Ok action =>
                    match ExecuteActions action w5 with
                    | (evs, Returned _ w6) =>
                        (SendEnvState msg :: RecvEnvAct act :: evs,
                         Returned tt w6)
                    | (evs, Exited c w6) =>
                        (SendEnvState msg :: RecvEnvAct act :: evs, Exited c w6)
                    | (evs, Aborted m w6) =>
                        (SendEnvState msg :: RecvEnvAct act :: evs, Aborted m w6)
                    | (evs, Blocked w6) =>
                        (SendEnvState msg :: RecvEnvAct act :: evs, Blocked w6)
                    end
                end
          end
        else
          ([], Aborted
                 "assert(msgInterface->GetCpp2PyStruct()->size <= MSG_BUFFER_SIZE)"
                 w4)
    end.
Proof.
  intros Hstop Hobs Hr Hg Hx.
  unfold NotifyCurrentState_exchange. rewrite mbind_this, Hstop.
  unfold mbind at 1. rewrite Hobs.
  unfold mbind at 1. rewrite Hr.
  unfold mbind at 1. rewrite Hg.
  unfold mbind at 1. rewrite Hx.
  cbv beta iota.
  unfold encode_observation. destruct w4 as [i4 e4 q4].
  cbv [mbind lift Interface.CppSend Interface.CppRecv emit ret assign
       std_exit abort].
  simpl.
  repeat (branch; simpl in * ); rewrite ?app_nil_r; reflexivity.
Qed.

Lemma Init_result_holds (w : World) :
  Init_result w (fst (Init w)) (snd (Init w)).
Proof.
  destruct (m_initSimMsgSent (iface w)) eqn:H.
  - rewrite (Init_again w H). simpl. apply Init_noop. exact H.
  - destruct (Init_first w H) as [e [msg HI]]. cbv zeta in HI. rewrite HI.
    destruct (SimInitMsg_ByteSizeLong msg <=? MSG_BUFFER_SIZE)%N.
    + destruct (py2cpp w) as [| buf rest] eqn:Q.
      * simpl. apply Init_blocked; assumption.
      * cbv zeta. destruct (ack_stopsimreq (as_SimInitAck buf)) eqn:S; simpl.
        -- apply Init_stop; assumption.
        -- apply Init_done; assumption.
    + simpl. apply Init_too_large. exact H.
Qed.

Lemma exchange_result_holds (w : World) :
  exchange_result w (fst (exchange w)) (snd (exchange w)).
Proof.
  destruct (m_stopEnvRequested (iface w)) eqn:Hstop.
  - rewrite (exchange_when_stopped w Hstop). simpl.
    apply Interface.exchange_stopped. exact Hstop.
  - destruct (GetObservation_quiet w) as [obs [e1 H1]].
    destruct (GetReward_quiet (with_env e1 w)) as [r [e2 H2]].
    destruct (IsGameOver_quiet (with_env e2 (with_env e1 w))) as [g [e3 [H3 Hg]]].
    destruct (GetExtraInfo_quiet (with_env e3 (with_env e2 (with_env e1 w))))
      as [x [e4 H4]].
    change (with_env e4 (with_env e3 (with_env e2 (with_env e1 w))))
      with (with_env e4 w) in H4.
    rewrite (exchange_cases _ _ _ _ _ _ _ _ _ Hstop H1 H2 H3 H4).
    cbn [py2cpp iface env Interface.with_env].
    destruct (encode_observation numeric_cast obs) as [od | msg | msg];
      [| apply Interface.exchange_abort; exact Hstop
       | apply Interface.exchange_abort; exact Hstop].
    cbv zeta.
    match goal with
    | |- context [(?s <=? MSG_BUFFER_SIZE)%N] =>
        destruct (s <=? MSG_BUFFER_SIZE)%N
    end; [| apply Interface.exchange_abort; exact Hstop].
    destruct (py2cpp w) as [| buf rest] eqn:Q;
      [apply Interface.exchange_blocked; assumption |].
    destruct (m_simEnd (iface w)) eqn:Hend.
    { cbn [fst snd]. apply Interface.exchange_simEnd; try assumption.
      - simpl. apply Hg. exact Hend.
      - simpl. rewrite (Hg Hend). reflexivity. }
    destruct (stopsimreq (as_EnvActMsg buf)) eqn:S;
      [apply Interface.exchange_stop; assumption |].
    destruct (CreateFromDataContainerPbMsg (actdata (as_EnvActMsg buf)))
      as [action | what | what] eqn:D;
      [| apply Interface.exchange_bad_action; assumption
       | apply Interface.exchange_bad_action; assumption].
    rewrite ExecuteActions_cases. cbn [py2cpp iface env Interface.with_env].
    destruct (m_actionCb (iface w)) as [cb |] eqn:Hcb.
    + destruct (cb action e4) as [reply e5].
      unfold Interface.with_env. cbn [fst snd py2cpp iface env].
      apply Interface.exchange_action; assumption.
    + unfold Interface.with_env. cbn [fst snd py2cpp iface env].
      apply Interface.exchange_no_callback; assumption.
Qed.

Lemma NotifyCurrentState_result_holds (w : World) :
  NotifyCurrentState_result w
    (fst (NotifyCurrentState w)) (snd (NotifyCurrentState w)).
Proof.
  destruct (m_initSimMsgSent (iface w)) eqn:H.
  - rewrite (NotifyCurrentState_init w H).
    apply Notify_exchange; [exact H | apply exchange_result_holds].
  - rewrite (NotifyCurrentState_uninit w H).
    pose proof (Init_result_holds w) as HI.
    destruct (Init w) as [evs1 [[] w1 | c w1 | m w1 | w1]]; simpl in HI.
    + pose proof (exchange_result_holds w1) as HX.
      assert (Hw1 : m_initSimMsgSent (iface w1) = true).
      { inversion HI; subst; try congruence; reflexivity. }
      rewrite (NotifyCurrentState_init w1 Hw1).
      destruct (exchange w1) as [evs2 o]. simpl in *.
      eapply Notify_Init_exchange; eassumption.
    + simpl. apply Notify_Init_ends; [exact H | exact HI | discriminate].
    + simpl. apply Notify_Init_ends; [exact H | exact HI | discriminate].
    + simpl. apply Notify_Init_ends; [exact H | exact HI | discriminate].
Qed.

(** *** Calls and runs *)

Lemma getter_frame {A : Type} (m : M A) (w w' : World) (a : A) :
  quiet m -> m w = ([], Returned a w') -> exists e, w' = with_env e w.
Proof.
  intros Hq H. destruct (Hq w) as [a' [e He]]. rewrite He in H.
  exists e. congruence.
Qed.

Lemma mbind_assign {A : Type} (f : _ -> _) (k : unit -> M A) (w : World) :
  mbind _ _ _ (assign _ _ _ f) k w
  = k tt {| iface := f (iface w); env := env w; py2cpp := py2cpp w |}.
Proof.
  unfold mbind, assign.
  destruct (k tt {| iface := f (iface w); env := env w; py2cpp := py2cpp w |}).
  reflexivity.
Qed.

Ltac same_state := unfold same_protocol_state; simpl; tauto.

(** Every public method is a change of callbacks or of the end flag, then
    nothing, [Init] or [NotifyCurrentState]. *)
Lemma perform_cases (c : Interface.Call OpenGymSpace Env) (w : World) :
  (exists w', perform c w = ([], Returned tt w') /\ same_protocol_state w w')
  \/ perform c w = Init w
  \/ (exists w', perform c w = NotifyCurrentState w'
                 /\ same_protocol_state w w').
Proof.
  destruct w as [i e q].
  destruct c; cbn [Interface.perform].
  1: right; left; reflexivity.
  1, 2: right; right; eexists; split; [reflexivity | same_state].
  - unfold Interface.NotifySimulationEnd.
    rewrite mbind_assign, mbind_this. cbn [iface env py2cpp].
    destruct (m_initSimMsgSent (set_simEnd true i)) eqn:F.
    + right; right. eexists. split; [reflexivity | same_state].
    + left. eexists. split; [reflexivity | same_state].
  - right; right.
    unfold Interface.Notify, Interface.SetGetGameOverCb,
      Interface.SetGetObservationCb, Interface.SetGetRewardCb,
      Interface.SetGetExtraInfoCb, Interface.SetExecuteActionsCb.
    rewrite !mbind_assign. cbn [iface env py2cpp].
    eexists. split; [reflexivity | same_state].
  - left; eexists; split; [reflexivity | same_state].
  - left; eexists; split; [reflexivity | same_state].
  - left; eexists; split; [reflexivity | same_state].
  - left; eexists; split; [reflexivity | same_state].
  - left; eexists; split; [reflexivity | same_state].
  - left; eexists; split; [reflexivity | same_state].
  - left; eexists; split; [reflexivity | same_state].
Qed.

(** What [run] does with the first call. *)
Lemma run_cons (c : Interface.Call OpenGymSpace Env) calls (w : World) :
  run (c :: calls) w
  = match perform c w with
    | (evs, Returned _ w1) =>
        let (evs', o) := run calls w1 in (evs ++ evs', o)
    | (evs, Exited code w1) => (evs, Exited code w1)
    | (evs, Aborted msg w1) => (evs, Aborted msg w1)
    | (evs, Blocked w1) => (evs, Blocked w1)
    end.
Proof.
  cbn [Interface.run]. unfold mbind.
  destruct (perform c w) as [evs [[] w1 | code w1 | msg w1 | w1]]; reflexivity.
Qed.

(** Goals about each event of a given list. *)
Ltac each_event :=
  let e := fresh "e" in
  let H := fresh "H" in
  intros e H; simpl in H;
  repeat (destruct H as [<- | H]; [try reflexivity |]);
  try contradiction.

(** *** With the end of the simulation flagged *)

Lemma Init_result_simEnd (w : World) evs o :
  Init_result w evs o ->
  (forall e, In e evs -> is_ActionCb e = false)
  /\ m_simEnd (iface (world_of o)) = m_simEnd (iface w).
Proof. intros H; inversion H; subst; split; try each_event; reflexivity. Qed.

Lemma exchange_result_simEnd (w : World) evs o :
  m_simEnd (iface w) = true ->
  exchange_result w evs o ->
  (forall e, In e evs -> is_ActionCb e = false)
  /\ m_simEnd (iface (world_of o)) = true.
Proof.
  intros E H; inversion H; subst; try congruence;
    (split; [each_event | simpl; assumption]).
Qed.

Lemma NotifyCurrentState_simEnd (w : World) evs o :
  m_simEnd (iface w) = true ->
  NotifyCurrentState w = (evs, o) ->
  (forall e, In e evs -> is_ActionCb e = false)
  /\ m_simEnd (iface (world_of o)) = true.
Proof.
  intros E H. pose proof (NotifyCurrentState_result_holds w) as R.
  rewrite H in R. simpl in R.
  inversion R as [? ? F X | ? ? F I N | ? ? ? ? F I X]; subst.
  - exact (exchange_result_simEnd _ _ _ E X).
  - destruct (Init_result_simEnd _ _ _ I) as [A S].
    split; [exact A | congruence].
  - destruct (Init_result_simEnd _ _ _ I) as [A S]. simpl in S.
    rewrite E in S.
    destruct (exchange_result_simEnd _ _ _ S X) as [A' S'].
    split; [| exact S'].
    intros e Hin. apply in_app_or in Hin. destruct Hin; auto.
Qed.

Lemma perform_simEnd (c : Interface.Call OpenGymSpace Env) (w : World) evs o :
  m_simEnd (iface w) = true ->
  perform c w = (evs, o) ->
  (forall e, In e evs -> is_ActionCb e = false)
  /\ m_simEnd (iface (world_of o)) = true.
Proof.
  intros E H.
  destruct (perform_cases c w) as [[w' [P S]] | [P | [w' [P S]]]];
    rewrite P in H.
  - injection H as <- <-. split; [each_event | apply S; exact E].
  - pose proof (Init_result_holds w) as R. rewrite H in R.
    destruct (Init_result_simEnd _ _ _ R) as [A S].
    split; [exact A | simpl in S; congruence].
  - apply (NotifyCurrentState_simEnd w'); [apply S; exact E | exact H].
Qed.

Lemma run_simEnd calls :
  forall (w : World) evs o,
    m_simEnd (iface w) = true ->
    run calls w = (evs, o) ->
    (forall e, In e evs -> is_ActionCb e = false)
    /\ m_simEnd (iface (world_of o)) = true.
Proof.
  induction calls as [| c rest IH]; intros w evs o E H.
  - injection H as <- <-. split; [each_event | exact E].
  - rewrite run_cons in H.
    destruct (perform c w) as [evs1 o1] eqn:P.
    destruct (perform_simEnd c w evs1 o1 E P) as [A S].
    destruct o1 as [[] w1 | code w1 | msg w1 | w1];
      try (injection H as <- <-; split; assumption).
    destruct (run rest w1) as [evs2 o2] eqn:R.
    injection H as <- <-.
    destruct (IH w1 evs2 o2 S R) as [A' S'].
    split; [| exact S'].
    intros e Hin. apply in_app_or in Hin. destruct Hin; auto.
Qed.

(** *** The handshake comes first *)

Lemma opens_handshake_first (tr : list Event) :
  opens_with_handshake tr -> handshake_first tr.
Proof.
  intros [-> | [[init ->] | [init [ack [rest ->]]]]] pre msg post E.
  - destruct pre; discriminate.
  - destruct pre as [| x [| y pre]]; discriminate.
  - destruct pre as [| x [| y pre]]; try discriminate.
    injection E as <- <- _. eauto.
Qed.

Lemma Init_result_handshake (w : World) evs o :
  m_initSimMsgSent (iface w) = false ->
  Init_result w evs o ->
  opens_with_handshake evs
  /\ (forall w', o = Returned tt w' ->
                 m_initSimMsgSent (iface w') = true
                 /\ exists init ack, evs = [SendSimInit init; RecvSimInitAck ack]).
Proof.
  unfold opens_with_handshake.
  intros F H; inversion H; subst; try congruence;
    (split; [eauto 6 | intros w' E; try discriminate]).
  injection E as <-. simpl. eauto.
Qed.

Lemma NotifyCurrentState_handshake (w : World) evs o :
  m_initSimMsgSent (iface w) = false ->
  NotifyCurrentState w = (evs, o) ->
  opens_with_handshake evs
  /\ (forall w', o = Returned tt w' ->
                 exists init ack rest,
                   evs = SendSimInit init :: RecvSimInitAck ack :: rest).
Proof.
  intros F H. pose proof (NotifyCurrentState_result_holds w) as R.
  rewrite H in R. simpl in R.
  inversion R as [? ? F' X | ? ? F' I N | ? ? ? ? F' I X]; subst;
    try congruence.
  - destruct (Init_result_handshake _ _ _ F I) as [O _].
    split; [exact O | intros w' E; exfalso; exact (N w' E)].
  - destruct (Init_result_handshake _ _ _ F I) as [_ D].
    destruct (D w1 eq_refl) as [_ [init [ack ->]]].
    split; [right; right | intros w' _]; simpl; eauto.
Qed.

Lemma perform_handshake (c : Interface.Call OpenGymSpace Env) (w : World) evs o :
  m_initSimMsgSent (iface w) = false ->
  perform c w = (evs, o) ->
  opens_with_handshake evs
  /\ (forall w', o = Returned tt w' ->
                 (m_initSimMsgSent (iface w') = false /\ evs = [])
                 \/ exists init ack rest,
                      evs = SendSimInit init :: RecvSimInitAck ack :: rest).
Proof.
  intros F H.
  destruct (perform_cases c w) as [[w' [P S]] | [P | [w' [P S]]]];
    rewrite P in H.
  - injection H as <- <-. split; [left; reflexivity |].
    intros w'' E. injection E as <-. left. split; [| reflexivity].
    destruct S as [S _]. congruence.
  - pose proof (Init_result_holds w) as R. rewrite H in R. simpl in R.
    destruct (Init_result_handshake _ _ _ F R) as [O D].
    split; [exact O |]. intros w' E. right.
    destruct (D w' E) as [_ [init [ack ->]]]. eauto.
  - assert (F' : m_initSimMsgSent (iface w') = false).
    { destruct S as [S _]. congruence. }
    destruct (NotifyCurrentState_handshake w' evs o F' H) as [O D].
    split; [exact O | intros w'' E; right; eauto].
Qed.

Lemma run_handshake calls :
  forall (w : World) evs o,
    m_initSimMsgSent (iface w) = false ->
    run calls w = (evs, o) ->
    opens_with_handshake evs.
Proof.
  induction calls as [| c rest IH]; intros w evs o F H.
  - injection H as <- <-. left; reflexivity.
  - rewrite run_cons in H.
    destruct (perform c w) as [evs1 o1] eqn:P.
    destruct (perform_handshake c w evs1 o1 F P) as [O D].
    destruct o1 as [[] w1 | code w1 | msg w1 | w1];
      try (injection H as <- <-; exact O).
    destruct (run rest w1) as [evs2 o2] eqn:R.
    injection H as <- <-.
    destruct (D w1 eq_refl) as [[F1 ->] | [init [ack [tl ->]]]].
    + simpl. exact (IH w1 evs2 o2 F1 R).
    + right; right. simpl. eauto.
Qed.

(** *** A reply that asks to stop *)

Ltac no_stop_reply :=
  match goal with
  | H : exists e, In e _ /\ is_stop_reply e = true |- _ =>
      let e := fresh "e" in
      let Hin := fresh "Hin" in
      let Hs := fresh "Hs" in
      destruct H as [e [Hin Hs]]; simpl in Hin;
      repeat (destruct Hin as [<- | Hin]; [simpl in Hs; congruence |]);
      contradiction
  end.

Lemma Init_result_stop (w : World) evs o :
  Init_result w evs o ->
  (exists e, In e evs /\ is_stop_reply e = true) ->
  (forall e, In e evs -> is_ActionCb e = false)
  /\ exists w', o = Exited 0 w'.
Proof.
  intros H S; inversion H; subst; try no_stop_reply.
  split; [each_event | eauto].
Qed.

Lemma exchange_result_stop (w : World) evs o :
  exchange_result w evs o ->
  (exists e, In e evs /\ is_stop_reply e = true) ->
  (forall e, In e evs -> is_ActionCb e = false)
  /\ ((exists w', o = Exited 0 w')
      \/ (exists w', o = Returned tt w' /\ m_simEnd (iface w') = true)).
Proof.
  intros H S; inversion H; subst; try no_stop_reply.
  - split; [each_event | right; eexists; split; [reflexivity | assumption]].
  - split; [each_event | left; eauto].
Qed.

Lemma NotifyCurrentState_stop (w : World) evs o :
  NotifyCurrentState w = (evs, o) ->
  (exists e, In e evs /\ is_stop_reply e = true) ->
  (forall e, In e evs -> is_ActionCb e = false)
  /\ ((exists w', o = Exited 0 w')
      \/ (exists w', o = Returned tt w' /\ m_simEnd (iface w') = true)).
Proof.
  intros H S. pose proof (NotifyCurrentState_result_holds w) as R.
  rewrite H in R. simpl in R.
  inversion R as [? ? F X | ? ? F I N | ? ? ? ? F I X]; subst.
  - exact (exchange_result_stop _ _ _ X S).
  - destruct (Init_result_stop _ _ _ I S) as [A E]. split; [exact A | left; exact E].
  - destruct (Init_result_handshake _ _ _ F I) as [_ D].
    destruct (D w1 eq_refl) as [_ [init [ack E]]].
    assert (S2 : exists e, In e evs2 /\ is_stop_reply e = true).
    { destruct S as [e [Hin Hs]]. apply in_app_or in Hin.
      destruct Hin as [Hin | Hin]; [| eauto].
      exfalso. inversion I; subst; try congruence.
      simpl in Hin. destruct Hin as [<- | [<- | []]]; simpl in Hs; congruence. }
    destruct (exchange_result_stop _ _ _ X S2) as [A2 T]. split; [| exact T].
    intros e Hin. apply in_app_or in Hin. destruct Hin as [Hin | Hin]; [| auto].
    rewrite E in Hin. revert e Hin. each_event.
Qed.

(** *** The claims about the protocol *)

Lemma run_Init_again (n : nat) (w : World) :
  m_initSimMsgSent (iface w) = true ->
  run (repeat (Interface.call_Init OpenGymSpace Env) n) w = ([], Returned tt w).
Proof.
  intros F. induction n as [| n IH]; [reflexivity |].
  cbn [repeat]. rewrite run_cons. cbn [Interface.perform].
  rewrite (Init_again w F), IH. reflexivity.
Qed.

(** C4. Once the init message is sent, [Init] does nothing: any number of
    further calls sends nothing, receives nothing and leaves the process as
    it is.  From a state in which it is not sent yet, one or more calls do
    what the first call does; that call sends exactly one init message,
    unless it aborts on the size of the message before sending it; and when
    the message fits and the acknowledgement does not ask to stop, the
    calls return after that one send and one receive. *)
Theorem Init_idempotent (w : World) (n : nat) :
  (m_initSimMsgSent (iface w) = true ->
   run (repeat (Interface.call_Init OpenGymSpace Env) n) w
   = ([], Returned tt w))
  /\ (m_initSimMsgSent (iface w) = false ->
      run (repeat (Interface.call_Init OpenGymSpace Env) (S n)) w = Init w
      /\ count is_SendSimInit (fst (Init w))
         = (if is_Aborted (snd (Init w)) then 0 else 1)%nat
      /\ (forall buf rest,
             py2cpp w = buf :: rest ->
             ack_stopsimreq (as_SimInitAck buf) = false ->
             (forall msg, (SimInitMsg_ByteSizeLong msg <=? MSG_BUFFER_SIZE)%N
                          = true) ->
             exists e msg,
               run (repeat (Interface.call_Init OpenGymSpace Env) (S n)) w
               = ([SendSimInit msg; RecvSimInitAck (as_SimInitAck buf)],
                  Returned tt
                    {| iface := set_initSimMsgSent true (iface w);
                       env := e; py2cpp := rest |}))).
Proof.
  split; [apply run_Init_again |]. intros F.
  assert (R : run (repeat (Interface.call_Init OpenGymSpace Env) (S n)) w
              = Init w).
  { cbn [repeat]. rewrite run_cons. cbn [Interface.perform].
    pose proof (Init_result_holds w) as I.
    destruct (Init w) as [evs [[] w1 | code w1 | msg w1 | w1]]; try reflexivity.
    simpl in I.
    destruct (Init_result_handshake _ _ _ F I) as [_ D].
    destruct (D w1 eq_refl) as [F1 _].
    rewrite (run_Init_again n w1 F1), app_nil_r. reflexivity. }
  split; [exact R | split].
  - pose proof (Init_result_holds w) as I.
    inversion I; subst; try congruence; reflexivity.
  - intros buf rest Q S Fit. rewrite R.
    destruct (Init_first w F) as [e [msg HI]]. cbv zeta in HI.
    rewrite (Fit msg), Q in HI. cbv zeta in HI. rewrite S in HI.
    exists e, msg. exact HI.
Qed.

(** C5. In any call, if a reply received carries the stop request, be it
    the acknowledgement of the init message or the action message, then the
    call does not invoke the action callback, and it ends: in [std::exit(0)],
    or, when the end of the simulation is flagged, in a plain return. *)
Theorem stop_request_ends_round
  (c : Interface.Call OpenGymSpace Env) (w : World) evs o :
  perform c w = (evs, o) ->
  (exists e, In e evs /\ is_stop_reply e = true) ->
  (forall e, In e evs -> is_ActionCb e = false)
  /\ ((exists w', o = Exited 0 w')
      \/ (exists w', o = Returned tt w' /\ m_simEnd (iface w') = true)).
Proof.
  intros H S.
  destruct (perform_cases c w) as [[w' [P _]] | [P | [w' [P _]]]];
    rewrite P in H.
  - injection H as <- <-. destruct S as [e [[] _]].
  - pose proof (Init_result_holds w) as R. rewrite H in R. simpl in R.
    destruct (Init_result_stop _ _ _ R S) as [A E].
    split; [exact A | left; exact E].
  - exact (NotifyCurrentState_stop w' evs o H S).
Qed.

(** With the end flagged and no stop requested, the exchange sends the
    state message, marked as game over by the end of the simulation,
    receives the reply and returns. *)
Lemma exchange_simEnd_delivers (w w1 w2 w3 w4 : World)
  (obs : option OpenGymDataContainer) (r : value) (g : bool) (extra : string)
  (od : option DataContainer) (buf : Py2CppStruct) (rest : list Py2CppStruct) :
  m_simEnd (iface w) = true ->
  m_stopEnvRequested (iface w) = false ->
  GetObservation w = ([], Returned obs w1) ->
  GetReward w1 = ([], Returned r w2) ->
  IsGameOver w2 = ([], Returned g w3) ->
  GetExtraInfo w3 = ([], Returned extra w4) ->
  encode_observation numeric_cast obs = Ok od ->
  py2cpp w = buf :: rest ->
  let msg := {| obsdata := od; reward := r; isgameover := true;
                reason := Some SimulationEnd; info := extra |} in
  (EnvStateMsg_ByteSizeLong msg <=? MSG_BUFFER_SIZE)%N = true ->
  exchange w
  = ([SendEnvState msg; RecvEnvAct (as_EnvActMsg buf)],
     Returned tt {| iface := iface w; env := env w4; py2cpp := rest |}).
Proof.
  intros E Hstop H1 H2 H3 H4 Henc Q msg Fit.
  destruct (getter_frame _ _ _ _ GetObservation_quiet H1) as [e1 ->].
  destruct (getter_frame _ _ _ _ GetReward_quiet H2) as [e2 ->].
  destruct (IsGameOver_quiet (with_env e2 (with_env e1 w)))
    as [g' [e3 [H3' Hg]]].
  rewrite H3' in H3. injection H3 as Eg Ew. subst g' w3.
  destruct (getter_frame _ _ _ _ GetExtraInfo_quiet H4) as [e4 ->].
  assert (G : g = true) by (apply Hg; exact E). subst g.
  rewrite (exchange_cases _ _ _ _ _ _ _ _ _ Hstop H1 H2 H3' H4).
  rewrite Henc. cbv zeta. rewrite E. fold msg. rewrite Fit.
  unfold Interface.with_env. cbn [iface env py2cpp]. rewrite Q.
  reflexivity.
Qed.

(** C6. [NotifySimulationEnd] sets the end flag and, after the handshake,
    goes through [NotifyCurrentState] at once.  With the flag set, no call
    of any later run invokes the action callback or takes the flag back;
    and [NotifyCurrentState], whether the handshake was done before or is
    still due and is acknowledged now, sends the state message with the
    observation and the reward of the callbacks, marked as game over by the
    end of the simulation, receives the action message and returns, with no
    change to the interface but the flag of the handshake. *)
Theorem simEnd_discards_action (w : World) :
  (NotifySimulationEnd w
   = let w_end := {| iface := set_simEnd true (iface w);
                     env := env w; py2cpp := py2cpp w |} in
     if m_initSimMsgSent (iface w) then NotifyCurrentState w_end
     else ([], Returned tt w_end))
  /\ (m_simEnd (iface w) = true ->
      (forall calls evs o,
          run calls w = (evs, o) ->
          (forall e, In e evs -> is_ActionCb e = false)
          /\ m_simEnd (iface (world_of o)) = true)
      /\ (m_stopEnvRequested (iface w) = false ->
          forall evs0 w0 obs w1 r w2 g w3 extra w4 od buf rest,
            Init w = (evs0, Returned tt w0) ->
            GetObservation w0 = ([], Returned obs w1) ->
            GetReward w1 = ([], Returned r w2) ->
            IsGameOver w2 = ([], Returned g w3) ->
            GetExtraInfo w3 = ([], Returned extra w4) ->
            encode_observation numeric_cast obs = Ok od ->
            py2cpp w0 = buf :: rest ->
            let msg := {| obsdata := od; reward := r; isgameover := true;
                          reason := Some SimulationEnd; info := extra |} in
            (EnvStateMsg_ByteSizeLong msg <=? MSG_BUFFER_SIZE)%N = true ->
            NotifyCurrentState w
            = (evs0 ++ [SendEnvState msg; RecvEnvAct (as_EnvActMsg buf)],
               Returned tt
                 {| iface := iface w0; env := env w4; py2cpp := rest |})
            /\ (if m_initSimMsgSent (iface w)
                then evs0 = [] /\ w0 = w
                else exists init ack,
                    evs0 = [SendSimInit init;
                            RecvSimInitAck (as_SimInitAck ack)]
                    /\ ack_stopsimreq (as_SimInitAck ack) = false
                    /\ py2cpp w = ack :: py2cpp w0
                    /\ iface w0 = set_initSimMsgSent true (iface w)))).
Proof.
  split; [| intros E; split].
  - unfold Interface.NotifySimulationEnd.
    rewrite mbind_assign, mbind_this. cbn [iface env py2cpp]. cbv zeta.
    destruct w as [i e q]. cbn [iface env py2cpp].
    change (m_initSimMsgSent (set_simEnd true i)) with (m_initSimMsgSent i).
    destruct (m_initSimMsgSent i); reflexivity.
  - intros calls evs o. apply run_simEnd. exact E.
  - intros Hstop evs0 w0 obs w1 r w2 g w3 extra w4 od buf rest HI H1 H2 H3 H4
           Henc Q msg Fit.
    destruct (m_initSimMsgSent (iface w)) eqn:F.
    + rewrite (Init_again w F) in HI. injection HI as <- <-.
      split; [| split; reflexivity].
      rewrite (NotifyCurrentState_init w F).
      exact (exchange_simEnd_delivers w w1 w2 w3 w4 obs r g extra od buf rest
               E Hstop H1 H2 H3 H4 Henc Q Fit).
    + pose proof (Init_result_holds w) as R. rewrite HI in R. simpl in R.
      inversion R as [F' | | | | e init ack rest0 F' Q0 A]; subst;
        [congruence |].
      split.
      * rewrite (NotifyCurrentState_uninit w F), HI.
        match type of H1 with
        | GetObservation ?x = _ =>
            rewrite (NotifyCurrentState_init x eq_refl);
            rewrite (exchange_simEnd_delivers x w1 w2 w3 w4 obs r g extra od
                       buf rest E Hstop H1 H2 H3 H4 Henc Q Fit)
        end.
        reflexivity.
      * exists init, ack. repeat split; assumption.
Qed.

(** C9. A [NotifyCurrentState] that finds the init message not sent yet is
    [Init] followed by [NotifyCurrentState]; so in its events, and in the
    events of every run of a new interface, a state message comes only
    after the init message and its acknowledgement, which open the trace. *)
Theorem handshake_before_state :
  (forall (w : World) evs o,
      m_initSimMsgSent (iface w) = false ->
      NotifyCurrentState w = (evs, o) ->
      NotifyCurrentState w
      = mbind _ _ _ Init (fun _ => NotifyCurrentState) w
      /\ handshake_first evs)
  /\ (forall envId (e : Env) replies calls evs o,
         run calls (start envId e replies) = (evs, o) ->
         handshake_first evs).
Proof.
  split.
  - intros w evs o F H. split.
    + rewrite (NotifyCurrentState_uninit w F). unfold mbind at 1.
      destruct (Init w) as [evs1 [[] w1 | code w1 | msg w1 | w1]]; reflexivity.
    + apply opens_handshake_first.
      exact (proj1 (NotifyCurrentState_handshake w evs o F H)).
  - intros envId e replies calls evs o H.
    apply opens_handshake_first.
    exact (run_handshake calls (start envId e replies) evs o eq_refl H).
Qed.

(** C10. With the end of the simulation flagged, [NotifyCurrentState] does
    not look at the action message it receives, whether the handshake was
    done before or in this very call: whatever the message says, and so
    also when it asks to stop, the call returns right after the receive,
    with the stop flag down and the interface as it was (but for the flag of
    the handshake), stops and destroys no simulator and runs no action.  The
    call ends in [std::exit] only on the stop request of the acknowledgement
    of a handshake that was still due, never on an action message. *)
Theorem simEnd_ignores_stop_request (w : World) evs o :
  m_simEnd (iface w) = true ->
  NotifyCurrentState w = (evs, o) ->
  (forall act,
      In (RecvEnvAct act) evs ->
      ~ In Simulator_Stop evs
      /\ ~ In Simulator_Destroy evs
      /\ (forall e, In e evs -> is_ActionCb e = false)
      /\ exists w' buf pre,
          o = Returned tt w'
          /\ evs = pre ++ [RecvEnvAct act]
          /\ act = as_EnvActMsg buf
          /\ (exists front, py2cpp w = front ++ buf :: py2cpp w')
          /\ m_stopEnvRequested (iface w') = false
          /\ m_simEnd (iface w') = true
          /\ iface w' = (if m_initSimMsgSent (iface w) then iface w
                         else set_initSimMsgSent true (iface w)))
  /\ (forall code w',
         o = Exited code w' ->
         m_initSimMsgSent (iface w) = false
         /\ exists init ack,
             evs = [SendSimInit init; RecvSimInitAck ack;
                    Simulator_Stop; Simulator_Destroy]
             /\ ack_stopsimreq ack = true)
  /\ (m_initSimMsgSent (iface w) = true ->
      forall buf rest,
        py2cpp w = buf :: rest ->
        (forall code w', o <> Exited code w')
        /\ ~ In Simulator_Stop evs
        /\ ~ In Simulator_Destroy evs
        /\ iface (world_of o) = iface w
        /\ (forall e, In e evs -> is_Recv e = true ->
                      e = RecvEnvAct (as_EnvActMsg buf)
                      /\ exists w', o = Returned tt w' /\ py2cpp w' = rest)).
Proof.
  intros E H.
  pose proof (NotifyCurrentState_result_holds w) as R.
  rewrite H in R. simpl in R.
  split; [| split].
  - intros act Hin.
    inversion R as [? ? F X | ? ? F HI N | ? w1 ? ? F HI X]; subst.
    + rewrite F.
      inversion X; subst; try congruence; simpl in Hin;
        try (intuition discriminate).
      destruct Hin as [D | [D | []]]; [discriminate D |].
      injection D as <-.
      split; [simpl; intuition discriminate |].
      split; [simpl; intuition discriminate |].
      split; [intros ev [<- | [<- | []]]; reflexivity |].
      eexists. exists buf. eexists [_]. repeat split; try eassumption.
      exists []. simpl. assumption.
    + inversion HI; subst; simpl in Hin; intuition discriminate.
    + rewrite F.
      inversion HI as [F' | | | | e init ack rest0 F' Q0 A]; subst;
        [congruence |].
      cbn [iface env py2cpp] in X.
      assert (E1 : m_simEnd (set_initSimMsgSent true (iface w)) = true)
        by exact E.
      inversion X; subst; cbn [iface env py2cpp] in *; try congruence;
        simpl in Hin; try (intuition discriminate).
      destruct Hin as [D | [D | [D | [D | []]]]]; try discriminate D.
      injection D as <-.
      split; [simpl; intuition discriminate |].
      split; [simpl; intuition discriminate |].
      split; [intros ev [<- | [<- | [<- | [<- | []]]]]; reflexivity |].
      eexists. exists buf. eexists [_; _; _]. repeat split; try eassumption.
      exists [ack]. simpl. rewrite Q0. f_equal. assumption.
  - intros code w' ->.
    inversion R as [? ? F X | ? ? F HI N | ? w1 ? ? F HI X]; subst.
    + inversion X; subst; congruence.
    + split; [exact F |].
      inversion HI; subst; try congruence.
      eexists. eexists. split; [reflexivity | assumption].
    + exfalso.
      inversion HI as [F' | | | | e init ack rest0 F' Q0 A]; subst;
        [congruence |].
      assert (E1 : m_simEnd (set_initSimMsgSent true (iface w)) = true)
        by exact E.
      inversion X; subst; cbn [iface env py2cpp] in *; congruence.
  - intros F buf rest Q.
    rewrite (NotifyCurrentState_init w F) in H.
    clear R. pose proof (exchange_result_holds w) as R.
    rewrite H in R. simpl in R.
    inversion R; subst; try congruence.
    all: try match goal with
             | H1 : py2cpp ?x = _ :: _, H2 : py2cpp ?x = _ :: _ |- _ =>
                 rewrite H1 in H2; injection H2 as <- <-
             end.
    all: (split; [intros code w' D; discriminate D |]);
      (split; [simpl; intuition discriminate |]);
      (split; [simpl; intuition discriminate |]);
      (split; [reflexivity |]).
    all: intros ev Hin Hrecv; simpl in Hin.
    + contradiction.
    + contradiction.
    + destruct Hin as [<- | [<- | []]]; [discriminate Hrecv |].
      split; [reflexivity | eexists; split; reflexivity].
Qed.
End InterfaceProperties.

(** *** Sample runs *)

Module InterfaceExamples.
Import Container Interface Sample.

Example handshake_then_step :
  sample_run [call_Notify Space nat entity; call_NotifyCurrentState Space nat]
    (start 0 0%nat [reply false; reply false; reply true])
  = ([SendSimInit {| obsspace := None; actspace := None |};
      RecvSimInitAck (as_SimInitAck (reply false));
      SendEnvState {| obsdata := Some observation_msg; reward := 1065353216%Z;
                      isgameover := false; reason := None; info := "" |};
      RecvEnvAct (as_EnvActMsg (reply false));
      ActionCb (OpenGymDiscreteContainer {| m_n := 0; m_value := 1 |});
      SendEnvState {| obsdata := Some observation_msg; reward := 1065353216%Z;
                      isgameover := false; reason := None; info := "" |};
      RecvEnvAct (as_EnvActMsg (reply true));
      Simulator_Stop; Simulator_Destroy],
     Exited 0
       {| iface := set_stopEnvRequested true (bound false true);
          env := 1%nat; py2cpp := [] |}).
Proof. reflexivity. Qed.

Lemma Init_idempotent_witness :
  (sample_run (repeat (call_Init Space nat) 3) (world false true [reply false])
   = ([], Returned tt (world false true [reply false])))
  /\ (sample_run (repeat (call_Init Space nat) 2) (start 0 0%nat [reply false])
      = sample_Init (start 0 0%nat [reply false]))
  /\ count is_SendSimInit (fst (sample_Init (start 0 0%nat [reply false])))
     = 1%nat
  /\ exists e msg,
      sample_run (repeat (call_Init Space nat) 2) (start 0 0%nat [reply false])
      = ([SendSimInit msg; RecvSimInitAck (as_SimInitAck (reply false))],
         Returned tt
           {| iface := set_initSimMsgSent true (OpenGymInterface_new Space nat 0);
              env := e; py2cpp := [] |}).
Proof.
  split.
  - exact (proj1 (Init_idempotent Space Space describe nat SimInit_size
                      EnvState_size BUFFER_SIZE cast_unused
                      (world false true [reply false]) 3) eq_refl).
  - destruct (Init_idempotent Space Space describe nat SimInit_size
                EnvState_size BUFFER_SIZE cast_unused
                (start 0 0%nat [reply false]) 1) as [_ H].
    destruct (H eq_refl) as [H1 [H2 H3]].
    split; [exact H1 | split; [exact H2 |]].
    apply (H3 (reply false) []); [reflexivity | reflexivity |].
    intros msg. reflexivity.
Defined.

Lemma stop_request_ends_round_witness :
  let r := sample_perform (call_NotifyCurrentState Space nat)
             (world false true [reply true]) in
  (exists e, In e (fst r) /\ is_stop_reply e = true)
  /\ (forall e, In e (fst r) -> is_ActionCb e = false)
  /\ ((exists w', snd r = Exited 0 w')
      \/ (exists w', snd r = Returned tt w' /\ m_simEnd (iface w') = true)).
Proof.
  intros r.
  assert (S : exists e, In e (fst r) /\ is_stop_reply e = true).
  { exists (RecvEnvAct (as_EnvActMsg (reply true))).
    split; [simpl; auto | reflexivity]. }
  split; [exact S |].
  apply (stop_request_ends_round Space Space describe nat SimInit_size
           EnvState_size BUFFER_SIZE cast_unused
           (call_NotifyCurrentState Space nat) (world false true [reply true])
           (fst r) (snd r));
    [reflexivity | exact S].
Defined.

(** The end of the simulation flagged before the handshake: the next
    [NotifyCurrentState] does the handshake and then the final exchange,
    and does not obey the stop request of the reply. *)
Example simEnd_before_handshake :
  sample_run [call_NotifySimulationEnd Space nat;
              call_NotifyCurrentState Space nat]
    (world false false [reply false; reply true])
  = ([SendSimInit {| obsspace := None; actspace := None |};
      RecvSimInitAck (as_SimInitAck (reply false));
      SendEnvState terminal_state;
      RecvEnvAct (as_EnvActMsg (reply true))],
     Returned tt (world true true [])).
Proof. reflexivity. Qed.

Lemma simEnd_discards_action_witness :
  let w := world true false [reply false; reply true] in
  (forall calls evs o,
      sample_run calls w = (evs, o) ->
      (forall e, In e evs -> is_ActionCb e = false)
      /\ m_simEnd (iface (world_of o)) = true)
  /\ sample_NotifyCurrentState w
     = ([SendSimInit {| obsspace := None; actspace := None |};
         RecvSimInitAck (as_SimInitAck (reply false));
         SendEnvState terminal_state;
         RecvEnvAct (as_EnvActMsg (reply true))],
        Returned tt (world true true []))
  /\ sample_NotifyCurrentState (world true true [reply true])
     = ([SendEnvState terminal_state; RecvEnvAct (as_EnvActMsg (reply true))],
        Returned tt (world true true [])).
Proof.
  intros w.
  destruct (simEnd_discards_action Space Space describe nat SimInit_size
              EnvState_size BUFFER_SIZE cast_unused w) as [_ H].
  destruct (H eq_refl) as [H1 H2].
  split; [exact H1 | split].
  - exact (proj1
             (H2 eq_refl
                [SendSimInit {| obsspace := None; actspace := None |};
                 RecvSimInitAck (as_SimInitAck (reply false))]
                (world true true [reply true])
                (Some observation) (world true true [reply true])
                1065353216%Z (world true true [reply true])
                true (world true true [reply true])
                "" (world true true [reply true])
                (Some observation_msg) (reply true) []
                eq_refl eq_refl eq_refl eq_refl eq_refl eq_refl eq_refl
                eq_refl)).
  - destruct (simEnd_discards_action Space Space describe nat SimInit_size
                EnvState_size BUFFER_SIZE cast_unused
                (world true true [reply true])) as [_ K].
    exact (proj1
             (proj2 (K eq_refl) eq_refl
                [] (world true true [reply true])
                (Some observation) (world true true [reply true])
                1065353216%Z (world true true [reply true])
                true (world true true [reply true])
                "" (world true true [reply true])
                (Some observation_msg) (reply true) []
                eq_refl eq_refl eq_refl eq_refl eq_refl eq_refl eq_refl
                eq_refl)).
Defined.

Lemma handshake_before_state_witness :
  let w := world false false [reply false; reply false] in
  let calls := [call_Notify Space nat entity; call_NotifyCurrentState Space nat] in
  let replies := [reply false; reply false; reply true] in
  (sample_NotifyCurrentState w
   = mbind _ _ _ sample_Init (fun _ => sample_NotifyCurrentState) w
   /\ handshake_first (fst (sample_NotifyCurrentState w)))
  /\ handshake_first (fst (sample_run calls (start 0 0%nat replies))).
Proof.
  intros w calls replies.
  destruct (handshake_before_state Space Space describe nat SimInit_size
              EnvState_size BUFFER_SIZE cast_unused) as [H1 H2].
  split.
  - apply (H1 w (fst (sample_NotifyCurrentState w))
              (snd (sample_NotifyCurrentState w)));
      reflexivity.
  - apply (H2 0%N 0%nat replies calls
              (fst (sample_run calls (start 0 0%nat replies)))
              (snd (sample_run calls (start 0 0%nat replies)))).
    reflexivity.
Defined.

Lemma simEnd_ignores_stop_request_witness :
  let w := world true false [reply false; reply true] in
  let evs := [SendSimInit {| obsspace := None; actspace := None |};
              RecvSimInitAck (as_SimInitAck (reply false));
              SendEnvState terminal_state;
              RecvEnvAct (as_EnvActMsg (reply true))] in
  let r := sample_NotifyCurrentState (world true true [reply true]) in
  (sample_NotifyCurrentState w = (evs, Returned tt (world true true []))
   /\ stopsimreq (as_EnvActMsg (reply true)) = true
   /\ ~ In Simulator_Stop evs
   /\ ~ In Simulator_Destroy evs
   /\ (forall e, In e evs -> is_ActionCb e = false)
   /\ exists w' buf pre,
       Returned tt (world true true []) = Returned tt w'
       /\ evs = pre ++ [RecvEnvAct (as_EnvActMsg (reply true))]
       /\ as_EnvActMsg (reply true) = as_EnvActMsg buf
       /\ (exists front, py2cpp w = front ++ buf :: py2cpp w')
       /\ m_stopEnvRequested (iface w') = false
       /\ m_simEnd (iface w') = true
       /\ iface w' = set_initSimMsgSent true (iface w))
  /\ ((forall code w', snd r <> Exited code w')
      /\ ~ In Simulator_Stop (fst r)
      /\ ~ In Simulator_Destroy (fst r)
      /\ iface (world_of (snd r)) = bound true true
      /\ (forall e, In e (fst r) -> is_Recv e = true ->
                    e = RecvEnvAct (as_EnvActMsg (reply true))
                    /\ exists w', snd r = Returned tt w' /\ py2cpp w' = [])).
Proof.
  intros w evs r. split.
  - split; [reflexivity | split; [reflexivity |]].
    exact (proj1
             (simEnd_ignores_stop_request Space Space describe nat
                SimInit_size EnvState_size BUFFER_SIZE cast_unused
                w evs (Returned tt (world true true [])) eq_refl eq_refl)
             (as_EnvActMsg (reply true))
             (or_intror (or_intror (or_intror (or_introl eq_refl))))).
  - apply (proj2 (proj2
             (simEnd_ignores_stop_request Space Space describe nat
                SimInit_size EnvState_size BUFFER_SIZE cast_unused
                (world true true [reply true]) (fst r) (snd r)
                eq_refl eq_refl))
             eq_refl (reply true) []).
    reflexivity.
Defined.
End InterfaceExamples.

(** ** More on the containers *)

Module StdMapLookup.
Import StdMap StdMapFacts.
Section Lookup.
Context {V : Type}.
Implicit Types (m : StdMap.t V) (k : string) (v : V).

(** After [insert], the key is bound: to the value it had, or else to the
    new one. *)
Lemma find_insert_same k v m :
  find k (insert k v m)
  = match find k m with Some old => Some old | None => Some v end.
Proof.
  induction m as [| [k0 v0] rest IH]; simpl.
  - rewrite compare_refl. reflexivity.
  - destruct (String.compare k k0) eqn:C; simpl.
    + rewrite C. reflexivity.
    + rewrite compare_refl. reflexivity.
    + rewrite C. exact IH.
Qed.

(** [insert] leaves the other keys as they were. *)
Lemma find_insert_other k k' v m :
  k' <> k -> find k' (insert k v m) = find k' m.
Proof.
  intros N. induction m as [| [k0 v0] rest IH]; simpl.
  - destruct (String.compare k' k) eqn:C; try reflexivity.
    apply compare_Eq in C. contradiction.
  - destruct (String.compare k k0) eqn:C; simpl.
    + reflexivity.
    + destruct (String.compare k' k) eqn:C'.
      * apply compare_Eq in C'. contradiction.
      * assert (L : lt k' k0) by (eapply lt_trans; [exact C' | exact C]).
        unfold lt in L. rewrite L. reflexivity.
      * reflexivity.
    + destruct (String.compare k' k0); [reflexivity | reflexivity | exact IH].
Qed.
End Lookup.
End StdMapLookup.

Section ContainerExtras.
Import Container.

Variable numeric_cast : CType -> CType -> value -> value.
Variable to_string_other : CType -> value -> string.

(** *** Boxes and tuples as vectors *)

Lemma vector_at_nth {A : Type} (v : list A) (idx : N) (d : A) :
  (idx < vector_size v)%N -> vector_at v idx = Ok (nth (N.to_nat idx) v d).
Proof.
  unfold vector_size, vector_at. intros H.
  destruct (nth_error v (N.to_nat idx)) as [a |] eqn:E.
  - rewrite (nth_error_nth v _ d E). reflexivity.
  - apply nth_error_None in E. lia.
Qed.

Lemma Box_GetValue_nth (idx : N) (b : OpenGymBoxContainer) :
  Box_GetValue idx b = Ok (nth (N.to_nat idx) (m_data b) 0%Z).
Proof.
  unfold Box_GetValue. cbv zeta.
  destruct (idx <? vector_size (m_data b))%N eqn:C.
  - apply N.ltb_lt in C. rewrite (@vector_at_nth value _ _ 0%Z C). reflexivity.
  - apply N.ltb_ge in C. unfold vector_size in C.
    rewrite nth_overflow by lia. reflexivity.
Qed.

(** X1. [AddValue] returns true and appends: the new value is read back at
    the old size, the values before it are read as before, every larger
    index still reads 0, and the element type, shape and dtype stay. *)
Theorem Box_AddValue_GetValue (v : value) (b : OpenGymBoxContainer) (idx : N) :
  let b' := fst (Box_AddValue v b) in
  snd (Box_AddValue v b) = true
  /\ Box_GetValue idx b'
     = (if (idx <? vector_size (m_data b))%N then Box_GetValue idx b
        else if (idx =? vector_size (m_data b))%N then Ok v
             else Ok 0%Z)
  /\ vector_size (m_data b') = (vector_size (m_data b) + 1)%N
  /\ (box_T b', m_shape b', m_dtype b') = (box_T b, m_shape b, m_dtype b).
Proof.
  cbv zeta. split; [reflexivity | split; [| split; [| reflexivity]]].
  - rewrite !Box_GetValue_nth. simpl. unfold push_back, vector_size.
    destruct (idx <? N.of_nat (List.length (m_data b)))%N eqn:C.
    + apply N.ltb_lt in C. rewrite app_nth1 by lia. reflexivity.
    + apply N.ltb_ge in C.
      destruct (idx =? N.of_nat (List.length (m_data b)))%N eqn:E.
      * apply N.eqb_eq in E. subst idx. rewrite Nnat.Nat2N.id.
        rewrite nth_middle. reflexivity.
      * apply N.eqb_neq in E. rewrite nth_overflow; [reflexivity |].
        rewrite length_app. simpl. lia.
  - simpl. unfold push_back, vector_size. rewrite length_app. simpl. lia.
Qed.

(** X2. [SetData] returns true and replaces the data and nothing else;
    [GetData] gives the data back and [GetValue] reads its elements, 0 past
    the end. *)
Theorem Box_SetData_GetData (data : list value) (b : OpenGymBoxContainer)
  (idx : N) :
  let b' := fst (Box_SetData data b) in
  snd (Box_SetData data b) = true
  /\ Box_GetData b' = data
  /\ Box_GetValue idx b' = Ok (nth (N.to_nat idx) data 0%Z)
  /\ (box_T b', Box_GetShape b', m_dtype b') = (box_T b, m_shape b, m_dtype b).
Proof.
  cbv zeta. split; [reflexivity | split; [reflexivity | split]].
  - apply Box_GetValue_nth.
  - reflexivity.
Qed.

Lemma Tuple_Get_nth_error (idx : N) (m_tuple : list OpenGymDataContainer) :
  Tuple_Get idx m_tuple = Ok (nth_error m_tuple (N.to_nat idx)).
Proof.
  unfold Tuple_Get, vector_at, vector_size. cbv zeta.
  destruct (idx <? N.of_nat (List.length m_tuple))%N eqn:C.
  - apply N.ltb_lt in C.
    destruct (nth_error m_tuple (N.to_nat idx)) eqn:E; [reflexivity |].
    apply nth_error_None in E. lia.
  - apply N.ltb_ge in C.
    assert (E : nth_error m_tuple (N.to_nat idx) = None)
      by (apply nth_error_None; lia).
    rewrite E. reflexivity.
Qed.

(** X3. [Add] on a tuple returns true and appends: the new element is read
    back at the old length, the elements before it are read as before, and
    every larger index still reads the null container. *)
Theorem Tuple_Add_Get (c : OpenGymDataContainer)
  (m_tuple : list OpenGymDataContainer) (idx : N) :
  snd (Tuple_Add c m_tuple) = true
  /\ Tuple_Get idx (fst (Tuple_Add c m_tuple))
     = (if (idx <? vector_size m_tuple)%N then Tuple_Get idx m_tuple
        else if (idx =? vector_size m_tuple)%N then Ok (Some c)
             else Ok None).
Proof.
  split; [reflexivity |].
  rewrite !Tuple_Get_nth_error. simpl. unfold push_back, vector_size.
  destruct (idx <? N.of_nat (List.length m_tuple))%N eqn:C.
  - apply N.ltb_lt in C. rewrite nth_error_app1 by lia. reflexivity.
  - apply N.ltb_ge in C.
    destruct (idx =? N.of_nat (List.length m_tuple))%N eqn:E.
    + apply N.eqb_eq in E. subst idx. rewrite Nnat.Nat2N.id.
      rewrite nth_error_app2 by lia. rewrite Nat.sub_diag. reflexivity.
    + apply N.eqb_neq in E. f_equal. apply nth_error_None.
      rewrite length_app. simpl. lia.
Qed.

(** *** Dicts as maps *)

(** X4. [Add] on a dict returns true, binds the key unless it was bound
    (then it keeps its value), and leaves every other key as it was. *)
Theorem Dict_Add_Get (key key' : string) (data : OpenGymDataContainer)
  (m_dict : StdMap.t OpenGymDataContainer) :
  snd (Dict_Add key data m_dict) = true
  /\ Dict_Get key' (fst (Dict_Add key data m_dict))
     = (if String.eqb key' key
        then match StdMap.find key m_dict with
             | Some old => Ok (Some old)
             | None => Ok (Some data)
             end
        else Dict_Get key' m_dict).
Proof.
  split; [reflexivity |].
  rewrite !Dict_Get_find. simpl.
  destruct (String.eqb_spec key' key) as [-> | N].
  - rewrite StdMapLookup.find_insert_same.
    destruct (StdMap.find key m_dict); reflexivity.
  - rewrite (StdMapLookup.find_insert_other _ _ _ _ N). reflexivity.
Qed.

Lemma fold_Add_find (adds : list (string * OpenGymDataContainer)) :
  forall m_dict key,
    StdMap.find key
      (fold_left (fun m it => fst (Dict_Add (fst it) (snd it) m)) adds m_dict)
    = match StdMap.find key m_dict with
      | Some c => Some c
      | None => first_added key adds
      end.
Proof.
  induction adds as [| [k c] rest IH]; simpl; intros d key.
  - destruct (StdMap.find key d); reflexivity.
  - rewrite IH.
    destruct (String.eqb_spec key k) as [-> | N].
    + rewrite StdMapLookup.find_insert_same.
      destruct (StdMap.find k d); reflexivity.
    + rewrite (StdMapLookup.find_insert_other _ _ _ _ N). reflexivity.
Qed.

(** X5. In a dict filled by a sequence of [Add]s, a key is bound to the
    value of the first [Add] under it, and to nothing if there was none:
    later [Add]s under the same key are lost. *)
Theorem Dict_first_Add_wins (adds : list (string * OpenGymDataContainer))
  (key : string) :
  Dict_Get key (Dict_of_adds adds) = Ok (first_added key adds).
Proof.
  rewrite Dict_Get_find. unfold Dict_of_adds.
  rewrite fold_Add_find. reflexivity.
Qed.

(** *** What the decoder accepts and what it builds *)

Lemma Tuple_decode_each_supported (l : list DataContainer) :
  Forall (fun m => decodes_as (supported m) (CreateFromDataContainerPbMsg m)) l ->
  forall acc, decodes_as (forallb supported l) (Tuple_decode_each l acc).
Proof.
  induction l as [| m rest IH]; intros HF acc.
  - reflexivity.
  - inversion HF as [| ? ? Hm Hrest]; subst.
    cbn [Tuple_decode_each forallb]. fold Tuple_decode_each.
    destruct (CreateFromDataContainerPbMsg m) as [c | msg | what];
      simpl in Hm |- *.
    + rewrite Hm. simpl. apply IH. exact Hrest.
    + destruct Hm as [-> D]. simpl. split; [reflexivity | exact D].
    + contradiction.
Qed.

Lemma Dict_decode_each_supported (l : list DataContainer) :
  Forall (fun m => decodes_as (supported m) (CreateFromDataContainerPbMsg m)) l ->
  forall acc, decodes_as (forallb supported l) (Dict_decode_each l acc).
Proof.
  induction l as [| m rest IH]; intros HF acc.
  - reflexivity.
  - inversion HF as [| ? ? Hm Hrest]; subst.
    cbn [Dict_decode_each forallb]. fold Dict_decode_each.
    destruct (CreateFromDataContainerPbMsg m) as [c | msg | what];
      simpl in Hm |- *.
    + rewrite Hm. simpl. apply IH. exact Hrest.
    + destruct Hm as [-> D]. simpl. split; [reflexivity | exact D].
    + contradiction.
Qed.

Lemma decode_decodes_as (m : DataContainer) :
  decodes_as (supported m) (CreateFromDataContainerPbMsg m).
Proof.
  induction m as [n | n d | n b | n l IH | n l IH] using DataContainer_ind'.
  - simpl. split; [reflexivity | right; reflexivity].
  - reflexivity.
  - simpl. destruct (dtype b); simpl; try reflexivity.
    split; [reflexivity | left; reflexivity].
  - pose proof (Tuple_decode_each_supported l IH []) as H.
    change (decodes_as (forallb supported l)
              (bind (Tuple_decode_each l [])
                    (fun t => Ok (OpenGymTupleContainer t)))).
    destruct (Tuple_decode_each l []); exact H.
  - pose proof (Dict_decode_each_supported l IH StdMap.empty) as H.
    change (decodes_as (forallb supported l)
              (bind (Dict_decode_each l StdMap.empty)
                    (fun d => Ok (OpenGymDictContainer d)))).
    destruct (Dict_decode_each l StdMap.empty); exact H.
Qed.

(** X6. The decoder builds a container exactly from the messages whose data
    case is set and whose boxes have one of the four dtypes, at every depth;
    on any other message it aborts, with one of its two messages; it never
    throws. *)
Theorem decode_succeeds_iff_supported (m : DataContainer) :
  match CreateFromDataContainerPbMsg m with
  | Ok _ => supported m = true
  | Abort msg =>
      supported m = false
      /\ (msg = "Unsupported data type"
          \/ msg = "Unsupported data container type")
  | Throw _ => False
  end.
Proof. exact (decode_decodes_as m). Qed.

Lemma Tuple_decode_each_from_wire (l : list DataContainer) :
  Forall (fun m => forall c, CreateFromDataContainerPbMsg m = Ok c -> from_wire c)
         l ->
  forall acc res,
    Forall from_wire acc ->
    Tuple_decode_each l acc = Ok res ->
    Forall from_wire res.
Proof.
  induction l as [| m rest IH]; intros HF acc res Hacc H.
  - simpl in H. injection H as <-. exact Hacc.
  - inversion HF as [| ? ? Hm Hrest]; subst.
    cbn [Tuple_decode_each] in H. fold Tuple_decode_each in H.
    destruct (CreateFromDataContainerPbMsg m) as [c | msg | what];
      cbn [bind] in H; try discriminate.
    apply (IH Hrest _ _ (proj2 (Forall_app _ _ _)
                           (conj Hacc (Forall_cons _ (Hm c eq_refl)
                                         (Forall_nil _)))) H).
Qed.

Lemma insert_Forall {V : Type} (P : string * V -> Prop) k v (m : StdMap.t V) :
  P (k, v) -> Forall P m -> Forall P (StdMap.insert k v m).
Proof.
  intros Hk. induction m as [| [k0 v0] rest IH]; simpl; intros HF.
  - constructor; [exact Hk | constructor].
  - inversion HF as [| ? ? H0 Hrest]; subst.
    destruct (String.compare k k0).
    + exact HF.
    + constructor; [exact Hk | exact HF].
    + constructor; [exact H0 | apply IH; exact Hrest].
Qed.

Lemma Dict_decode_each_from_wire (l : list DataContainer) :
  Forall (fun m => forall c, CreateFromDataContainerPbMsg m = Ok c -> from_wire c)
         l ->
  forall acc res,
    StdMap.ordered acc ->
    Forall (fun it => from_wire (snd it)) acc ->
    Dict_decode_each l acc = Ok res ->
    StdMap.ordered res /\ Forall (fun it => from_wire (snd it)) res.
Proof.
  induction l as [| m rest IH]; intros HF acc res Hord Hacc H.
  - simpl in H. injection H as <-. split; assumption.
  - inversion HF as [| ? ? Hm Hrest]; subst.
    cbn [Dict_decode_each] in H. fold Dict_decode_each in H.
    destruct (CreateFromDataContainerPbMsg m) as [c | msg | what];
      cbn [bind] in H; try discriminate.
    apply (IH Hrest _ _ (StdMapFacts.insert_ordered _ _ _ Hord)
              (insert_Forall _ _ _ _ (Hm c eq_refl) Hacc) H).
Qed.

Lemma decoded_from_wire (m : DataContainer) :
  forall c, CreateFromDataContainerPbMsg m = Ok c -> from_wire c.
Proof.
  induction m as [n | n d | n b | n l IH | n l IH] using DataContainer_ind';
    intros c H.
  - discriminate.
  - simpl in H. injection H as <-. split; [constructor | reflexivity].
  - simpl in H.
    destruct (dtype b); simpl in H; try discriminate; injection H as <-;
      (split; [apply wf_Box; split; reflexivity | reflexivity]).
  - change (bind (Tuple_decode_each l [])
                 (fun t => Ok (OpenGymTupleContainer t)) = Ok c) in H.
    destruct (Tuple_decode_each l []) as [res | |] eqn:E; simpl in H;
      try discriminate.
    injection H as <-.
    pose proof (Tuple_decode_each_from_wire l IH [] res (Forall_nil _) E) as F.
    split.
    + apply wf_Tuple. eapply Forall_impl; [| exact F]. intros a [W _]. exact W.
    + simpl. f_equal. clear E. induction F as [| a r [_ Ha] _ IHr].
      * reflexivity.
      * simpl. rewrite Ha, IHr. reflexivity.
  - change (bind (Dict_decode_each l StdMap.empty)
                 (fun d => Ok (OpenGymDictContainer d)) = Ok c) in H.
    destruct (Dict_decode_each l StdMap.empty) as [res | |] eqn:E; simpl in H;
      try discriminate.
    injection H as <-.
    destruct (Dict_decode_each_from_wire l IH StdMap.empty res) as [O F];
      [constructor | constructor | exact E |].
    split.
    + apply wf_Dict; [exact O |].
      eapply Forall_impl; [| exact F]. intros a [W _]. exact W.
    + simpl. f_equal. clear E O. induction F as [| [k a] r [_ Ha] _ IHr].
      * reflexivity.
      * simpl in *. rewrite Ha, IHr. reflexivity.
Qed.

(** X7. Whatever the decoder builds is a well-formed container (boxes of an
    instantiated element type with the matching dtype, dict entries in key
    order) without shapes or bounds, and such a container survives the wire
    exactly: encoding and decoding it gives it back. *)
Theorem decoded_roundtrips_exactly (m : DataContainer) (c : OpenGymDataContainer) :
  CreateFromDataContainerPbMsg m = Ok c ->
  wf c
  /\ shapeless c = true
  /\ decode_encode numeric_cast c = Ok c.
Proof.
  intros H. destruct (decoded_from_wire m c H) as [W R].
  split; [exact W | split].
  - rewrite <- R. clear.
    induction c as [d | b | l IH | d IH] using container_ind'; simpl.
    + reflexivity.
    + reflexivity.
    + induction IH as [| x r Hx _ IHr]; simpl; [reflexivity |].
      rewrite Hx. exact IHr.
    + induction IH as [| [k x] r Hx _ IHr]; simpl; [reflexivity |].
      simpl in Hx. rewrite Hx. exact IHr.
  - rewrite <- R at 2. apply decode_encode_received. exact W.
Qed.

(** *** What the encoder writes *)

(** X8. A constructed box is encoded into a box message with its shape and
    dtype and with its data in the typed array that the dtype names; the
    other three arrays are empty. *)
Theorem Box_encode_one_array (b : OpenGymBoxContainer) :
  Box_wf b ->
  exists boxMsg,
    Box_GetDataContainerPbMsg numeric_cast b = Ok (kBox "" boxMsg)
    /\ shape boxMsg = m_shape b
    /\ dtype boxMsg = m_dtype b
    /\ payload boxMsg = m_data b
    /\ intData boxMsg ++ uintData boxMsg ++ floatData boxMsg
       ++ doubleData boxMsg = m_data b.
Proof.
  destruct b as [T sh dt data]. unfold Box_wf; simpl. intros [HT HD].
  destruct T; try discriminate HT; simpl in HD;
    injection HD as <-;
    unfold Box_GetDataContainerPbMsg, Box_GetData, Box_GetShape; simpl;
    rewrite convert_same; eexists; (split; [reflexivity |]);
    unfold payload; simpl; rewrite ?app_nil_r; auto.
Qed.

Lemma encode_unnamed (c : OpenGymDataContainer) (m : DataContainer) :
  GetDataContainerPbMsg numeric_cast c = Ok m -> name m = "".
Proof.
  destruct c as [d | b | l | d]; intros E.
  - simpl in E. injection E as <-. reflexivity.
  - simpl in E. unfold Box_GetDataContainerPbMsg in E.
    destruct (m_dtype b); try discriminate; injection E as <-; reflexivity.
  - change (bind (Tuple_encode_each numeric_cast l)
                 (fun e => Ok (kTuple "" e)) = Ok m) in E.
    destruct (Tuple_encode_each numeric_cast l); cbn [bind] in E;
      try discriminate.
    injection E as <-. reflexivity.
  - change (bind (Dict_encode_each numeric_cast d)
                 (fun e => Ok (kDict "" e)) = Ok m) in E.
    destruct (Dict_encode_each numeric_cast d); cbn [bind] in E;
      try discriminate.
    injection E as <-. reflexivity.
Qed.

Lemma Tuple_encode_each_unnamed (l : list OpenGymDataContainer) :
  forall els,
    Tuple_encode_each numeric_cast l = Ok els ->
    List.length els = List.length l /\ Forall (fun m => name m = "") els.
Proof.
  induction l as [| c rest IH]; intros els E.
  - injection E as <-. split; [reflexivity | constructor].
  - cbn [Tuple_encode_each] in E. fold (Tuple_encode_each numeric_cast) in E.
    destruct (GetDataContainerPbMsg numeric_cast c) as [m | |] eqn:C;
      cbn [bind] in E; try discriminate.
    destruct (Tuple_encode_each numeric_cast rest) as [more | |];
      cbn [bind] in E; try discriminate.
    injection E as <-. destruct (IH more eq_refl) as [L F].
    split; [simpl; congruence |].
    constructor; [exact (encode_unnamed c m C) | exact F].
Qed.

Lemma Dict_encode_each_keys (d : list (string * OpenGymDataContainer)) :
  forall els,
    Dict_encode_each numeric_cast d = Ok els -> map name els = StdMap.keys d.
Proof.
  induction d as [| [k c] rest IH]; intros els E.
  - injection E as <-. reflexivity.
  - cbn [Dict_encode_each] in E. fold (Dict_encode_each numeric_cast) in E.
    destruct (GetDataContainerPbMsg numeric_cast c) as [m | |];
      cbn [bind] in E; try discriminate.
    destruct (Dict_encode_each numeric_cast rest) as [more | |];
      cbn [bind] in E; try discriminate.
    injection E as <-. simpl. rewrite name_set_name, (IH more eq_refl).
    reflexivity.
Qed.

(** X10. The message of a dict carries one element for each entry, named by
    its key, in key order; the message of a tuple carries one unnamed
    element for each element of the tuple; the message itself is unnamed. *)
Theorem encode_names_elements (c : OpenGymDataContainer) (m : DataContainer) :
  GetDataContainerPbMsg numeric_cast c = Ok m ->
  name m = ""
  /\ match c with
     | OpenGymDictContainer m_dict =>
         exists els, m = kDict "" els /\ map name els = StdMap.keys m_dict
     | OpenGymTupleContainer m_tuple =>
         exists els, m = kTuple "" els
                     /\ List.length els = List.length m_tuple
                     /\ Forall (fun e => name e = "") els
     | OpenGymBox b => exists boxMsg, m = kBox "" boxMsg
     | OpenGymDiscreteContainer d => m = kDiscrete "" (m_value d)
     end.
Proof.
  intros E. split; [exact (encode_unnamed c m E) |].
  destruct c as [d | b | l | d].
  - simpl in E. injection E as <-. reflexivity.
  - simpl in E. unfold Box_GetDataContainerPbMsg in E.
    destruct (m_dtype b); try discriminate; injection E as <-; eauto.
  - change (bind (Tuple_encode_each numeric_cast l)
                 (fun e => Ok (kTuple "" e)) = Ok m) in E.
    destruct (Tuple_encode_each numeric_cast l) as [els | |] eqn:T;
      cbn [bind] in E; try discriminate.
    injection E as <-. exists els. split; [reflexivity |].
    exact (Tuple_encode_each_unnamed l els T).
  - change (bind (Dict_encode_each numeric_cast d)
                 (fun e => Ok (kDict "" e)) = Ok m) in E.
    destruct (Dict_encode_each numeric_cast d) as [els | |] eqn:T;
      cbn [bind] in E; try discriminate.
    injection E as <-. exists els. split; [reflexivity |].
    exact (Dict_encode_each_keys d els T).
Qed.

(** *** Printing after the wire *)

Lemma Print_received (c : OpenGymDataContainer) :
  Print to_string_other (received c) = Print to_string_other c.
Proof.
  induction c as [d | b | l IH | d IH] using container_ind'.
  - reflexivity.
  - reflexivity.
  - assert (E : map (Print to_string_other) (map received l)
                = map (Print to_string_other) l).
    { induction IH as [| x r Hx _ IHr]; [reflexivity |].
      cbn [map]. rewrite Hx, IHr. reflexivity. }
    change (("Tuple(" ++ join (map (Print to_string_other) (map received l))
             ++ ")")%string
            = ("Tuple(" ++ join (map (Print to_string_other) l) ++ ")")%string).
    rewrite E. reflexivity.
  - assert (E : map (fun it => (fst it ++ "=" ++ Print to_string_other (snd it))%string)
                    (map (fun it => (fst it, received (snd it))) d)
                = map (fun it => (fst it ++ "=" ++ Print to_string_other (snd it))%string)
                      d).
    { induction IH as [| [k x] r Hx _ IHr]; [reflexivity |].
      cbn [map fst snd] in *. rewrite Hx, IHr. reflexivity. }
    change (("Dict("
             ++ join (map (fun it => (fst it ++ "="
                                      ++ Print to_string_other (snd it))%string)
                          (map (fun it => (fst it, received (snd it))) d))
             ++ ")")%string
            = ("Dict("
               ++ join (map (fun it => (fst it ++ "="
                                        ++ Print to_string_other (snd it))%string)
                            d)
               ++ ")")%string).
    rewrite E. reflexivity.
Qed.

(** X11. [Print] does not show the shape of a box or the bound of a
    discrete, so a well-formed container prints the same text before and
    after it went over the wire. *)
Theorem Print_survives_wire (c : OpenGymDataContainer) :
  wf c ->
  exists c',
    decode_encode numeric_cast c = Ok c'
    /\ Print to_string_other c' = Print to_string_other c.
Proof.
  intros W. exists (received c). split.
  - apply decode_encode_received. exact W.
  - apply Print_received.
Qed.
End ContainerExtras.

Module ContainerExtraExamples.
Import Container Sample.

Lemma decoded_roundtrips_exactly_witness :
  CreateFromDataContainerPbMsg observation_msg = Ok (received observation)
  /\ wf (received observation)
  /\ shapeless (received observation) = true
  /\ decode_encode cast_unused (received observation)
     = Ok (received observation).
Proof.
  split; [reflexivity |].
  apply (decoded_roundtrips_exactly cast_unused observation_msg
           (received observation)).
  reflexivity.
Defined.

Lemma Box_encode_one_array_witness :
  exists boxMsg,
    Box_GetDataContainerPbMsg cast_unused pos_shaped = Ok (kBox "" boxMsg)
    /\ shape boxMsg = [2%N]
    /\ dtype boxMsg = FLOAT
    /\ payload boxMsg = pos_data
    /\ intData boxMsg ++ uintData boxMsg ++ floatData boxMsg
       ++ doubleData boxMsg = pos_data.
Proof.
  apply (Box_encode_one_array cast_unused pos_shaped).
  split; reflexivity.
Defined.

Lemma encode_names_elements_witness :
  name observation_msg = ""
  /\ exists els,
      observation_msg = kDict "" els /\ map name els = ["n"; "pos"].
Proof.
  apply (encode_names_elements cast_unused observation observation_msg).
  reflexivity.
Defined.

Lemma Print_survives_wire_witness :
  exists c',
    decode_encode cast_unused observation = Ok c'
    /\ Print to_string_bits c' = Print to_string_bits observation.
Proof.
  apply (Print_survives_wire cast_unused to_string_bits observation).
  apply wf_Dict.
  - unfold StdMap.ordered, StdMap.lt. simpl. repeat constructor.
  - repeat constructor.
Defined.
End ContainerExtraExamples.

(** ** More on the gym interface *)

Section InterfaceExtras.
Import Container Interface.

Variable OpenGymSpace : Type.
Variable SpaceDescription : Type.
Variable GetSpaceDescription : OpenGymSpace -> SpaceDescription.
Variable Env : Type.
Variable SimInitMsg_ByteSizeLong : SimInitMsg SpaceDescription -> N.
Variable EnvStateMsg_ByteSizeLong : EnvStateMsg -> N.
Variable MSG_BUFFER_SIZE : N.
Variable numeric_cast : CType -> CType -> value -> value.

Local Abbreviation World := (Interface.World OpenGymSpace Env).
Local Abbreviation Event := (Interface.Event SpaceDescription).
Local Abbreviation M := (Interface.M OpenGymSpace SpaceDescription Env).
Local Abbreviation Call := (Interface.Call OpenGymSpace Env).
Local Abbreviation GetObservation :=
  (@Interface.GetObservation OpenGymSpace SpaceDescription Env).
Local Abbreviation GetReward :=
  (@Interface.GetReward OpenGymSpace SpaceDescription Env).
Local Abbreviation IsGameOver :=
  (@Interface.IsGameOver OpenGymSpace SpaceDescription Env).
Local Abbreviation GetExtraInfo :=
  (@Interface.GetExtraInfo OpenGymSpace SpaceDescription Env).
Local Abbreviation Init :=
  (Interface.Init GetSpaceDescription SimInitMsg_ByteSizeLong MSG_BUFFER_SIZE).
Local Abbreviation NotifyCurrentState :=
  (Interface.NotifyCurrentState GetSpaceDescription SimInitMsg_ByteSizeLong
     EnvStateMsg_ByteSizeLong MSG_BUFFER_SIZE numeric_cast).
Local Abbreviation Notify :=
  (Interface.Notify GetSpaceDescription SimInitMsg_ByteSizeLong
     EnvStateMsg_ByteSizeLong MSG_BUFFER_SIZE numeric_cast).
Local Abbreviation exchange :=
  (@Interface.NotifyCurrentState_exchange OpenGymSpace SpaceDescription Env
     EnvStateMsg_ByteSizeLong MSG_BUFFER_SIZE numeric_cast).
Local Abbreviation perform :=
  (Interface.perform GetSpaceDescription SimInitMsg_ByteSizeLong
     EnvStateMsg_ByteSizeLong MSG_BUFFER_SIZE numeric_cast).
Local Abbreviation run :=
  (Interface.run GetSpaceDescription SimInitMsg_ByteSizeLong
     EnvStateMsg_ByteSizeLong MSG_BUFFER_SIZE numeric_cast).
Local Abbreviation with_env := (@Interface.with_env OpenGymSpace Env).
Local Abbreviation Init_result :=
  (@Interface.Init_result OpenGymSpace SpaceDescription Env).
Local Abbreviation exchange_result :=
  (@Interface.exchange_result OpenGymSpace SpaceDescription Env).
Local Abbreviation NotifyCurrentState_result :=
  (@Interface.NotifyCurrentState_result OpenGymSpace SpaceDescription Env).

(** *** A way to prove a property of every run

    A property of the events and the outcome of a run holds for every run
    if [Init] and the exchange have it, a call that only sets callbacks or
    the end flag has it, and it goes through to a sequence of calls. *)
Section RunInvariant.
Variable I : World -> Prop.
Variable Q : World -> list Event -> outcome OpenGymSpace Env unit -> Prop.

Hypothesis I_same : forall w w', same_protocol_state w w' -> I w -> I w'.
Hypothesis Q_same :
  forall w w' evs o, same_protocol_state w w' -> Q w' evs o -> Q w evs o.
Hypothesis Q_silent :
  forall w w', I w -> same_protocol_state w w' -> Q w [] (Returned tt w').
Hypothesis Q_Init :
  forall w evs o,
    I w -> Init_result w evs o ->
    Q w evs o /\ (forall w', o = Returned tt w' -> I w').
Hypothesis Q_exchange :
  forall w evs o,
    I w -> exchange_result w evs o ->
    Q w evs o /\ (forall w', o = Returned tt w' -> I w').
Hypothesis Q_seq :
  forall w evs1 w1 evs2 o,
    Q w evs1 (Returned tt w1) -> Q w1 evs2 o -> Q w (evs1 ++ evs2) o.

Lemma NotifyCurrentState_invariant (w : World) evs o :
  I w -> NotifyCurrentState_result w evs o ->
  Q w evs o /\ (forall w', o = Returned tt w' -> I w').
Proof.
  intros Hi R.
  inversion R as [? ? F X | ? ? F Hin N | ? ? ? ? F Hin X]; subst.
  - exact (Q_exchange w evs o Hi X).
  - exact (Q_Init w evs o Hi Hin).
  - destruct (Q_Init w evs1 _ Hi Hin) as [Q1 I1].
    destruct (Q_exchange w1 evs2 o (I1 w1 eq_refl) X) as [Q2 I2].
    split; [exact (Q_seq _ _ _ _ _ Q1 Q2) | exact I2].
Qed.

Lemma same_protocol_state_refl (w : World) : same_protocol_state w w.
Proof. unfold same_protocol_state. tauto. Qed.

Lemma perform_invariant (c : Call) (w : World) evs o :
  I w -> perform c w = (evs, o) ->
  Q w evs o /\ (forall w', o = Returned tt w' -> I w').
Proof.
  intros Hi H.
  destruct (perform_cases _ _ GetSpaceDescription _ SimInitMsg_ByteSizeLong
              EnvStateMsg_ByteSizeLong MSG_BUFFER_SIZE numeric_cast c w)
    as [[w' [P S]] | [P | [w' [P S]]]]; rewrite P in H.
  - injection H as <- <-. split; [exact (Q_silent w w' Hi S) |].
    intros w'' E. injection E as <-. exact (I_same w w' S Hi).
  - pose proof (Init_result_holds _ _ GetSpaceDescription _
                  SimInitMsg_ByteSizeLong MSG_BUFFER_SIZE w) as R.
    rewrite H in R. exact (Q_Init w evs o Hi R).
  - pose proof (NotifyCurrentState_result_holds _ _ GetSpaceDescription _
                  SimInitMsg_ByteSizeLong EnvStateMsg_ByteSizeLong
                  MSG_BUFFER_SIZE numeric_cast w') as R.
    rewrite H in R.
    destruct (NotifyCurrentState_invariant w' evs o (I_same w w' S Hi) R)
      as [Q' I'].
    split; [exact (Q_same w w' evs o S Q') | exact I'].
Qed.

Lemma run_invariant (calls : list Call) :
  forall (w : World) evs o,
    I w -> run calls w = (evs, o) -> Q w evs o.
Proof.
  induction calls as [| c rest IH]; intros w evs o Hi H.
  - injection H as <- <-. apply Q_silent; [exact Hi |].
    apply same_protocol_state_refl.
  - rewrite (run_cons _ _ GetSpaceDescription _ SimInitMsg_ByteSizeLong
               EnvStateMsg_ByteSizeLong MSG_BUFFER_SIZE numeric_cast) in H.
    destruct (perform c w) as [evs1 o1] eqn:P.
    destruct (perform_invariant c w evs1 o1 Hi P) as [Q1 I1].
    destruct o1 as [[] w1 | code w1 | msg w1 | w1];
      try (injection H as <- <-; exact Q1).
    destruct (run rest w1) as [evs2 o2] eqn:R.
    injection H as <- <-.
    exact (Q_seq _ _ _ _ _ Q1 (IH w1 evs2 o2 (I1 w1 eq_refl) R)).
Qed.
End RunInvariant.

(** *** The rendezvous *)

Lemma channel_after_app (tr1 tr2 : list Event) :
  channel_after tr1 = Idle ->
  channel_after (tr1 ++ tr2) = channel_after tr2.
Proof.
  unfold channel_after. intros H. rewrite fold_left_app, H. reflexivity.
Qed.

(** X12. In every run the messages go in step: a message is sent only when
    none is in flight, the next event after an init message is its
    acknowledgement and after a state message its action message, and a run
    ends with a message in flight only if it waits for the reply. *)
Theorem run_rendezvous_in_step (calls : list Call) (w : World) evs o :
  run calls w = (evs, o) ->
  if is_Blocked o
  then channel_after evs = AwaitAck \/ channel_after evs = AwaitAct
  else channel_after evs = Idle.
Proof.
  intros H.
  apply (run_invariant (fun _ => True) (fun _ => rendezvous_in_step)
           ltac:(auto) ltac:(auto)) with (calls := calls) (w := w);
    [| | | | exact I | exact H]; clear.
  - reflexivity.
  - intros w evs o _ R. split; [| auto].
    inversion R; subst; unfold rendezvous_in_step; simpl; auto.
  - intros w evs o _ R. split; [| auto].
    inversion R; subst; unfold rendezvous_in_step; simpl; auto.
  - unfold rendezvous_in_step. intros w evs1 w1 evs2 o Q1 Q2. simpl in Q1.
    rewrite (channel_after_app _ _ Q1). exact Q2.
Qed.

(** *** The replies *)

Lemma shows_ack (buf : Py2CppStruct) :
  shows_reply (RecvSimInitAck (SpaceDescription := SpaceDescription)
                 (as_SimInitAck buf)) buf.
Proof. left; reflexivity. Qed.

Lemma shows_act (buf : Py2CppStruct) :
  shows_reply (RecvEnvAct (SpaceDescription := SpaceDescription)
                 (as_EnvActMsg buf)) buf.
Proof. right; reflexivity. Qed.

Ltac took consumed :=
  exists consumed;
  cbn [world_of py2cpp Interface.with_env filter is_Recv is_Blocked app];
  split;
  [ first [assumption | reflexivity | symmetry; apply app_nil_r]
  | split;
    [ repeat (apply Forall2_cons || apply Forall2_nil);
      auto using shows_ack, shows_act
    | first [intros D; discriminate D | intros _; assumption
             | intros _; reflexivity] ] ].

(** X13. A run takes the replies of the remote side in the order they were
    written, one for each receive: the receives of the run show, in order,
    the replies at the front of the queue, what is left is the rest of the
    queue, and the run waits for a reply only when none is left. *)
Theorem run_takes_replies_in_order (calls : list Call) (w : World) evs o :
  run calls w = (evs, o) ->
  exists consumed,
    py2cpp w = consumed ++ py2cpp (world_of o)
    /\ Forall2 shows_reply (filter is_Recv evs) consumed
    /\ (is_Blocked o = true -> py2cpp (world_of o) = []).
Proof.
  intros H.
  apply (run_invariant (fun _ => True) replies_in_order
           ltac:(auto)) with (calls := calls) (w := w);
    [| | | | | exact I | exact H]; clear.
  - intros w w' evs o [_ [_ [E _]]] [consumed [Q1 Q2]].
    exists consumed. rewrite <- E. split; assumption.
  - intros w w' _ [_ [_ [E _]]]. exists []. simpl.
    split; [symmetry; exact E | split; [constructor | discriminate]].
  - intros w evs o _ R. split; [| auto].
    inversion R; subst; unfold replies_in_order.
    + took (@nil Py2CppStruct).
    + took (@nil Py2CppStruct).
    + took (@nil Py2CppStruct).
    + took [buf].
    + took [buf].
  - intros w evs o _ R. split; [| auto].
    inversion R; subst; unfold replies_in_order.
    + took (@nil Py2CppStruct).
    + took (@nil Py2CppStruct).
    + took (@nil Py2CppStruct).
    + took [buf].
    + took [buf].
    + took [buf].
    + took [buf].
    + took [buf].
  - intros w evs1 w1 evs2 o [c1 [A1 [B1 _]]] [c2 [A2 [B2 C2]]].
    exists (c1 ++ c2). simpl in A1.
    split; [rewrite A1, A2, app_assoc; reflexivity | split; [| exact C2]].
    rewrite filter_app. apply Forall2_app; assumption.
Qed.

(** *** The stop flag and the end of the process *)

Lemma no_shutdown_app (tr1 tr2 : list Event) :
  forallb (fun e => negb (is_shutdown e)) tr1 = true ->
  forallb (fun e => negb (is_shutdown e)) tr2 = true ->
  forallb (fun e => negb (is_shutdown e)) (tr1 ++ tr2) = true.
Proof. intros H1 H2. rewrite forallb_app, H1, H2. reflexivity. Qed.

(** X14. In a run that starts with the stop flag down, the flag is raised
    and the simulator is stopped and destroyed only when the process exits:
    a run that exits does so with code 0, with the flag up, and its last
    three events are a reply that asks to stop, [Simulator::Stop] and
    [Simulator::Destroy]; a run that ends in any other way has the flag
    down and has not touched the simulator. *)
Theorem run_shutdown_only_on_exit (calls : list Call) (w : World) evs o :
  m_stopEnvRequested (iface w) = false ->
  run calls w = (evs, o) ->
  match o with
  | Exited code w' =>
      code = 0%Z
      /\ m_stopEnvRequested (iface w') = true
      /\ exists pre e,
          evs = pre ++ [e; Simulator_Stop; Simulator_Destroy]
          /\ is_stop_reply e = true
          /\ forallb (fun e => negb (is_shutdown e)) pre = true
  | Returned _ w' | Aborted _ w' | Blocked w' =>
      m_stopEnvRequested (iface w') = false
      /\ forallb (fun e => negb (is_shutdown e)) evs = true
  end.
Proof.
  intros F H.
  change (shutdown_only_on_exit evs o).
  apply (run_invariant
           (fun w => m_stopEnvRequested (iface w) = false)
           (fun _ => shutdown_only_on_exit))
    with (calls := calls) (w := w);
    [| | | | | | exact F | exact H]; clear.
  - intros w w' [_ [E _]] Hw. congruence.
  - auto.
  - intros w w' Hw [_ [E _]]. simpl. split; [congruence | reflexivity].
  - intros w evs o Hw R.
    inversion R; subst; simpl; try congruence;
      (split; [| intros w' E; try discriminate E; injection E as <-; simpl;
                 assumption]);
      try (split; [assumption | reflexivity]).
    split; [reflexivity | split; [reflexivity |]].
    exists [SendSimInit msg], (RecvSimInitAck (as_SimInitAck buf)).
    split; [reflexivity | split; [assumption | reflexivity]].
  - intros w evs o Hw R.
    inversion R; subst; simpl; try congruence;
      (split; [| intros w' E; try discriminate E; injection E as <-; simpl;
                 assumption]);
      try (split; [assumption | reflexivity]).
    split; [reflexivity | split; [reflexivity |]].
    exists [SendEnvState msg], (RecvEnvAct (as_EnvActMsg buf)).
    split; [reflexivity | split; [assumption | reflexivity]].
  - intros w evs1 w1 evs2 o [_ N1] Q2.
    destruct o as [[] w' | code w' | msg w' | w']; simpl in *.
    + destruct Q2 as [S N2]. split; [exact S | apply no_shutdown_app; assumption].
    + destruct Q2 as [C [S [pre [e [E [R N2]]]]]].
      split; [exact C | split; [exact S |]].
      exists (evs1 ++ pre), e. rewrite E, app_assoc.
      split; [reflexivity | split; [exact R | apply no_shutdown_app; assumption]].
    + destruct Q2 as [S N2]. split; [exact S | apply no_shutdown_app; assumption].
    + destruct Q2 as [S N2]. split; [exact S | apply no_shutdown_app; assumption].
Qed.

(** *** The actions applied *)

Lemma action_after_reply_app (tr1 tr2 : list Event) :
  action_after_reply tr1 -> action_after_reply tr2 ->
  action_after_reply (tr1 ++ tr2).
Proof.
  intros H1 H2 pre action post E.
  apply app_eq_app in E. destruct E as [l [[E1 E2] | [E1 E2]]].
  - destruct l as [| x l].
    + simpl in E2. rewrite app_nil_r in E1. subst.
      destruct (H2 [] action post eq_refl) as [pre' [act [E _]]].
      destruct pre'; discriminate E.
    + injection E2 as <- E2. exact (H1 pre action l E1).
  - destruct (H2 l action post E2) as [pre' [act [E [S D]]]].
    exists (tr1 ++ pre'), act. rewrite E1, E, app_assoc. auto.
Qed.

Lemma no_action_after_reply (tr : list Event) :
  forallb (fun e => negb (is_ActionCb e)) tr = true -> action_after_reply tr.
Proof.
  intros H pre action post E. subst tr.
  rewrite forallb_app in H. simpl in H.
  rewrite andb_false_r in H. discriminate H.
Qed.

(** X15. In every run, each invocation of the action callback comes right
    after the receive of an action message that does not ask to stop, and
    is given the container that this message decodes to: no action is
    applied that the remote side did not send, and none after a reply that
    cannot be decoded. *)
Theorem run_action_after_reply (calls : list Call) (w : World) evs o :
  run calls w = (evs, o) ->
  forall pre action post,
    evs = pre ++ ActionCb action :: post ->
    exists pre' act,
      pre = pre' ++ [RecvEnvAct act]
      /\ stopsimreq act = false
      /\ CreateFromDataContainerPbMsg (actdata act) = Ok action.
Proof.
  intros H.
  change (action_after_reply evs).
  apply (run_invariant (fun _ => True) (fun _ evs _ => action_after_reply evs)
           ltac:(auto) ltac:(auto))
    with (calls := calls) (w := w) (o := o);
    [| | | | exact I | exact H]; clear.
  - intros w w' _ _. apply no_action_after_reply. reflexivity.
  - intros w evs o _ R. split; [| auto].
    inversion R; subst; apply no_action_after_reply; reflexivity.
  - intros w evs o _ R. split; [| auto].
    inversion R; subst; try (apply no_action_after_reply; reflexivity).
    intros pre a post E.
    destruct pre as [| x [| y [| z pre]]]; try discriminate E.
    + injection E as <- <- <- _.
      exists [SendEnvState msg], (as_EnvActMsg buf). auto.
    + injection E as _ _ _ E. destruct pre; discriminate E.
  - intros w evs1 w1 evs2 o. apply action_after_reply_app.
Qed.

(** *** What the messages carry *)

Ltac branch :=
  match goal with
  | |- context [match ?x with _ => _ end] =>
      lazymatch x with
      | context [match _ with _ => _ end] => fail
      | _ => destruct x eqn:?
      end
  end.

Ltac exec :=
  cbv [Interface.Init
       Interface.GetObservation Interface.GetReward Interface.IsGameOver
       Interface.GetExtraInfo Interface.GetObservationSpace
       Interface.GetActionSpace Interface.ExecuteActions
       Interface.CppSend Interface.CppRecv Interface.lift
       mbind this assign emit ret invoke std_exit abort];
  simpl.

Ltac in_events H :=
  simpl in H;
  repeat (destruct H as [H | H]; [try discriminate H |]);
  try contradiction.

(** With no space callback bound, the init message has no space. *)
Lemma Init_without_spaces (w : World) evs o msg :
  m_observationSpaceCb (iface w) = None ->
  m_actionSpaceCb (iface w) = None ->
  Init w = (evs, o) ->
  In (SendSimInit msg) evs ->
  msg = {| obsspace := None; actspace := None |}.
Proof.
  destruct w as [i e q]. destruct i. simpl. intros Ho Ha H Hin. subst.
  revert H. exec.
  repeat (branch; simpl in * ); intros H; injection H as <- <-;
    in_events Hin; congruence.
Qed.

Lemma exchange_sends_no_SimInit (w : World) evs o msg :
  exchange w = (evs, o) -> ~ In (SendSimInit msg) evs.
Proof.
  intros H Hin.
  pose proof (exchange_result_holds _ SpaceDescription _
                EnvStateMsg_ByteSizeLong MSG_BUFFER_SIZE numeric_cast w) as R.
  rewrite H in R. simpl in R. inversion R; subst; in_events Hin.
Qed.

Lemma NotifyCurrentState_without_spaces (w : World) evs o msg :
  m_observationSpaceCb (iface w) = None ->
  m_actionSpaceCb (iface w) = None ->
  NotifyCurrentState w = (evs, o) ->
  In (SendSimInit msg) evs ->
  msg = {| obsspace := None; actspace := None |}.
Proof.
  intros Ho Ha H Hin.
  destruct (m_initSimMsgSent (iface w)) eqn:F.
  - rewrite (NotifyCurrentState_init _ _ GetSpaceDescription _
               SimInitMsg_ByteSizeLong EnvStateMsg_ByteSizeLong
               MSG_BUFFER_SIZE numeric_cast w F) in H.
    exfalso. exact (exchange_sends_no_SimInit w evs o msg H Hin).
  - rewrite (NotifyCurrentState_uninit _ _ GetSpaceDescription _
               SimInitMsg_ByteSizeLong EnvStateMsg_ByteSizeLong
               MSG_BUFFER_SIZE numeric_cast w F) in H.
    pose proof (Init_result_holds _ _ GetSpaceDescription _
                  SimInitMsg_ByteSizeLong MSG_BUFFER_SIZE w) as R.
    destruct (Init w) as [evs1 o1] eqn:HI. simpl in R.
    assert (A : In (SendSimInit msg) evs1 ->
                msg = {| obsspace := None; actspace := None |}).
    { exact (Init_without_spaces w evs1 o1 msg Ho Ha HI). }
    destruct o1 as [[] w1 | code w1 | m w1 | w1];
      try (injection H as <- <-; exact (A Hin)).
    assert (F1 : m_initSimMsgSent (iface w1) = true).
    { inversion R; subst; try congruence; reflexivity. }
    rewrite (NotifyCurrentState_init _ _ GetSpaceDescription _
               SimInitMsg_ByteSizeLong EnvStateMsg_ByteSizeLong
               MSG_BUFFER_SIZE numeric_cast w1 F1) in H.
    destruct (exchange w1) as [evs2 o2] eqn:X. injection H as <- <-.
    apply in_app_or in Hin. destruct Hin as [Hin | Hin]; [exact (A Hin) |].
    exfalso. exact (exchange_sends_no_SimInit w1 evs2 o2 msg X Hin).
Qed.

(** [Notify] is [NotifyCurrentState] on the interface with the five
    callbacks of the entity bound. *)
Lemma Notify_binds (entity : OpenGymEnv Env) (w : World) :
  Notify entity w
  = NotifyCurrentState
      {| iface :=
           with_callbacks OpenGymSpace Env
             (m_actionSpaceCb (iface w)) (m_observationSpaceCb (iface w))
             (Some (Env_GetGameOver Env entity))
             (Some (Env_GetObservation Env entity))
             (Some (Env_GetReward Env entity))
             (Some (Env_GetExtraInfo Env entity))
             (Some (Env_ExecuteActions Env entity)) (iface w);
         env := env w; py2cpp := py2cpp w |}.
Proof.
  destruct w as [i e q].
  unfold Interface.Notify, Interface.SetGetGameOverCb,
    Interface.SetGetObservationCb, Interface.SetGetRewardCb,
    Interface.SetGetExtraInfoCb, Interface.SetExecuteActionsCb.
  rewrite !mbind_assign. reflexivity.
Qed.

(** [NotifyCurrentState] leaves the seven callbacks as they are, however
    it ends. *)
Lemma NotifyCurrentState_keeps_callbacks (w : World) evs o :
  NotifyCurrentState w = (evs, o) ->
  m_actionSpaceCb (iface (world_of o)) = m_actionSpaceCb (iface w)
  /\ m_observationSpaceCb (iface (world_of o)) = m_observationSpaceCb (iface w)
  /\ m_gameOverCb (iface (world_of o)) = m_gameOverCb (iface w)
  /\ m_obsCb (iface (world_of o)) = m_obsCb (iface w)
  /\ m_rewardCb (iface (world_of o)) = m_rewardCb (iface w)
  /\ m_extraInfoCb (iface (world_of o)) = m_extraInfoCb (iface w)
  /\ m_actionCb (iface (world_of o)) = m_actionCb (iface w).
Proof.
  intros H.
  pose proof (NotifyCurrentState_result_holds _ _ GetSpaceDescription _
                SimInitMsg_ByteSizeLong EnvStateMsg_ByteSizeLong
                MSG_BUFFER_SIZE numeric_cast w) as R.
  rewrite H in R. simpl in R.
  inversion R as [? ? F X | ? ? F HI N | ? w1 ? ? F HI X]; subst.
  - inversion X; subst; repeat split; reflexivity.
  - inversion HI; subst; repeat split; reflexivity.
  - inversion HI; subst; [congruence |].
    inversion X; subst; repeat split; reflexivity.
Qed.

(** X16. [Notify] binds the five callbacks of the environment, leaves the
    two space callbacks as they are, and then is [NotifyCurrentState]:
    however the call ends, the interface holds the game-over, observation,
    reward, extra-info and action callbacks of the entity and the space
    callbacks it had; so on an interface on which no space callback was
    set, the init message that [Notify] sends describes no observation
    space and no action space. *)
Theorem Notify_binds_five_callbacks (entity : OpenGymEnv Env) (w : World)
  evs o :
  Notify entity w = (evs, o) ->
  (m_gameOverCb (iface (world_of o)) = Some (Env_GetGameOver Env entity)
   /\ m_obsCb (iface (world_of o)) = Some (Env_GetObservation Env entity)
   /\ m_rewardCb (iface (world_of o)) = Some (Env_GetReward Env entity)
   /\ m_extraInfoCb (iface (world_of o)) = Some (Env_GetExtraInfo Env entity)
   /\ m_actionCb (iface (world_of o)) = Some (Env_ExecuteActions Env entity))
  /\ (m_actionSpaceCb (iface (world_of o)) = m_actionSpaceCb (iface w)
      /\ m_observationSpaceCb (iface (world_of o))
         = m_observationSpaceCb (iface w))
  /\ NotifyCurrentState
       {| iface :=
            with_callbacks OpenGymSpace Env
              (m_actionSpaceCb (iface w)) (m_observationSpaceCb (iface w))
              (Some (Env_GetGameOver Env entity))
              (Some (Env_GetObservation Env entity))
              (Some (Env_GetReward Env entity))
              (Some (Env_GetExtraInfo Env entity))
              (Some (Env_ExecuteActions Env entity)) (iface w);
          env := env w; py2cpp := py2cpp w |}
     = (evs, o)
  /\ (m_observationSpaceCb (iface w) = None ->
      m_actionSpaceCb (iface w) = None ->
      forall msg, In (SendSimInit msg) evs ->
                  obsspace msg = None /\ actspace msg = None).
Proof.
  intros H. rewrite Notify_binds in H.
  destruct (NotifyCurrentState_keeps_callbacks _ evs o H)
    as [K1 [K2 [K3 [K4 [K5 [K6 K7]]]]]].
  cbn [iface Interface.with_callbacks m_actionSpaceCb m_observationSpaceCb
       m_gameOverCb m_obsCb m_rewardCb m_extraInfoCb m_actionCb] in *.
  split; [repeat split; assumption |].
  split; [split; assumption |].
  split; [exact H |].
  intros Ho Ha msg Hin.
  rewrite (NotifyCurrentState_without_spaces _ evs o msg) with (3 := H);
    [split; reflexivity | exact Ho | exact Ha | exact Hin].
Qed.

(** The exchange with the results of the four callbacks at hand. *)
Ltac open_exchange w Hstop :=
  let obs := fresh "obs" in
  let e1 := fresh "e1" in
  let H1 := fresh "H1" in
  let r := fresh "r" in
  let e2 := fresh "e2" in
  let H2 := fresh "H2" in
  let g := fresh "g" in
  let e3 := fresh "e3" in
  let H3 := fresh "H3" in
  let Hg := fresh "Hg" in
  let x := fresh "x" in
  let e4 := fresh "e4" in
  let H4 := fresh "H4" in
  destruct (GetObservation_quiet _ SpaceDescription _ w) as [obs [e1 H1]];
  destruct (GetReward_quiet _ SpaceDescription _ (with_env e1 w))
    as [r [e2 H2]];
  destruct (IsGameOver_quiet _ SpaceDescription _
              (with_env e2 (with_env e1 w))) as [g [e3 [H3 Hg]]];
  destruct (GetExtraInfo_quiet _ SpaceDescription _
              (with_env e3 (with_env e2 (with_env e1 w)))) as [x [e4 H4]];
  change (with_env e4 (with_env e3 (with_env e2 (with_env e1 w))))
    with (with_env e4 w) in H4;
  change (m_simEnd (iface (with_env e2 (with_env e1 w))))
    with (m_simEnd (iface w)) in Hg;
  rewrite (exchange_cases _ _ _ EnvStateMsg_ByteSizeLong MSG_BUFFER_SIZE
             numeric_cast _ _ _ _ _ _ _ _ _ Hstop H1 H2 H3 H4) in *;
  cbn [py2cpp iface env Interface.with_env] in *.





Lemma exchange_undecodable (w : World) act evs o :
  m_simEnd (iface w) = false ->
  exchange w = (evs, o) ->
  In (RecvEnvAct act) evs ->
  stopsimreq act = false ->
  supported (actdata act) = false ->
  (forall e, In e evs -> is_ActionCb e = false)
  /\ exists msg w' buf,
      o = Aborted msg w'
      /\ decode_abort msg
      /\ act = as_EnvActMsg buf
      /\ py2cpp w = buf :: py2cpp w'.
Proof.
  intros Hend H Hin S U.
  destruct (m_stopEnvRequested (iface w)) eqn:Hstop.
  - rewrite (exchange_when_stopped _ _ _ EnvStateMsg_ByteSizeLong
               MSG_BUFFER_SIZE numeric_cast w Hstop) in H.
    injection H as <- <-. contradiction.
  - open_exchange w Hstop.
    rewrite Hend in H.
    destruct (encode_observation numeric_cast obs) as [od | m | m];
      try (injection H as <- <-; contradiction).
    cbv zeta in H.
    match type of H with
    | context [(?s <=? MSG_BUFFER_SIZE)%N] =>
        destruct (s <=? MSG_BUFFER_SIZE)%N
    end;
      [| injection H as <- <-; contradiction].
    destruct (py2cpp w) as [| buf rest] eqn:Q;
      [injection H as <- <-; in_events Hin |].
    destruct (stopsimreq (as_EnvActMsg buf)) eqn:S'.
    + injection H as <- <-. in_events Hin. injection Hin as <-. congruence.
    + pose proof (decode_decodes_as (actdata (as_EnvActMsg buf))) as D.
      destruct (CreateFromDataContainerPbMsg (actdata (as_EnvActMsg buf)))
        as [action | m | m]; simpl in D; [| | contradiction].
      * exfalso.
        rewrite (ExecuteActions_cases _ SpaceDescription) in H.
        cbn [iface env py2cpp] in H.
        destruct (m_actionCb (iface w)) as [cb |];
          [destruct (cb action e4) |];
          injection H as <- <-; in_events Hin; injection Hin as <-;
          congruence.
      * destruct D as [_ D]. injection H as <- <-.
        in_events Hin. injection Hin as <-.
        split; [intros e [<- | [<- | []]]; reflexivity |].
        eexists. eexists. exists buf.
        split; [reflexivity | split; [exact D | split; reflexivity]].
Qed.

(** X19. On an interface on which the end of the simulation is not
    flagged, an action message that the decoder does not accept ends the
    process: whenever [NotifyCurrentState], with the handshake done before
    or in this very call, receives an action message that asks for no stop
    and whose action data has no data case set, or holds a box of an
    unknown dtype at any depth, the call aborts with the decoder's message,
    after it took the reply from the transport and without invoking the
    action callback. *)
Theorem undecodable_action_aborts (w : World) act evs o :
  m_simEnd (iface w) = false ->
  NotifyCurrentState w = (evs, o) ->
  In (RecvEnvAct act) evs ->
  stopsimreq act = false ->
  supported (actdata act) = false ->
  (forall e, In e evs -> is_ActionCb e = false)
  /\ exists msg w' buf,
      o = Aborted msg w'
      /\ (msg = "Unsupported data type"
          \/ msg = "Unsupported data container type")
      /\ act = as_EnvActMsg buf
      /\ (exists front, py2cpp w = front ++ buf :: py2cpp w').
Proof.
  intros Hend H Hin S U.
  destruct (m_initSimMsgSent (iface w)) eqn:F.
  - rewrite (NotifyCurrentState_init _ _ GetSpaceDescription _
               SimInitMsg_ByteSizeLong EnvStateMsg_ByteSizeLong
               MSG_BUFFER_SIZE numeric_cast w F) in H.
    destruct (exchange_undecodable w act evs o Hend H Hin S U)
      as [A [msg [w' [buf [Ho [D [Ea Q]]]]]]].
    split; [exact A |].
    exists msg, w', buf.
    split; [exact Ho | split; [exact D | split; [exact Ea |]]].
    exists []. exact Q.
  - rewrite (NotifyCurrentState_uninit _ _ GetSpaceDescription _
               SimInitMsg_ByteSizeLong EnvStateMsg_ByteSizeLong
               MSG_BUFFER_SIZE numeric_cast w F) in H.
    pose proof (Init_result_holds _ _ GetSpaceDescription _
                  SimInitMsg_ByteSizeLong MSG_BUFFER_SIZE w) as R.
    destruct (Init w) as [evs1 o1] eqn:HI. simpl in R.
    inversion R as [F' | e F' | e init F' Q0 | e init ack rest0 F' Q0 A0
                    | e init ack rest0 F' Q0 A0]; subst;
      try congruence;
      try (injection H as <- <-; in_events Hin).
    match type of H with
    | context [NotifyCurrentState ?x] =>
        rewrite (NotifyCurrentState_init _ _ GetSpaceDescription _
                   SimInitMsg_ByteSizeLong EnvStateMsg_ByteSizeLong
                   MSG_BUFFER_SIZE numeric_cast x eq_refl) in H;
        destruct (exchange x) as [evs2 o2] eqn:X
    end.
    injection H as <- <-.
    simpl in Hin.
    destruct Hin as [D0 | [D0 | Hin]]; [discriminate D0 | discriminate D0 |].
    assert (K : (forall e, In e evs2 -> is_ActionCb e = false)
                /\ exists msg w' buf,
                    o2 = Aborted msg w'
                    /\ decode_abort msg
                    /\ act = as_EnvActMsg buf
                    /\ rest0 = buf :: py2cpp w').
    { match type of X with
      | exchange ?x = _ =>
          exact (exchange_undecodable x act evs2 o2 Hend X Hin S U)
      end. }
    destruct K as [A [msg [w' [buf [Ho [D [Ea Q]]]]]]].
    split.
    + intros ev [<- | [<- | Hev]]; [reflexivity | reflexivity |].
      exact (A ev Hev).
    + exists msg, w', buf.
      split; [exact Ho | split; [exact D | split; [exact Ea |]]].
      exists [ack]. rewrite Q0, Q. reflexivity.
Qed.
End InterfaceExtras.

(** ** The names of the transport *)

Section TransportNames.
Import Container Interface.

Lemma to_uint_not_Nil (n : N) : N.to_uint n <> Decimal.Nil.
Proof.
  intros E. pose proof (DecimalN.Unsigned.of_to n) as P.
  rewrite E in P. simpl in P. subst n. discriminate E.
Qed.

Lemma to_string_unsigned_inj (a b : N) :
  to_string_unsigned a = to_string_unsigned b -> a = b.
Proof.
  unfold to_string_unsigned. intros H.
  apply (f_equal NilZero.uint_of_string) in H.
  rewrite !NilZero.usu in H by apply to_uint_not_Nil.
  injection H as H. apply DecimalN.Unsigned.to_uint_inj. exact H.
Qed.

(** X21. The environment id keeps the transports of two interfaces apart:
    the constructor gives the four names of the segment, the two buffers
    and the lock, which differ from each other, and interfaces of two
    environment ids share a name only when the ids are equal.  The
    interface never creates the memory, uses no vector and does not handle
    the finish. *)
Theorem transport_names_by_envId (a b : N) :
  NoDup (names (OpenGymInterface_settings a))
  /\ ((exists n, In n (names (OpenGymInterface_settings a))
                /\ In n (names (OpenGymInterface_settings b)))
      <-> a = b)
  /\ isMemoryCreator (OpenGymInterface_settings a) = false
  /\ useVector (OpenGymInterface_settings a) = false
  /\ handleFinish (OpenGymInterface_settings a) = false.
Proof.
  split; [| split; [| repeat split]].
  - unfold names, OpenGymInterface_settings; simpl.
    repeat constructor; simpl; intuition discriminate.
  - split.
    + intros [n [Ha Hb]].
      unfold names, OpenGymInterface_settings in Ha, Hb; simpl in Ha, Hb.
      destruct Ha as [Ha | [Ha | [Ha | [Ha | []]]]];
        destruct Hb as [Hb | [Hb | [Hb | [Hb | []]]]];
        subst n; try discriminate Hb;
        apply to_string_unsigned_inj; injection Hb as Hb;
        first [exact Hb | symmetry; exact Hb].
    + intros ->. eexists. split; left; reflexivity.
Qed.

End TransportNames.

Module InterfaceExtraExamples.
Import Container Interface Sample.

(** A run that the remote side leaves waiting: the handshake and one step
    are answered, the second state message is not. *)
Lemma run_rendezvous_in_step_witness :
  let r := sample_run
             [call_Notify Space nat entity; call_NotifyCurrentState Space nat]
             (start 0 0%nat [reply false; reply false]) in
  rendezvous_in_step (fst r) (snd r).
Proof.
  intros r.
  apply (run_rendezvous_in_step Space Space describe nat SimInit_size
           EnvState_size BUFFER_SIZE cast_unused
           [call_Notify Space nat entity; call_NotifyCurrentState Space nat]
           (start 0 0%nat [reply false; reply false]) (fst r) (snd r)).
  reflexivity.
Defined.

Lemma run_takes_replies_in_order_witness :
  let w := start 0 0%nat [reply false; reply false; reply true; reply false] in
  let r := sample_run
             [call_Notify Space nat entity; call_NotifyCurrentState Space nat]
             w in
  replies_in_order w (fst r) (snd r).
Proof.
  intros w r.
  apply (run_takes_replies_in_order Space Space describe nat SimInit_size
           EnvState_size BUFFER_SIZE cast_unused
           [call_Notify Space nat entity; call_NotifyCurrentState Space nat]
           w (fst r) (snd r)).
  reflexivity.
Defined.

Lemma run_shutdown_only_on_exit_witness :
  let calls :=
    [call_Notify Space nat entity; call_NotifyCurrentState Space nat] in
  let r := sample_run calls (start 0 0%nat [reply false; reply false; reply true]) in
  let r' := sample_run calls (start 0 0%nat [reply false; reply false]) in
  shutdown_only_on_exit (fst r) (snd r)
  /\ shutdown_only_on_exit (fst r') (snd r').
Proof.
  intros calls r r'. split.
  - apply (run_shutdown_only_on_exit Space Space describe nat SimInit_size
             EnvState_size BUFFER_SIZE cast_unused calls
             (start 0 0%nat [reply false; reply false; reply true])
             (fst r) (snd r));
      reflexivity.
  - apply (run_shutdown_only_on_exit Space Space describe nat SimInit_size
             EnvState_size BUFFER_SIZE cast_unused calls
             (start 0 0%nat [reply false; reply false])
             (fst r') (snd r'));
      reflexivity.
Defined.

Lemma run_action_after_reply_witness :
  let r := sample_run
             [call_Notify Space nat entity; call_NotifyCurrentState Space nat]
             (start 0 0%nat [reply false; reply false; reply true]) in
  action_after_reply (fst r).
Proof.
  intros r.
  exact (run_action_after_reply Space Space describe nat SimInit_size
           EnvState_size BUFFER_SIZE cast_unused
           [call_Notify Space nat entity; call_NotifyCurrentState Space nat]
           (start 0 0%nat [reply false; reply false; reply true])
           (fst r) (snd r) eq_refl).
Defined.

Lemma Notify_binds_five_callbacks_witness :
  let w := start 0 0%nat [reply false; reply false] in
  let r := Notify describe SimInit_size EnvState_size BUFFER_SIZE cast_unused
             entity w in
  (m_gameOverCb (iface (world_of (snd r))) = Some (Env_GetGameOver nat entity)
   /\ m_obsCb (iface (world_of (snd r)))
      = Some (Env_GetObservation nat entity)
   /\ m_rewardCb (iface (world_of (snd r))) = Some (Env_GetReward nat entity)
   /\ m_extraInfoCb (iface (world_of (snd r)))
      = Some (Env_GetExtraInfo nat entity)
   /\ m_actionCb (iface (world_of (snd r)))
      = Some (Env_ExecuteActions nat entity))
  /\ (m_actionSpaceCb (iface (world_of (snd r))) = None
      /\ m_observationSpaceCb (iface (world_of (snd r))) = None)
  /\ hd_error (fst r)
     = Some (SendSimInit {| obsspace := None; actspace := None |})
  /\ forall msg, In (SendSimInit msg) (fst r) ->
                 obsspace msg = None /\ actspace msg = None.
Proof.
  intros w r.
  destruct (Notify_binds_five_callbacks Space Space describe nat SimInit_size
              EnvState_size BUFFER_SIZE cast_unused entity w (fst r) (snd r)
              eq_refl) as [B [S [_ N]]].
  split; [exact B | split; [exact S | split; [reflexivity |]]].
  exact (N eq_refl eq_refl).
Defined.



Lemma undecodable_action_aborts_witness :
  let unset := {| as_SimInitAck := {| done := true; ack_stopsimreq := false |};
                  as_EnvActMsg := {| actdata := kTuple "" [DATA_NOT_SET ""];
                                     stopsimreq := false |} |} in
  let w := world false false [reply false; unset; reply false] in
  let evs := [SendSimInit {| obsspace := None; actspace := None |};
              RecvSimInitAck (as_SimInitAck (reply false));
              SendEnvState {| obsdata := Some observation_msg;
                              reward := 1065353216%Z; isgameover := false;
                              reason := None; info := "" |};
              RecvEnvAct (as_EnvActMsg unset)] in
  let o := Aborted "Unsupported data container type"
             (world false true [reply false]) in
  sample_NotifyCurrentState w = (evs, o)
  /\ (forall e, In e evs -> is_ActionCb e = false)
  /\ exists msg w' buf,
      o = Aborted msg w'
      /\ (msg = "Unsupported data type"
          \/ msg = "Unsupported data container type")
      /\ as_EnvActMsg unset = as_EnvActMsg buf
      /\ (exists front, py2cpp w = front ++ buf :: py2cpp w').
Proof.
  intros unset w evs o. split; [reflexivity |].
  exact (undecodable_action_aborts Space Space describe nat SimInit_size
           EnvState_size BUFFER_SIZE cast_unused w (as_EnvActMsg unset) evs o
           eq_refl eq_refl
           (or_intror (or_intror (or_intror (or_introl eq_refl))))
           eq_refl eq_refl).
Defined.
End InterfaceExtraExamples.
